(** * Turtle3D: a shallow embedding of [Turtle3D.py]

    The transform / projection / lighting / depth-sort pipeline of the
    Turtle3D renderer, embedded function by function.

    Conventions of the embedding:
    - Python numbers (ints and floats used interchangeably) are real
      numbers [R]; [math.sin], [math.cos], [math.tan], [math.sqrt] are the
      functions of the same name of the real-number library.
    - A vertex, a position, a rotation and a scale are Python lists of
      three numbers: the record [vec3].  An RGB colour is a 3-tuple, also a
      [vec3].
    - An exception is a value of [exn]; a function that can raise returns a
      [result].  Functions that mutate [self] return the new object.
    - Class attributes (the global memories) are explicit stores. *)

From Stdlib Require Import Reals Lra Psatz List ZArith String Bool.
From Stdlib Require Import Permutation Sorted.
Import ListNotations.
Open Scope R_scope.

(* ================================================================== *)
(** * Python values and exceptions *)

(** The exceptions the embedded code can raise.  The five classes derived
    from [Turtle3DError] carry their formatted message arguments. *)
Inductive exn : Type :=
| TypeError
| IndexError
| ValueError
| ZeroDivisionError
| Turtle3DError (message : string)
| DuplicateNameError (name : string)
| AlreadyInSceneError (object_name : string)
| IDNotFoundError (object_id : Z)
| NoActiveCamera (scene_name : string)
| NoScenePermission (scene_name scene_value : string).

Inductive result (A : Type) : Type :=
| Ok (a : A)
| Raise (e : exn).
Arguments Ok {A} a.
Arguments Raise {A} e.

Definition bind {A B : Type} (m : result A) (k : A -> result B) : result B :=
  match m with
  | Ok a => k a
  | Raise e => Raise e
  end.

Notation "x <- m ;; k" := (bind m (fun x => k))
  (at level 61, m at next level, right associativity).

(** A list comprehension whose element expression can raise: elements are
    evaluated left to right and the first exception escapes. *)
Fixpoint mapM {A B : Type} (f : A -> result B) (l : list A) : result (list B) :=
  match l with
  | [] => Ok []
  | a :: l' => b <- f a ;; bs <- mapM f l' ;; Ok (b :: bs)
  end.

(** [l[i]] for a Python list: a negative index counts from the end, an
    index out of range raises [IndexError]. *)
Definition py_index {A : Type} (l : list A) (i : Z) : result A :=
  let n := Z.of_nat (List.length l) in
  let j := (if i <? 0 then i + n else i)%Z in
  if ((0 <=? j) && (j <? n))%Z%bool
  then match nth_error l (Z.to_nat j) with
       | Some a => Ok a
       | None => Raise IndexError
       end
  else Raise IndexError.

(** Truth value of a number: zero is false. *)
Definition truthy (x : R) : bool :=
  if Req_dec_T x 0 then false else true.

(** Truth value of an optional numeric argument ([None] by default). *)
Definition arg_truthy (x : option R) : bool :=
  match x with
  | Some v => truthy v
  | None => false
  end.

Definition Rltb (a b : R) : bool := if Rlt_dec a b then true else false.
Definition Rleb (a b : R) : bool := if Rle_dec a b then true else false.

(** [max(a, b)] and [min(a, b)]: the first argument wins a tie. *)
Definition py_max (a b : R) : R := if Rltb a b then b else a.
Definition py_min (a b : R) : R := if Rltb b a then b else a.

(** True division [a / b]. *)
Definition py_div (a b : R) : result R :=
  if Req_dec_T b 0 then Raise ZeroDivisionError else Ok (a / b).

(** [a ** b] for a base [a >= 0] (every use below takes the base from
    [max(..., 0)]): [0 ** 0 = 1], [0 ** b = 0] for [b > 0], and a zero base
    with a negative exponent raises. *)
Definition py_pow (a b : R) : result R :=
  if Req_dec_T a 0
  then (if Req_dec_T b 0 then Ok 1
        else if Rltb 0 b then Ok 0 else Raise ZeroDivisionError)
  else Ok (Rpower a b).

(** [int(c)]: truncation towards zero. *)
Definition py_int (c : R) : Z :=
  if Rleb 0 c then Int_part c else (- Int_part (- c))%Z.

(** [sorted(l, key=key)] and [l.sort(key=key, reverse=True)]: Python's sort
    is stable in both directions, so its result is that of a stable
    insertion sort. *)
Section Sorting.
Context {A : Type} (key : A -> R).

Fixpoint insert_asc (x : A) (l : list A) : list A :=
  match l with
  | [] => [x]
  | y :: l' => if Rleb (key x) (key y) then x :: y :: l'
               else y :: insert_asc x l'
  end.

Fixpoint insert_desc (x : A) (l : list A) : list A :=
  match l with
  | [] => [x]
  | y :: l' => if Rleb (key y) (key x) then x :: y :: l'
               else y :: insert_desc x l'
  end.

Definition py_sorted (reverse : bool) (l : list A) : list A :=
  fold_right (if reverse then insert_desc else insert_asc) [] l.
End Sorting.

(* ================================================================== *)
(** * Vectors *)

Record vec3 : Type := mkvec { v0 : R; v1 : R; v2 : R }.

Definition set0 (v : vec3) (a : R) : vec3 := mkvec a (v1 v) (v2 v).
Definition set1 (v : vec3) (a : R) : vec3 := mkvec (v0 v) a (v2 v).
Definition set2 (v : vec3) (a : R) : vec3 := mkvec (v0 v) (v1 v) a.

Definition vmap (f : R -> R) (v : vec3) : vec3 :=
  mkvec (f (v0 v)) (f (v1 v)) (f (v2 v)).
Definition vzip (f : R -> R -> R) (a b : vec3) : vec3 :=
  mkvec (f (v0 a) (v0 b)) (f (v1 a) (v1 b)) (f (v2 a) (v2 b)).
Definition vsub : vec3 -> vec3 -> vec3 := vzip Rminus.
Definition vdot (a b : vec3) : R := v0 a * v0 b + v1 a * v1 b + v2 a * v2 b.

(** [math.radians]. *)
Definition radians (angle : R) : R := angle * (PI / 180).

(* ================================================================== *)
(** * Exception classes

    [DuplicateNameError.__init__(self, name, message=...)] has a required
    parameter [name].  Every [raise DuplicateNameError()] in the module
    calls the class with no argument, so evaluating the operand of [raise]
    fails with [TypeError] (missing positional argument) and that is the
    exception which escapes.  [raise_DuplicateNameError args] is the outcome
    of [raise DuplicateNameError( *args )]. *)
Definition raise_DuplicateNameError {A : Type} (args : list string) : result A :=
  match args with
  | [] => Raise TypeError
  | name :: _ => Raise (DuplicateNameError name)
  end.

(** [any(o._name == name for o in memory)]. *)
Definition any_named {A : Type} (get_name : A -> string) (name : string)
    (memory : list A) : bool :=
  existsb (fun o => String.eqb (get_name o) name) memory.

(** An in-place change of the object that a list holds at position [i]
    (nothing changes when there is no such position). *)
Fixpoint update_nth {A : Type} (f : A -> A) (i : nat) (l : list A) : list A :=
  match l, i with
  | [], _ => []
  | a :: l', O => f a :: l'
  | a :: l', S i' => a :: update_nth f i' l'
  end.

(* ================================================================== *)
(** * Material *)

Module Material.
Record t : Type := mk {
  name : string;
  ambient_color : vec3;
  diffuse_color : vec3;
  specular_color : vec3;
  specular_coefficient : R
}.

Definition white : vec3 := mkvec 255 255 255.

Definition __init__ (name : string)
    (ambient_color diffuse_color specular_color : option vec3)
    (specular_coefficient : option R) : t :=
  mk name
     (match ambient_color with Some c => c | None => white end)
     (match diffuse_color with Some c => c | None => white end)
     (match specular_color with Some c => c | None => white end)
     (match specular_coefficient with
      | Some k => if truthy k then k else 10
      | None => 10
      end).
End Material.

(* ================================================================== *)
(** * Light *)

Module Light.
Record t : Type := mk {
  _name : string;
  position : vec3;
  color : vec3;
  intensity : R;
  _scenes : list string;
  _id : Z;
  (** instance attribute created by [self._next_memory_id += 1] *)
  _next_memory_id : Z
}.

(** The class attributes. [self._next_memory_id += 1] rebinds the
    attribute on the instance, so the class-level counter stays as it is;
    [append] mutates the class-level list. *)
Record cls : Type := mkcls {
  _global_light_memory : list t;
  cls_next_memory_id : Z
}.

Definition initial : cls := mkcls [] 1.

Definition __init__ (C : cls) (name : string) (position : vec3)
    (color : option vec3) (intensity : option R) : result t * cls :=
  if any_named _name name (_global_light_memory C)
  then (raise_DuplicateNameError [], C)
  else
    let self :=
      mk name position
         (match color with Some c => c | None => mkvec 255 255 255 end)
         (match intensity with
          | Some i => if truthy i then i else 1
          | None => 1
          end)
         []
         (cls_next_memory_id C)
         (cls_next_memory_id C + 1) in
    (Ok self,
     mkcls (_global_light_memory C ++ [self]) (cls_next_memory_id C)).
Definition with_name (self : t) (name : string) : t :=
  mk name (position self) (color self) (intensity self) (_scenes self)
     (_id self) (_next_memory_id self).

(** [self.change_name(new_name)], [self] being the light that the memory
    holds at position [self] (every light is in the memory, in the order of
    construction): the memory holds a reference, so it sees the new name. *)
Definition change_name (C : cls) (self : nat) (new_name : string)
    : result unit * cls :=
  if any_named _name new_name (_global_light_memory C)
  then (raise_DuplicateNameError [], C)
  else (Ok tt,
        mkcls (update_nth (fun light => with_name light new_name) self
                 (_global_light_memory C))
              (cls_next_memory_id C)).
End Light.

(* ================================================================== *)
(** * Camera *)

Module Camera.
(** A clamp is [None] or a list [[min, max]]. *)
Definition clamp : Type := option (R * R).

Record t : Type := mk {
  _name : string;
  _position : vec3;
  _rotation : vec3;
  fov : R;
  near_plane : R;
  far_plane : R;
  rotation_order : list string;
  x_clamp : clamp;
  y_clamp : clamp;
  z_clamp : clamp;
  _id : Z;
  _next_memory_id : Z
}.

Record cls : Type := mkcls {
  _global_memory : list t;
  cls_next_memory_id : Z
}.

Definition initial : cls := mkcls [] 1.

Definition __init__ (C : cls) (name : string)
    (position rotation : option vec3) (fov near_plane far_plane : option R)
    (rotation_order : option (list string))
    (x_clamp y_clamp z_clamp : clamp) : result t * cls :=
  let position := match position with Some p => p | None => mkvec 0 0 0 end in
  let rotation := match rotation with Some r => r | None => mkvec 0 0 0 end in
  let fov := match fov with Some f => f | None => 60 end in
  let near_plane := match near_plane with Some n => n | None => 1 / 10 end in
  let far_plane := match far_plane with Some f => f | None => 1000 end in
  let rotation_order :=
    match rotation_order with
    | Some o => o
    | None => ["y"; "x"; "z"]%string
    end in
  (* if x_clamp is None: x_clamp = None *)
  let x_clamp := match x_clamp with None => None | Some c => Some c end in
  (* if y_clamp is None: z_clamp = None *)
  let z_clamp := match y_clamp with None => None | Some _ => z_clamp end in
  (* if z_clamp is None: z_clamp = None *)
  let z_clamp := match z_clamp with None => None | Some c => Some c end in
  if any_named _name name (_global_memory C)
  then (raise_DuplicateNameError [], C)
  else
    let self :=
      mk name position rotation fov near_plane far_plane rotation_order
         x_clamp y_clamp z_clamp
         (cls_next_memory_id C) (cls_next_memory_id C + 1) in
    (Ok self, mkcls (_global_memory C ++ [self]) (cls_next_memory_id C)).

Definition with_rotation (self : t) (r : vec3) : t :=
  mk (_name self) (_position self) r (fov self) (near_plane self)
     (far_plane self) (rotation_order self) (x_clamp self) (y_clamp self)
     (z_clamp self) (_id self) (_next_memory_id self).

Definition with_position (self : t) (p : vec3) : t :=
  mk (_name self) p (_rotation self) (fov self) (near_plane self)
     (far_plane self) (rotation_order self) (x_clamp self) (y_clamp self)
     (z_clamp self) (_id self) (_next_memory_id self).

(** [if c: if x < c[0]: x = c[0] elif x > c[1]: x = c[1]]. *)
Definition clamp_to (c : clamp) (x : R) : R :=
  match c with
  | Some (lo, hi) => if Rltb x lo then lo else if Rltb hi x then hi else x
  | None => x
  end.

(** The same test on [x + current]; the result is the clamped delta. *)
Definition clamp_delta (c : clamp) (current x : R) : R :=
  match c with
  | Some (lo, hi) =>
      if Rltb (x + current) lo then lo - current
      else if Rltb hi (x + current) then hi - current
      else x
  | None => x
  end.

Definition set_rotation (self : t) (x y z : option R) : t :=
  let self :=
    match x with
    | Some x => if truthy x
                then with_rotation self
                       (set0 (_rotation self) (clamp_to (x_clamp self) x))
                else self
    | None => self
    end in
  let self :=
    match y with
    | Some y => if truthy y
                then with_rotation self
                       (set1 (_rotation self) (clamp_to (y_clamp self) y))
                else self
    | None => self
    end in
  match z with
  | Some z => if truthy z
              then (* self._rotation[0] = z *)
                   with_rotation self
                     (set0 (_rotation self) (clamp_to (z_clamp self) z))
              else self
  | None => self
  end.

Definition rotate (self : t) (x y z : option R) : t :=
  let self :=
    match x with
    | Some x =>
        if truthy x
        then let r := _rotation self in
             with_rotation self
               (set0 r (v0 r + clamp_delta (x_clamp self) (v0 r) x))
        else self
    | None => self
    end in
  let self :=
    match y with
    | Some y =>
        if truthy y
        then let r := _rotation self in
             with_rotation self
               (set1 r (v1 r + clamp_delta (y_clamp self) (v1 r) y))
        else self
    | None => self
    end in
  match z with
  | Some z =>
      if truthy z
      then let r := _rotation self in
           with_rotation self
             (set2 r (v2 r + clamp_delta (z_clamp self) (v2 r) z))
      else self
  | None => self
  end.

Definition translate (self : t) (x y z : option R) : t :=
  let p := _position self in
  let p := match x with
           | Some x => if truthy x then set0 p (v0 p + x) else p
           | None => p end in
  let p := match y with
           | Some y => if truthy y then set1 p (v1 p + y) else p
           | None => p end in
  let p := match z with
           | Some z => if truthy z then set2 p (v2 p + z) else p
           | None => p end in
  with_position self p.

Definition set_position (self : t) (x y z : option R) : t :=
  let p := _position self in
  let p := match x with
           | Some x => if truthy x then set0 p x else p
           | None => p end in
  let p := match y with
           | Some y => if truthy y then set1 p y else p
           | None => p end in
  let p := match z with
           | Some z => if truthy z then set2 p z else p
           | None => p end in
  with_position self p.
(** [pitch, yaw, _ = [math.radians(angle) for angle in self._rotation]]. *)
Definition get_forward_vector (self : t) : vec3 :=
  let pitch := radians (v0 (_rotation self)) in
  let yaw := radians (v1 (_rotation self)) in
  let forward_x := - sin (- yaw) * cos pitch in
  let forward_y := sin pitch in
  let forward_z := cos pitch * cos (- yaw) in
  mkvec forward_x forward_y forward_z.

Definition get_up_vector (self : t) : vec3 :=
  let pitch := radians (v0 (_rotation self)) in
  let yaw := radians (v1 (_rotation self)) in
  let roll := radians (v2 (_rotation self)) in
  let cos_yaw := cos (- yaw) in
  let sin_yaw := sin (- yaw) in
  let up_x := (cos_yaw * sin roll) - (sin_yaw * sin pitch * cos roll) in
  let up_y := cos pitch * cos roll in
  let up_z := (sin_yaw * sin roll) + (cos_yaw * sin pitch * cos roll) in
  mkvec up_x up_y up_z.

(** [self] is not used. *)
Definition get_product_vector (vector_1 vector_2 : vec3) : vec3 :=
  let x := v1 vector_2 * v2 vector_1 - v2 vector_2 * v1 vector_1 in
  let y := v2 vector_2 * v0 vector_1 - v0 vector_2 * v2 vector_1 in
  let z := v0 vector_2 * v1 vector_1 - v1 vector_2 * v0 vector_1 in
  mkvec x y z.
End Camera.

(* ================================================================== *)
(** * The drawing surface *)

Module Turtle.
(** The calls made on [pointer] (a [turtle.Turtle]). *)
Inductive cmd : Type :=
| pensize (n : R)
| color (c : vec3)
| fillcolor (c : list Z)
| penup
| pendown
| goto (x y : R)
| begin_fill
| end_fill.

(** [turtle.window_width()] and [turtle.window_height()]. *)
Record window : Type := mkwindow {
  window_width : R;
  window_height : R
}.
End Turtle.

(* ================================================================== *)
(** * Object *)

Module Object.
Record t : Type := mk {
  _name : string;
  _face_array : list (list Z);
  _original_vertex_array : list vec3;
  _transformed_vertex_array : list vec3;
  _translated_vertex_array : list vec3;
  _camera_perspective_vertex_array : option (list vec3);
  (** set by the first render in face mode *)
  _face_normals : option (list vec3);
  _position : vec3;
  _rotation : vec3;
  _scale : vec3;
  material : Material.t;
  visible : bool;
  _scenes : list string;
  _id : Z;
  _next_memory_id : Z
}.

Record cls : Type := mkcls {
  _global_memory : list t;
  cls_next_memory_id : Z
}.

Definition initial : cls := mkcls [] 1.

(** ** Axis rotations about a pivot (in place on [vertex_array]) *)

Definition _rotate_x (angle : R) (vertex_array : list vec3) (pivot : vec3)
    : list vec3 :=
  let angle := radians angle in
  let sinTheata := sin angle in
  let cosTheata := cos angle in
  let py := v1 pivot in
  let pz := v2 pivot in
  map (fun vert =>
         let y := v1 vert - py in
         let z := v2 vert - pz in
         let new_y := y * cosTheata + z * sinTheata in
         let new_z := z * cosTheata - y * sinTheata in
         mkvec (v0 vert) (new_y + py) (new_z + pz))
      vertex_array.

Definition _rotate_y (angle : R) (vertex_array : list vec3) (pivot : vec3)
    : list vec3 :=
  let angle := radians angle in
  let sinTheata := sin angle in
  let cosTheata := cos angle in
  let px := v0 pivot in
  let pz := v2 pivot in
  map (fun vert =>
         let x := v0 vert - px in
         let z := v2 vert - pz in
         let new_x := x * cosTheata + z * sinTheata in
         let new_z := z * cosTheata - x * sinTheata in
         mkvec (new_x + px) (v1 vert) (new_z + pz))
      vertex_array.

Definition _rotate_z (angle : R) (vertex_array : list vec3) (pivot : vec3)
    : list vec3 :=
  let angle := radians angle in
  let sinTheata := sin angle in
  let cosTheata := cos angle in
  let px := v0 pivot in
  let py := v1 pivot in
  map (fun vert =>
         let x := v0 vert - px in
         let y := v1 vert - py in
         let new_x := x * cosTheata + y * sinTheata in
         let new_y := y * cosTheata - x * sinTheata in
         mkvec (new_x + px) (new_y + py) (v2 vert))
      vertex_array.

(** ** The vertex buffers *)

Definition with_buffers (self : t) (transformed translated : list vec3) : t :=
  mk (_name self) (_face_array self) (_original_vertex_array self)
     transformed translated
     (_camera_perspective_vertex_array self) (_face_normals self)
     (_position self) (_rotation self) (_scale self) (material self)
     (visible self) (_scenes self) (_id self) (_next_memory_id self).

Definition with_position (self : t) (p : vec3) : t :=
  mk (_name self) (_face_array self) (_original_vertex_array self)
     (_transformed_vertex_array self) (_translated_vertex_array self)
     (_camera_perspective_vertex_array self) (_face_normals self)
     p (_rotation self) (_scale self) (material self)
     (visible self) (_scenes self) (_id self) (_next_memory_id self).

Definition with_rotation (self : t) (r : vec3) : t :=
  mk (_name self) (_face_array self) (_original_vertex_array self)
     (_transformed_vertex_array self) (_translated_vertex_array self)
     (_camera_perspective_vertex_array self) (_face_normals self)
     (_position self) r (_scale self) (material self)
     (visible self) (_scenes self) (_id self) (_next_memory_id self).

Definition with_camera_perspective (self : t) (a : list vec3) : t :=
  mk (_name self) (_face_array self) (_original_vertex_array self)
     (_transformed_vertex_array self) (_translated_vertex_array self)
     (Some a) (_face_normals self)
     (_position self) (_rotation self) (_scale self) (material self)
     (visible self) (_scenes self) (_id self) (_next_memory_id self).

Definition with_face_normals (self : t) (n : list vec3) : t :=
  mk (_name self) (_face_array self) (_original_vertex_array self)
     (_transformed_vertex_array self) (_translated_vertex_array self)
     (_camera_perspective_vertex_array self) (Some n)
     (_position self) (_rotation self) (_scale self) (material self)
     (visible self) (_scenes self) (_id self) (_next_memory_id self).

(** The translated (world-space) buffer of a transformed buffer. *)
Definition translated_of (position : vec3) (transformed : list vec3)
    : list vec3 :=
  map (fun vertex =>
         mkvec (v0 vertex + v0 position) (v1 vertex + v1 position)
               (v2 vertex - v2 position))
      transformed.

(** The transformed buffer: scale, then rotate about x, y and z. *)
Definition transformed_of (scale rotation : vec3) (original : list vec3)
    : list vec3 :=
  let a := map (fun v => mkvec (v0 v * v0 scale) (v1 v * v1 scale)
                               (v2 v * v2 scale)) original in
  let a := _rotate_x (v0 rotation) a (mkvec 0 0 0) in
  let a := _rotate_y (v1 rotation) a (mkvec 0 0 0) in
  _rotate_z (v2 rotation) a (mkvec 0 0 0).

Definition _update_translated_vertices (self : t) : t :=
  with_buffers self (_transformed_vertex_array self)
    (translated_of (_position self) (_transformed_vertex_array self)).

Definition _update_transformed_vertices (self : t) : t :=
  _update_translated_vertices
    (with_buffers self
       (transformed_of (_scale self) (_rotation self)
          (_original_vertex_array self))
       (_translated_vertex_array self)).

Definition sum_by (f : vec3 -> R) (l : list vec3) : R :=
  fold_left (fun acc vertex => acc + f vertex) l 0.

Definition _center_vertex_array (vertex_array : list vec3)
    (new_centroid : vec3) (current_centroid : option vec3) : list vec3 :=
  let num_vertices := INR (List.length vertex_array) in
  match vertex_array with
  | [] => []
  | _ =>
      let current_centroid :=
        match current_centroid with
        | Some c => c
        | None => mkvec (sum_by v0 vertex_array / num_vertices)
                        (sum_by v1 vertex_array / num_vertices)
                        (sum_by v2 vertex_array / num_vertices)
        end in
      let dx := v0 new_centroid - v0 current_centroid in
      let dy := v1 new_centroid - v1 current_centroid in
      let dz := v2 new_centroid - v2 current_centroid in
      map (fun vertex =>
             mkvec (v0 vertex + dx) (v1 vertex + dy) (v2 vertex + dz))
          vertex_array
  end.

(** [scale]: a number or a list of three. *)
Inductive scale_arg : Type :=
| scale_number (s : R)
| scale_list (s : vec3).

(** [material=None] evaluates [Material()], which lacks the required
    [name] and raises [TypeError]. *)
Definition __init__ (C : cls) (name : string) (vertex_array : list vec3)
    (face_array : list (list Z)) (position rotation : option vec3)
    (scale : option scale_arg) (material : option Material.t)
    (visible : option bool) : result t * cls :=
  let position := match position with Some p => p | None => mkvec 0 0 0 end in
  let rotation := match rotation with Some r => r | None => mkvec 0 0 0 end in
  let scale := match scale with Some s => s | None => scale_list (mkvec 1 1 1) end in
  match material with
  | None => (Raise TypeError, C)
  | Some material =>
      let visible := match visible with Some b => b | None => true end in
      let vertex_array := _center_vertex_array vertex_array (mkvec 0 0 0) None in
      if any_named _name name (_global_memory C)
      then (raise_DuplicateNameError [], C)
      else
        let position := set2 position (0 - v2 position) in
        let scale := match scale with
                     | scale_number s => mkvec s s s
                     | scale_list s => s
                     end in
        let self :=
          mk name face_array vertex_array vertex_array vertex_array None None
             position rotation scale material visible []
             (cls_next_memory_id C) (cls_next_memory_id C + 1) in
        (* the memory holds a reference: it sees the final state of self *)
        let self := _update_transformed_vertices self in
        (Ok self, mkcls (_global_memory C ++ [self]) (cls_next_memory_id C))
  end.

(** ** Setters *)

Definition set_rotation (self : t) (x y z : option R) : t :=
  let r := _rotation self in
  let r := match x with
           | Some x => if truthy x then set0 r x else r
           | None => r end in
  let r := match y with
           | Some y => if truthy y then set1 r y else r
           | None => r end in
  let r := match z with
           | Some z => if truthy z then set2 r z else r
           | None => r end in
  _update_transformed_vertices (with_rotation self r).

Definition rotate (self : t) (x y z : option R) : t :=
  let r := _rotation self in
  let r := match x with
           | Some x => if truthy x then set0 r (v0 r + x) else r
           | None => r end in
  let r := match y with
           | Some y => if truthy y then set1 r (v1 r + y) else r
           | None => r end in
  let r := match z with
           | Some z => if truthy z then set2 r (v2 r + z) else r
           | None => r end in
  _update_transformed_vertices (with_rotation self r).

Definition translate (self : t) (x y z : option R) : t :=
  let p := _position self in
  let p := match x with
           | Some x => if truthy x then set0 p (v0 p + x) else p
           | None => p end in
  let p := match y with
           | Some y => if truthy y then set1 p (v1 p + y) else p
           | None => p end in
  let p := match z with
           | Some z => if truthy z then set2 p (v2 p + z) else p
           | None => p end in
  _update_transformed_vertices (with_position self p).

Definition set_position (self : t) (x y z : option R) : t :=
  let p := _position self in
  let p := match x with
           | Some x => if truthy x then set0 p x else p
           | None => p end in
  let p := match y with
           | Some y => if truthy y then set1 p y else p
           | None => p end in
  let p := match z with
           | Some z => if truthy z then set2 p z else p
           | None => p end in
  _update_transformed_vertices (with_position self p).

(** ** Scaling and replacing the mesh *)

Definition with_scale (self : t) (s : vec3) : t :=
  mk (_name self) (_face_array self) (_original_vertex_array self)
     (_transformed_vertex_array self) (_translated_vertex_array self)
     (_camera_perspective_vertex_array self) (_face_normals self)
     (_position self) (_rotation self) s (material self)
     (visible self) (_scenes self) (_id self) (_next_memory_id self).

(** [set_scale] called with the multipliers it uses ([_scale] is a list of
    numbers; a multiplier left at [None] is outside this type). *)
Definition set_scale (self : t) (x_axis_multiplier y_axis_multiplier
    z_axis_multiplier : R) (uniform : bool) : t :=
  let y_axis_multiplier := if uniform then x_axis_multiplier else y_axis_multiplier in
  let z_axis_multiplier := if uniform then x_axis_multiplier else z_axis_multiplier in
  _update_transformed_vertices
    (with_scale self
       (mkvec x_axis_multiplier y_axis_multiplier z_axis_multiplier)).

(** [scale]: the new list is built before it is stored, so a multiplier
    left at [None] raises [TypeError] (a number times [None]) and leaves the
    object as it was. *)
Definition scale (self : t) (x_axis_multiplier y_axis_multiplier
    z_axis_multiplier : option R) (uniform : bool) : result t :=
  let y_axis_multiplier := if uniform then x_axis_multiplier else y_axis_multiplier in
  let z_axis_multiplier := if uniform then x_axis_multiplier else z_axis_multiplier in
  match x_axis_multiplier, y_axis_multiplier, z_axis_multiplier with
  | Some x, Some y, Some z =>
      Ok (_update_transformed_vertices
            (with_scale self
               (mkvec (v0 (_scale self) * x) (v1 (_scale self) * y)
                      (v2 (_scale self) * z))))
  | _, _, _ => Raise TypeError
  end.

(** [if new_face_array:] is false for [None] and for an empty list. *)
Definition update_vertex_array (self : t) (new_vertex_array : list vec3)
    (new_face_array : option (list (list Z))) : t :=
  let face_array :=
    match new_face_array with
    | Some (face :: faces) => face :: faces
    | _ => _face_array self
    end in
  let new_vertex_array :=
    _center_vertex_array new_vertex_array (mkvec 0 0 0) None in
  _update_transformed_vertices
    (mk (_name self) face_array new_vertex_array new_vertex_array
        new_vertex_array None (_face_normals self) (_position self)
        (_rotation self) (_scale self) (material self) (visible self)
        (_scenes self) (_id self) (_next_memory_id self)).

(** ** Camera space *)

(** [for step in camera.rotation_order: ...] on a deep copy of the
    translated buffer: the inverse camera rotation about the camera
    position. *)
Definition camera_step (camera : Camera.t) (a : list vec3) (step : string)
    : list vec3 :=
  let camera_position := Camera._position camera in
  let camera_rotation := Camera._rotation camera in
  let a := if String.eqb step "x"
           then _rotate_x (- v0 camera_rotation) a camera_position else a in
  let a := if String.eqb step "y"
           then _rotate_y (- v1 camera_rotation) a camera_position else a in
  if String.eqb step "z"
  then _rotate_z (- v2 camera_rotation) a camera_position else a.

Definition camera_perspective (self : t) (camera : Camera.t) : list vec3 :=
  fold_left (camera_step camera) (Camera.rotation_order camera)
    (_translated_vertex_array self).

Definition distance (camera_position vertex : vec3) : R :=
  let dx := (v0 vertex - v0 camera_position) * (v0 vertex - v0 camera_position) in
  let dy := (v1 vertex - v1 camera_position) * (v1 vertex - v1 camera_position) in
  let dz := (v2 vertex - v2 camera_position) * (v2 vertex - v2 camera_position) in
  sqrt (dx + dy + dz).

(** Returns the distance and the object with its scratch buffer set;
    [distances[0]] raises [IndexError] on an object without vertices. *)
Definition get_distance_to_camera (self : t) (camera : Camera.t)
    : result (R * t) :=
  let self := with_camera_perspective self (camera_perspective self camera) in
  let distances :=
    map (distance (Camera._position camera)) (camera_perspective self camera) in
  let distances := py_sorted (fun d => d) false distances in
  d <- py_index distances 0 ;;
  Ok (d, self).

(** ** Rendering *)

Definition normalize_vector (vector : vec3) : vec3 :=
  let norm := sqrt (v0 vector * v0 vector + v1 vector * v1 vector
                    + v2 vector * v2 vector) in
  if Rltb norm (1 / 1000000) then mkvec 0 0 0
  else vmap (fun v => v / norm) vector.

(** [calculate_normal(face_vertices)]: reads elements 1, 0 and 2. *)
Definition calculate_normal (face_vertices : list vec3) : result vec3 :=
  f1 <- py_index face_vertices 1 ;;
  f0 <- py_index face_vertices 0 ;;
  f2 <- py_index face_vertices 2 ;;
  let u := vsub f1 f0 in
  let v := vsub f2 f0 in
  Ok (normalize_vector
        (mkvec (v1 u * v2 v - v2 u * v1 v)
               (v2 u * v0 v - v0 u * v2 v)
               (v0 u * v1 v - v1 u * v0 v))).

Definition precompute_normals (self : t) : result (list vec3) :=
  mapM (fun face =>
          face_vertices <-
            mapM (fun i => py_index (_translated_vertex_array self) (i - 1)) face ;;
          calculate_normal (firstn 3 face_vertices))
       (_face_array self).

(** The variables of [_render] that its local functions close over. *)
Record env : Type := mkenv {
  e_fov : R;
  e_aspect_ratio : R;
  e_camera_position : vec3;
  e_near_plane : R;
  e_far_plane : R;
  e_window_width : R;
  e_window_height : R;
  e_ambient_light : vec3
}.

Definition perspective_transform (E : env) (vert : vec3)
    : result (option (R * R)) :=
  let fov_rad := radians (e_fov E) in
  let half_width := tan (fov_rad / 2) in
  half_height <- py_div half_width (e_aspect_ratio E) ;;
  let x_offset := v0 vert - v0 (e_camera_position E) in
  let y_offset := v1 vert - v1 (e_camera_position E) in
  let z_offset := v2 vert - v2 (e_camera_position E) in
  if Rleb z_offset (e_near_plane E) then Ok None
  else if Rltb (e_far_plane E) z_offset then Ok None
  else
    x_proj <- py_div x_offset (z_offset * half_width) ;;
    y_proj <- py_div y_offset (z_offset * half_height) ;;
    let x_ndc := x_proj * 2 - 1 in
    let y_ndc := 1 - y_proj * 2 in
    let x_screen := (x_ndc + 1) / 2 * e_window_width E in
    let y_screen := (1 - y_ndc) / 2 * e_window_height E in
    Ok (Some (x_screen, y_screen)).

(** One iteration of [for light in lights] in [compute_lighting]. *)
Definition light_step (face_vertices : list vec3)
    (normalized_normal camera_position : vec3) (material : Material.t)
    (color : vec3) (light : Light.t) : result vec3 :=
  f0 <- py_index face_vertices 0 ;;
  let light_dir := vsub (Light.position light) f0 in
  let light_distance :=
    sqrt (0 + v0 light_dir * v0 light_dir + v1 light_dir * v1 light_dir
          + v2 light_dir * v2 light_dir) in
  let normalized_light_dir := normalize_vector light_dir in
  let dot_product := py_max (vdot normalized_normal normalized_light_dir) 0 in
  let diffuse_intensity := dot_product * Light.intensity light in
  let diffuse :=
    vzip (fun d c => d * diffuse_intensity * c / 255)
         (Material.diffuse_color material) (Light.color light) in
  let reflect_dir :=
    vzip (fun n l => 2 * n * dot_product - l)
         normalized_normal normalized_light_dir in
  let normalized_reflect_dir := normalize_vector reflect_dir in
  let view_dir := normalize_vector (vsub camera_position f0) in
  let spec_angle := py_max (vdot normalized_reflect_dir view_dir) 0 in
  p <- py_pow spec_angle (Material.specular_coefficient material) ;;
  spec_intensity <- py_div p (light_distance + 1) ;;
  let specular :=
    vzip (fun s c => s * spec_intensity * c / 255)
         (Material.specular_color material) (Light.color light) in
  Ok (mkvec (py_min 255 (v0 color + v0 diffuse + v0 specular))
            (py_min 255 (v1 color + v1 diffuse + v1 specular))
            (py_min 255 (v2 color + v2 diffuse + v2 specular))).

Fixpoint light_loop (face_vertices : list vec3)
    (normalized_normal camera_position : vec3) (material : Material.t)
    (color : vec3) (lights : list Light.t) : result vec3 :=
  match lights with
  | [] => Ok color
  | light :: lights' =>
      color' <- light_step face_vertices normalized_normal camera_position
                  material color light ;;
      light_loop face_vertices normalized_normal camera_position material
        color' lights'
  end.

Definition compute_lighting (E : env) (face_vertices : list vec3)
    (normal : vec3) (lights : list Light.t) (camera_position : vec3)
    (material : Material.t) : result vec3 :=
  let color :=
    vzip (fun a l => a * l / 255)
         (Material.ambient_color material) (e_ambient_light E) in
  let normalized_normal := normalize_vector normal in
  light_loop face_vertices normalized_normal camera_position material
    color lights.

(** [[v for v in projected if v is not None]]. *)
Fixpoint surviving (projected : list (option (R * R))) : list (R * R) :=
  match projected with
  | [] => []
  | Some v :: l => v :: surviving l
  | None :: l => surviving l
  end.

Definition gotos (vertices : list (R * R)) : list Turtle.cmd :=
  map (fun v => Turtle.goto (fst v) (snd v)) vertices.

Definition draw_filled_polygon (pointer : list Turtle.cmd)
    (vertices : list (R * R)) (color : vec3) : result (list Turtle.cmd) :=
  let color := [py_int (v0 color); py_int (v1 color); py_int (v2 color)] in
  first <- py_index vertices 0 ;;
  Ok (pointer
        ++ [Turtle.fillcolor color; Turtle.penup;
            Turtle.goto (fst first) (snd first); Turtle.begin_fill]
        ++ gotos (tl vertices)
        ++ [Turtle.goto (fst first) (snd first); Turtle.end_fill]).

(** The body of [for face in self._face_array] in [draw_wireframe]. *)
Definition wire_face (E : env) (vertex_array : list vec3)
    (pointer : list Turtle.cmd) (face : list Z) : result (list Turtle.cmd) :=
  projected <-
    mapM (fun vertex_index =>
            vert <- py_index vertex_array (vertex_index - 1) ;;
            perspective_transform E vert) face ;;
  let projected_face := surviving projected in
  if (List.length projected_face <? 3)%nat then Ok pointer
  else
    first <- py_index projected_face 0 ;;
    Ok (pointer
          ++ [Turtle.penup; Turtle.goto (fst first) (snd first); Turtle.pendown]
          ++ gotos (tl projected_face)
          ++ [Turtle.goto (fst first) (snd first)]).

(** A [for] loop whose body updates the pointer and can raise (what an
    interrupted loop had drawn is lost with the exception). *)
Fixpoint for_each {A : Type}
    (body : list Turtle.cmd -> A -> result (list Turtle.cmd))
    (pointer : list Turtle.cmd) (l : list A) : result (list Turtle.cmd) :=
  match l with
  | [] => Ok pointer
  | a :: l' => pointer' <- body pointer a ;; for_each body pointer' l'
  end.

Definition draw_wireframe (self : t) (E : env) (vertex_array : list vec3)
    (pointer : list Turtle.cmd) : result (list Turtle.cmd) :=
  let pointer :=
    pointer ++ [Turtle.pensize 1;
                Turtle.color (Material.ambient_color (material self))] in
  for_each (wire_face E vertex_array) pointer (_face_array self).

(** [enumerate]. *)
Fixpoint enumerate_from {A : Type} (n : nat) (l : list A) : list (nat * A) :=
  match l with
  | [] => []
  | a :: l' => (n, a) :: enumerate_from (S n) l'
  end.

(** [numpy.mean] of a non-empty list. *)
Definition mean (l : list R) : R :=
  fold_left Rplus l 0 / INR (List.length l).

(** The sort key of [draw_faces]. *)
Definition face_key (E : env) (vertex_array : list vec3)
    (item : nat * list Z) : result R :=
  depths <-
    mapM (fun i => vert <- py_index vertex_array (i - 1) ;;
                   Ok (v2 vert + v2 (e_camera_position E)))
         (snd item) ;;
  Ok (- mean depths).

(** The body of [for index, face in sorted_faces] in [draw_faces]. *)
Definition fill_face (self : t) (E : env) (vertex_array : list vec3)
    (face_normals : list vec3) (lights : list Light.t)
    (pointer : list Turtle.cmd) (item : nat * list Z)
    : result (list Turtle.cmd) :=
  let (index, face) := item in
  face_vertices <- mapM (fun i => py_index vertex_array (i - 1)) face ;;
  projected <- mapM (perspective_transform E) face_vertices ;;
  let projected_vertices := surviving projected in
  if (List.length projected_vertices <? 3)%nat then Ok pointer
  else
    normal <- py_index face_normals (Z.of_nat index) ;;
    color <- compute_lighting E face_vertices normal lights
               (e_camera_position E) (material self) ;;
    draw_filled_polygon pointer projected_vertices color.

(** Returns the object (with [_face_normals] set) and the pointer. *)
Definition draw_faces (self : t) (E : env) (vertex_array : list vec3)
    (lights : list Light.t) (pointer : list Turtle.cmd)
    : result (t * list Turtle.cmd) :=
  face_normals <- precompute_normals self ;;
  let self := with_face_normals self face_normals in
  keyed <-
    mapM (fun item => k <- face_key E vertex_array item ;; Ok (k, item))
         (enumerate_from 0 (_face_array self)) ;;
  let sorted_faces := map snd (py_sorted fst false keyed) in
  pointer' <-
    for_each (fill_face self E vertex_array face_normals lights)
      pointer sorted_faces ;;
  Ok (self, pointer').

Definition _render (self : t) (W : Turtle.window)
    (pointer : list Turtle.cmd) (camera : Camera.t) (ambient_light : vec3)
    (lights : list Light.t) (mode : string) : result (t * list Turtle.cmd) :=
  if negb (visible self) then Ok (self, pointer)
  else
    aspect_ratio <-
      py_div (Turtle.window_width W) (Turtle.window_height W) ;;
    let E :=
      mkenv (Camera.fov camera) aspect_ratio (Camera._position camera)
            (Camera.near_plane camera) (Camera.far_plane camera)
            (Turtle.window_width W) (Turtle.window_height W)
            ambient_light in
    let self := with_camera_perspective self (camera_perspective self camera) in
    let vertex_array := camera_perspective self camera in
    if String.eqb mode "wire" then
      pointer' <- draw_wireframe self E vertex_array pointer ;;
      Ok (self, pointer')
    else if String.eqb mode "face" then
      draw_faces self E vertex_array lights pointer
    else Raise (Turtle3DError "Invalid rendering mode. Choose from 'wire', 'face'.").
End Object.

(* ================================================================== *)
(** * Scene *)

(** [AlreadyInSceneError.__init__(self, object_name, message=...)] also has
    a required parameter, and is also raised without it. *)
Definition raise_AlreadyInSceneError {A : Type} (args : list string) : result A :=
  match args with
  | [] => Raise TypeError
  | object_name :: _ => Raise (AlreadyInSceneError object_name)
  end.

Module Scene.
(** The memories hold references; here they hold the objects, lights and
    camera themselves. *)
Record t : Type := mk {
  ambient_light : vec3;
  _name : string;
  _object_memory : list Object.t;
  _light_memory : list Light.t;
  _active_camera : option Camera.t;
  _id : Z;
  _next_memory_id : Z
}.

Record cls : Type := mkcls {
  _global_scene_memory : list t;
  cls_next_memory_id : Z
}.

Definition initial : cls := mkcls [] 1.

Definition __init__ (C : cls) (name : string) (ambient_light : option vec3)
    : result t * cls :=
  if any_named _name name (_global_scene_memory C)
  then (raise_DuplicateNameError [], C)
  else
    let ambient_light :=
      match ambient_light with Some a => a | None => mkvec 25 25 25 end in
    let self := mk ambient_light name [] [] None
                   (cls_next_memory_id C) (cls_next_memory_id C + 1) in
    (Ok self, mkcls (_global_scene_memory C ++ [self]) (cls_next_memory_id C)).

Definition add_object (self : t) (object : Object.t) : result t :=
  if any_named Object._name (Object._name object) (_object_memory self)
  then raise_AlreadyInSceneError []
  else Ok (mk (ambient_light self) (_name self)
              (_object_memory self ++ [object]) (_light_memory self)
              (_active_camera self) (_id self) (_next_memory_id self)).

Definition add_light (self : t) (light : Light.t) : result t :=
  if any_named Light._name (Light._name light) (_light_memory self)
  then raise_AlreadyInSceneError []
  else Ok (mk (ambient_light self) (_name self)
              (_object_memory self) (_light_memory self ++ [light])
              (_active_camera self) (_id self) (_next_memory_id self)).

Definition set_active_camera (self : t) (camera : Camera.t) : t :=
  mk (ambient_light self) (_name self) (_object_memory self)
     (_light_memory self) (Some camera) (_id self) (_next_memory_id self).

(** [[(obj, obj.get_distance_to_camera(camera)) for obj in memory]]. *)
Definition measure (camera : Camera.t) (memory : list Object.t)
    : result (list (Object.t * R)) :=
  mapM (fun obj =>
          r <- Object.get_distance_to_camera obj camera ;;
          Ok (snd r, fst r))
       memory.

(** [for obj, distance in distances: obj._render(...)]: the objects in
    the order in which they were processed, and the pointer. *)
Fixpoint render_loop (W : Turtle.window) (camera : Camera.t)
    (ambient_light : vec3) (lights : list Light.t) (mode : string)
    (pointer : list Turtle.cmd) (distances : list (Object.t * R))
    : result (list Object.t * list Turtle.cmd) :=
  match distances with
  | [] => Ok ([], pointer)
  | (obj, _) :: rest =>
      r <- Object._render obj W pointer camera ambient_light lights mode ;;
      r' <- render_loop W camera ambient_light lights mode (snd r) rest ;;
      Ok (fst r :: fst r', snd r')
  end.

(** [pointer.clear()] empties the drawing.  The background colour and
    [screen.update()] belong to the window and are left out; the objects
    returned are those of the memory after their render, in the order in
    which the loop processed them. *)
Definition render_scene (self : t) (W : Turtle.window) (mode : string)
    : result (list Object.t * list Turtle.cmd) :=
  match _active_camera self with
  | None => Raise (NoActiveCamera (_name self))
  | Some camera =>
      distances <- measure camera (_object_memory self) ;;
      let distances := py_sorted snd true distances in
      let pointer := [] in
      render_loop W camera (ambient_light self) (_light_memory self) mode
        pointer distances
  end.
End Scene.


(* ================================================================== *)
(** * Scene membership, on references

    The membership methods work on references: one object can be in
    several scenes, [list.remove] finds it by identity, and a scene's
    memory and an object's [_scenes] list point at each other.  In this
    module objects, lights, cameras and scenes are addresses, and every
    attribute that the membership code reads or writes is a table from
    addresses to values. *)

Module Membership.
Definition ref : Type := nat.

Record heap : Type := mkheap {
  object_name : ref -> string;
  object_id : ref -> Z;
  object_scenes : ref -> list ref;
  light_name : ref -> string;
  light_id : ref -> Z;
  light_scenes : ref -> list ref;
  scene_name : ref -> string;
  scene_object_memory : ref -> list ref;
  scene_light_memory : ref -> list ref;
  scene_active_camera : ref -> option ref
}.

(** The table [table] with the entry of [r] set to [v]. *)
Definition upd {V : Type} (table : ref -> V) (r : ref) (v : V) : ref -> V :=
  fun r' => if Nat.eqb r' r then v else table r'.

Definition set_object_scenes (h : heap) (object : ref) (v : list ref) : heap :=
  mkheap (object_name h) (object_id h) (upd (object_scenes h) object v)
         (light_name h) (light_id h) (light_scenes h) (scene_name h)
         (scene_object_memory h) (scene_light_memory h) (scene_active_camera h).

Definition set_light_scenes (h : heap) (light : ref) (v : list ref) : heap :=
  mkheap (object_name h) (object_id h) (object_scenes h)
         (light_name h) (light_id h) (upd (light_scenes h) light v)
         (scene_name h)
         (scene_object_memory h) (scene_light_memory h) (scene_active_camera h).

Definition set_scene_object_memory (h : heap) (scene : ref) (v : list ref)
    : heap :=
  mkheap (object_name h) (object_id h) (object_scenes h)
         (light_name h) (light_id h) (light_scenes h) (scene_name h)
         (upd (scene_object_memory h) scene v) (scene_light_memory h)
         (scene_active_camera h).

Definition set_scene_light_memory (h : heap) (scene : ref) (v : list ref)
    : heap :=
  mkheap (object_name h) (object_id h) (object_scenes h)
         (light_name h) (light_id h) (light_scenes h) (scene_name h)
         (scene_object_memory h) (upd (scene_light_memory h) scene v)
         (scene_active_camera h).

Definition set_scene_active_camera (h : heap) (scene : ref) (v : option ref)
    : heap :=
  mkheap (object_name h) (object_id h) (object_scenes h)
         (light_name h) (light_id h) (light_scenes h) (scene_name h)
         (scene_object_memory h) (scene_light_memory h)
         (upd (scene_active_camera h) scene v).

(** [l.remove(x)]: the first element that is [x] goes; [ValueError] when
    there is none. *)
Fixpoint list_remove (x : ref) (l : list ref) : result (list ref) :=
  match l with
  | [] => Raise ValueError
  | y :: l' =>
      if Nat.eqb y x then Ok l'
      else l'' <- list_remove x l' ;; Ok (y :: l'')
  end.

Module Scene.
Definition add_object (h : heap) (self object : ref) : result unit * heap :=
  if existsb (fun obj => String.eqb (object_name h obj) (object_name h object))
       (scene_object_memory h self)
  then (raise_AlreadyInSceneError [], h)
  else
    let h := set_scene_object_memory h self
               (scene_object_memory h self ++ [object]) in
    (Ok tt, set_object_scenes h object (object_scenes h object ++ [self])).

(** Both removals are inside the [try]: a [ValueError] from either one
    becomes [IDNotFoundError], and the first removal stays done when the
    second one fails. *)
Definition remove_object (h : heap) (self object : ref) : result unit * heap :=
  match list_remove object (scene_object_memory h self) with
  | Raise _ => (Raise (IDNotFoundError (object_id h object)), h)
  | Ok memory =>
      let h := set_scene_object_memory h self memory in
      match list_remove self (object_scenes h object) with
      | Raise _ => (Raise (IDNotFoundError (object_id h object)), h)
      | Ok scenes => (Ok tt, set_object_scenes h object scenes)
      end
  end.

Definition get_object_from_memory (h : heap) (self : ref) (object_id' : Z)
    : result ref :=
  match find (fun obj => Z.eqb (object_id h obj) object_id')
             (scene_object_memory h self) with
  | Some obj => Ok obj
  | None => Raise (IDNotFoundError object_id')
  end.

Definition add_light (h : heap) (self light : ref) : result unit * heap :=
  if existsb (fun obj => String.eqb (light_name h obj) (light_name h light))
       (scene_light_memory h self)
  then (raise_AlreadyInSceneError [], h)
  else
    let h := set_scene_light_memory h self
               (scene_light_memory h self ++ [light]) in
    (Ok tt, set_light_scenes h light (light_scenes h light ++ [self])).

Definition remove_light (h : heap) (self light : ref) : result unit * heap :=
  match list_remove light (scene_light_memory h self) with
  | Raise _ => (Raise (IDNotFoundError (light_id h light)), h)
  | Ok memory =>
      let h := set_scene_light_memory h self memory in
      match list_remove self (light_scenes h light) with
      | Raise _ => (Raise (IDNotFoundError (light_id h light)), h)
      | Ok scenes => (Ok tt, set_light_scenes h light scenes)
      end
  end.

Definition get_light_from_memory (h : heap) (self : ref) (light_id' : Z)
    : result ref :=
  match find (fun obj => Z.eqb (light_id h obj) light_id')
             (scene_light_memory h self) with
  | Some obj => Ok obj
  | None => Raise (IDNotFoundError light_id')
  end.

Definition set_active_camera (h : heap) (self camera : ref) : heap :=
  set_scene_active_camera h self (Some camera).

Definition remove_active_camera (h : heap) (self : ref) : heap :=
  set_scene_active_camera h self None.
End Scene.

Module Object.
Definition add_to_scene (h : heap) (self scene : ref) : result unit * heap :=
  Scene.add_object h scene self.

(** [except ValueError] catches nothing that [remove_object] lets out. *)
Definition remove_from_scene (h : heap) (self scene : ref)
    : result unit * heap :=
  match Scene.remove_object h scene self with
  | (Raise ValueError, h') => (Raise (IDNotFoundError (object_id h' self)), h')
  | outcome => outcome
  end.
End Object.

Module Light.
Definition add_to_scene (h : heap) (self scene : ref) : result unit * heap :=
  Scene.add_light h scene self.

Definition remove_from_scene (h : heap) (self scene : ref)
    : result unit * heap :=
  match Scene.remove_light h scene self with
  | (Raise ValueError, h') => (Raise (IDNotFoundError (light_id h' self)), h')
  | outcome => outcome
  end.
End Light.

Module Camera.
Definition add_to_scene (h : heap) (self scene : ref) : heap :=
  Scene.set_active_camera h scene self.

(** [scene._active_camera == self] compares references. *)
Definition remove_from_scene (h : heap) (self scene : ref)
    : result unit * heap :=
  if match scene_active_camera h scene with
     | Some camera => Nat.eqb camera self
     | None => false
     end
  then (Ok tt, Scene.remove_active_camera h scene)
  else (Raise (NoScenePermission (scene_name h scene) "_active_camera"), h).
End Camera.
End Membership.

(* ================================================================== *)
(** * Vocabulary of the statements *)

(** What identifies an object across a render, which only rewrites its
    scratch buffers: its name, its id and its world-space vertices. *)
Definition identity (obj : Object.t) : string * Z * list vec3 :=
  (Object._name obj, Object._id obj, Object._translated_vertex_array obj).

(** [d] is the distance from the camera position to a nearest vertex of
    the camera-space buffer of [obj]. *)
Definition nearest_vertex_distance (camera : Camera.t) (obj : Object.t)
    (d : R) : Prop :=
  In d (map (Object.distance (Camera._position camera))
            (Object.camera_perspective obj camera))
  /\ forall vertex, In vertex (Object.camera_perspective obj camera) ->
       d <= Object.distance (Camera._position camera) vertex.

(** [v] respects the clamp [c]: it lies between its bounds, if there is
    one. *)
Definition in_clamp (c : Camera.clamp) (v : R) : Prop :=
  match c with
  | Some (lo, hi) => lo <= v <= hi
  | None => True
  end.

(** The centroid of a non-empty vertex list: the mean of each coordinate. *)
Definition centroid (vertex_array : list vec3) : vec3 :=
  let n := INR (List.length vertex_array) in
  mkvec (Object.sum_by v0 vertex_array / n) (Object.sum_by v1 vertex_array / n)
        (Object.sum_by v2 vertex_array / n).

(** The coordinates of the vertices sum to zero: the centroid of the list,
    if it has one, is the origin. *)
Definition zero_sum (vertex_array : list vec3) : Prop :=
  Object.sum_by v0 vertex_array = 0 /\ Object.sum_by v1 vertex_array = 0
  /\ Object.sum_by v2 vertex_array = 0.

(** Every component is at least 0: a colour without negative channels. *)
Definition nonneg (c : vec3) : Prop := 0 <= v0 c /\ 0 <= v1 c /\ 0 <= v2 c.

(** Every component is between 0 and 255. *)
Definition rgb (c : vec3) : Prop :=
  0 <= v0 c <= 255 /\ 0 <= v1 c <= 255 /\ 0 <= v2 c <= 255.

(** The object memories of the scenes and the [_scenes] lists of the
    objects agree and hold nothing twice: an object is in the memory of a
    scene exactly when the scene is in the list of the object. *)
Definition linked (h : Membership.heap) : Prop :=
  (forall scene, NoDup (Membership.scene_object_memory h scene))
  /\ (forall object, NoDup (Membership.object_scenes h object))
  /\ (forall scene object,
        In object (Membership.scene_object_memory h scene)
        <-> In scene (Membership.object_scenes h object)).

(** Two heaps hold the same memories, back-reference lists and active
    cameras at every address. *)
Definition same_membership (h h' : Membership.heap) : Prop :=
  (forall r, Membership.scene_object_memory h' r = Membership.scene_object_memory h r)
  /\ (forall r, Membership.object_scenes h' r = Membership.object_scenes h r)
  /\ (forall r, Membership.scene_light_memory h' r = Membership.scene_light_memory h r)
  /\ (forall r, Membership.light_scenes h' r = Membership.light_scenes h r)
  /\ (forall r, Membership.scene_active_camera h' r
                = Membership.scene_active_camera h r).

(** The cross product [u x v]. *)
Definition cross (u v : vec3) : vec3 :=
  mkvec (v1 u * v2 v - v2 u * v1 v)
        (v2 u * v0 v - v0 u * v2 v)
        (v0 u * v1 v - v1 u * v0 v).

(** [n] is the flat normal of [face] taken in [buffer]: the normalised
    cross product of the two edges that leave the first of the face's first
    three vertices, the 1-based indices of [face] being read in [buffer]. *)
Definition normal_of_first_three (buffer : list vec3) (face : list Z)
    (n : vec3) : Prop :=
  exists a b c rest,
    mapM (fun i => py_index buffer (i - 1)) face = Ok (a :: b :: c :: rest)
    /\ n = Object.normalize_vector (cross (vsub b a) (vsub c a)).

(** The face [face], number [index] of its object, draws nothing: in
    wireframe mode and in face mode its loop body hands the pointer back as
    it received it, so the face can be taken out of either loop without
    changing the outcome. *)
Definition face_is_skipped (self : Object.t) (E : Object.env)
    (vertex_array face_normals : list vec3) (lights : list Light.t)
    (index : nat) (face : list Z) : Prop :=
  (forall pointer, Object.wire_face E vertex_array pointer face = Ok pointer)
  /\ (forall pointer,
        Object.fill_face self E vertex_array face_normals lights pointer
          (index, face) = Ok pointer)
  /\ (forall before after pointer,
        Object.for_each (Object.wire_face E vertex_array) pointer
          (before ++ face :: after)
        = Object.for_each (Object.wire_face E vertex_array) pointer
            (before ++ after))
  /\ (forall before after pointer,
        Object.for_each
          (Object.fill_face self E vertex_array face_normals lights) pointer
          (before ++ (index, face) :: after)
        = Object.for_each
            (Object.fill_face self E vertex_array face_normals lights) pointer
            (before ++ after)).

(* ================================================================== *)
(** * Sample data

    Concrete entities on which the statements below are instantiated. *)

(** [Camera("cam")] in a fresh process. *)
Definition sample_camera : Camera.t :=
  Camera.mk "cam" (mkvec 0 0 0) (mkvec 0 0 0) 60 (1 / 10) 1000
    ["y"; "x"; "z"]%string None None None 1 2.


Definition sample_material : Material.t :=
  Material.mk "matte" (mkvec 255 255 255) (mkvec 200 100 50) (mkvec 0 0 0) 10.

(** A camera-space triangle in the plane [z = 5]. *)
Definition sample_triangle : list vec3 :=
  [mkvec 0 0 5; mkvec 1 0 5; mkvec 0 1 5].

(** [Object("tri", [[0,0,5],[1,0,5],[0,1,5]], [[1,2,3]], position=[1,2,-3],
    rotation=[10,20,30], material=sample_material)]: the vertices centred
    on their centroid, the position with its z negated, and the buffers as
    [_update_transformed_vertices] computes them. *)
Definition sample_object : Object.t :=
  Object._update_transformed_vertices
    (Object.mk "tri" [[1; 2; 3]%Z]
       [mkvec (-1 / 3) (-1 / 3) 0; mkvec (2 / 3) (-1 / 3) 0;
        mkvec (-1 / 3) (2 / 3) 0]
       [mkvec (-1 / 3) (-1 / 3) 0; mkvec (2 / 3) (-1 / 3) 0;
        mkvec (-1 / 3) (2 / 3) 0]
       [mkvec (-1 / 3) (-1 / 3) 0; mkvec (2 / 3) (-1 / 3) 0;
        mkvec (-1 / 3) (2 / 3) 0]
       None None (mkvec 1 2 3) (mkvec 10 20 30) (mkvec 1 1 1) sample_material
       true [] 1 2).

(** The closure of a render through a camera at the origin with a field of
    view of 90 degrees, on an 800 x 600 window. *)
Definition sample_env : Object.env :=
  Object.mkenv 90 (800 / 600) (mkvec 0 0 0) (1 / 10) 1000 800 600 (mkvec 0 0 0).

(** A light one unit in front of the first vertex of [sample_triangle]. *)
Definition sample_light : Light.t :=
  Light.mk "L1" (mkvec 0 0 4) (mkvec 255 128 64) (1 / 2) [] 1 2.

(** A camera-space triangle with two vertices in view and one beyond the
    far plane of [sample_env]. *)
Definition sample_clipped_triangle : list vec3 :=
  [mkvec 0 0 5; mkvec 1 0 5; mkvec 0 1 2000].

(** The camera of the demo: [Camera("Main Camera", x_clamp=[-89, 89],
    fov=90, position=[37.5, 0, -100])]. *)
Definition sample_camera_demo : Camera.t :=
  Camera.mk "Main Camera" (mkvec (75 / 2) 0 (-100)) (mkvec 0 0 0) 90 (1 / 10)
    1000 ["y"; "x"; "z"]%string (Some (-89, 89)) None None 1 2.

(** Three triangles whose vertices are all at distance 5, 10 and 15 from
    the origin: the buffers of [Object(name, ..., position=[0, k, 4k])] for
    [k = 1, 2, 3]. *)
Definition sample_near : Object.t :=
  Object.mk "near" [[1; 2; 3]%Z]
    [mkvec 3 (-1) 0; mkvec 0 2 0; mkvec (-3) (-1) 0]
    [mkvec 3 (-1) 0; mkvec 0 2 0; mkvec (-3) (-1) 0]
    [mkvec 3 0 4; mkvec 0 3 4; mkvec (-3) 0 4]
    None None (mkvec 0 1 (-4)) (mkvec 0 0 0) (mkvec 1 1 1) sample_material
    true ["S"%string] 1 2.

Definition sample_mid : Object.t :=
  Object.mk "mid" [[1; 2; 3]%Z]
    [mkvec 6 (-2) 0; mkvec 0 4 0; mkvec (-6) (-2) 0]
    [mkvec 6 (-2) 0; mkvec 0 4 0; mkvec (-6) (-2) 0]
    [mkvec 6 0 8; mkvec 0 6 8; mkvec (-6) 0 8]
    None None (mkvec 0 2 (-8)) (mkvec 0 0 0) (mkvec 1 1 1) sample_material
    true ["S"%string] 1 2.

Definition sample_far : Object.t :=
  Object.mk "far" [[1; 2; 3]%Z]
    [mkvec 9 (-3) 0; mkvec 0 6 0; mkvec (-9) (-3) 0]
    [mkvec 9 (-3) 0; mkvec 0 6 0; mkvec (-9) (-3) 0]
    [mkvec 9 0 12; mkvec 0 9 12; mkvec (-9) 0 12]
    None None (mkvec 0 3 (-12)) (mkvec 0 0 0) (mkvec 1 1 1) sample_material
    true ["S"%string] 1 2.

(** The scene holds them in the order mid, far, near. *)
Definition sample_scene : Scene.t :=
  Scene.mk (mkvec 25 25 25) "S" [sample_mid; sample_far; sample_near]
    [sample_light] (Some sample_camera) 1 2.

(** [sample_near] made invisible, alone in a scene. *)
Definition sample_hidden : Object.t :=
  Object.mk "hidden" [[1; 2; 3]%Z]
    [mkvec 3 (-1) 0; mkvec 0 2 0; mkvec (-3) (-1) 0]
    [mkvec 3 (-1) 0; mkvec 0 2 0; mkvec (-3) (-1) 0]
    [mkvec 3 0 4; mkvec 0 3 4; mkvec (-3) 0 4]
    None None (mkvec 0 1 (-4)) (mkvec 0 0 0) (mkvec 1 1 1) sample_material
    false ["H"%string] 1 2.

Definition sample_scene_hidden : Scene.t :=
  Scene.mk (mkvec 25 25 25) "H" [sample_hidden] [] (Some sample_camera) 1 2.

(** A heap with two objects, "cube" at address 0 and "teapot" at address
    1, and no membership yet. *)
Definition sample_heap : Membership.heap :=
  Membership.mkheap
    (fun r => if Nat.eqb r 0 then "cube" else "teapot")%string (fun _ => 1%Z)
    (fun _ => []) (fun _ => "L1"%string) (fun _ => 1%Z) (fun _ => [])
    (fun _ => "S"%string) (fun _ => []) (fun _ => []) (fun _ => None).

(** A triangle slanted with respect to the view axis (its normal is
    [(-4/5, 0, 3/5)]), as [Object("slanted", ..., position=[1, 1/3, 19/3])]
    holds it. *)
Definition sample_slanted : Object.t :=
  Object.mk "slanted" [[1; 2; 3]%Z]
    [mkvec (-1) (-1 / 3) (-4 / 3); mkvec 2 (-1 / 3) (8 / 3);
     mkvec (-1) (2 / 3) (-4 / 3)]
    [mkvec (-1) (-1 / 3) (-4 / 3); mkvec 2 (-1 / 3) (8 / 3);
     mkvec (-1) (2 / 3) (-4 / 3)]
    [mkvec 0 0 5; mkvec 3 0 9; mkvec 0 1 5]
    None None (mkvec 1 (1 / 3) (-19 / 3)) (mkvec 0 0 0) (mkvec 1 1 1)
    sample_material true [] 1 2.

(** [Camera("cam", rotation=[0, 0, -90], fov=90)]: rolled a quarter turn. *)
Definition sample_camera_rolled : Camera.t :=
  Camera.mk "cam" (mkvec 0 0 0) (mkvec 0 0 (-90)) 90 (1 / 10) 1000
    ["y"; "x"; "z"]%string None None None 1 2.

Definition sample_window : Turtle.window := Turtle.mkwindow 800 600.

(** [Camera("wide", fov=90)]: at the origin, not rotated. *)
Definition sample_camera_wide : Camera.t :=
  Camera.mk "wide" (mkvec 0 0 0) (mkvec 0 0 0) 90 (1 / 10) 1000
    ["y"; "x"; "z"]%string None None None 1 2.

Definition sample_red : Material.t :=
  Material.mk "red" (mkvec 255 0 0) (mkvec 200 100 50) (mkvec 0 0 0) 10.

Definition sample_green : Material.t :=
  Material.mk "green" (mkvec 0 255 0) (mkvec 200 100 50) (mkvec 0 0 0) 10.

Definition sample_blue : Material.t :=
  Material.mk "blue" (mkvec 0 0 255) (mkvec 200 100 50) (mkvec 0 0 0) 10.

(** Three triangles whose vertices are all at distance 5, 10 and 15 from
    the origin, the nearest one blue, the middle one green and the farthest
    one red. *)
Definition sample_near_blue : Object.t :=
  Object.mk "near" [[1; 2; 3]%Z]
    [mkvec 3 (-1) 0; mkvec 0 2 0; mkvec (-3) (-1) 0]
    [mkvec 3 (-1) 0; mkvec 0 2 0; mkvec (-3) (-1) 0]
    [mkvec 3 0 4; mkvec 0 3 4; mkvec (-3) 0 4]
    None None (mkvec 0 1 (-4)) (mkvec 0 0 0) (mkvec 1 1 1) sample_blue
    true ["W"%string] 1 2.

Definition sample_mid_green : Object.t :=
  Object.mk "mid" [[1; 2; 3]%Z]
    [mkvec 6 (-2) 0; mkvec 0 4 0; mkvec (-6) (-2) 0]
    [mkvec 6 (-2) 0; mkvec 0 4 0; mkvec (-6) (-2) 0]
    [mkvec 6 0 8; mkvec 0 6 8; mkvec (-6) 0 8]
    None None (mkvec 0 2 (-8)) (mkvec 0 0 0) (mkvec 1 1 1) sample_green
    true ["W"%string] 1 2.

Definition sample_far_red : Object.t :=
  Object.mk "far" [[1; 2; 3]%Z]
    [mkvec 9 (-3) 0; mkvec 0 6 0; mkvec (-9) (-3) 0]
    [mkvec 9 (-3) 0; mkvec 0 6 0; mkvec (-9) (-3) 0]
    [mkvec 9 0 12; mkvec 0 9 12; mkvec (-9) 0 12]
    None None (mkvec 0 3 (-12)) (mkvec 0 0 0) (mkvec 1 1 1) sample_red
    true ["W"%string] 1 2.

(** The scene holds them in the order mid, far, near, and is seen through
    [sample_camera_wide]. *)
Definition sample_scene_colored : Scene.t :=
  Scene.mk (mkvec 25 25 25) "W" [sample_mid_green; sample_far_red; sample_near_blue]
    [sample_light] (Some sample_camera_wide) 1 2.

(** An object of two triangles that face the camera, the one listed first
    at depth 5 and the one listed second behind it at depth 9. *)
Definition sample_two_faces : Object.t :=
  Object.mk "two" [[1; 2; 3]%Z; [4; 5; 6]%Z]
    [mkvec (-1 / 3) (-1 / 3) (-2); mkvec (2 / 3) (-1 / 3) (-2);
     mkvec (-1 / 3) (2 / 3) (-2); mkvec (-1 / 3) (-1 / 3) 2;
     mkvec (2 / 3) (-1 / 3) 2; mkvec (-1 / 3) (2 / 3) 2]
    [mkvec (-1 / 3) (-1 / 3) (-2); mkvec (2 / 3) (-1 / 3) (-2);
     mkvec (-1 / 3) (2 / 3) (-2); mkvec (-1 / 3) (-1 / 3) 2;
     mkvec (2 / 3) (-1 / 3) 2; mkvec (-1 / 3) (2 / 3) 2]
    [mkvec 0 0 5; mkvec 1 0 5; mkvec 0 1 5;
     mkvec 0 0 9; mkvec 1 0 9; mkvec 0 1 9]
    None None (mkvec (1 / 3) (1 / 3) (-7)) (mkvec 0 0 0) (mkvec 1 1 1)
    sample_material true [] 1 2.

(** The closure of a render through [sample_camera_wide] onto
    [sample_window] in a scene of ambient light [(25, 25, 25)]. *)
Definition sample_env_wide : Object.env :=
  Object.mkenv 90 (800 / 600) (mkvec 0 0 0) (1 / 10) 1000 800 600
    (mkvec 25 25 25).
(* ================================================================== *)
(** * Basic facts about the Python primitives *)


Lemma truthy_nonzero (x : R) : x <> 0 -> truthy x = true.
Proof. intro H. unfold truthy. destruct (Req_dec_T x 0); [contradiction | reflexivity]. Qed.


Lemma Rltb_lt (a b : R) : a < b -> Rltb a b = true.
Proof. intro H. unfold Rltb. destruct (Rlt_dec a b); [reflexivity | contradiction]. Qed.

Lemma Rltb_ge (a b : R) : b <= a -> Rltb a b = false.
Proof. intro H. unfold Rltb. destruct (Rlt_dec a b); [lra | reflexivity]. Qed.

Lemma Rleb_le (a b : R) : a <= b -> Rleb a b = true.
Proof. intro H. unfold Rleb. destruct (Rle_dec a b); [reflexivity | contradiction]. Qed.

Lemma Rleb_gt (a b : R) : b < a -> Rleb a b = false.
Proof. intro H. unfold Rleb. destruct (Rle_dec a b); [lra | reflexivity]. Qed.

Lemma Rltb_true_iff (a b : R) : Rltb a b = true <-> a < b.
Proof.
  split; [| apply Rltb_lt].
  unfold Rltb. destruct (Rlt_dec a b); [auto | discriminate].
Qed.

Lemma Rleb_true_iff (a b : R) : Rleb a b = true <-> a <= b.
Proof.
  split; [| apply Rleb_le].
  unfold Rleb. destruct (Rle_dec a b); [auto | discriminate].
Qed.

Lemma py_div_nonzero (a b : R) : b <> 0 -> py_div a b = Ok (a / b).
Proof. intro H. unfold py_div. destruct (Req_dec_T b 0); [contradiction | reflexivity]. Qed.

Lemma py_div_zero (a : R) : py_div a 0 = Raise ZeroDivisionError.
Proof. unfold py_div. destruct (Req_dec_T 0 0); [reflexivity | contradiction]. Qed.

(** Indexing as Python does it: [l[-1]] is the last element, and an index
    out of range raises.  Face indices are 1-based, so a face index [0]
    reads the last vertex. *)
Example py_index_last : py_index [10; 20; 30]%Z (-1) = Ok 30%Z.
Proof. reflexivity. Qed.

Example py_index_face_zero : py_index [10; 20; 30]%Z (0 - 1) = Ok 30%Z.
Proof. reflexivity. Qed.

Example py_index_out_of_range :
  py_index [10; 20; 30]%Z 3 = Raise IndexError
  /\ py_index [10; 20; 30]%Z (-4) = Raise IndexError.
Proof. split; reflexivity. Qed.

(** The exception classes called without their required argument. *)
Example raise_DuplicateNameError_no_argument :
  @raise_DuplicateNameError unit [] = Raise TypeError
  /\ @raise_DuplicateNameError unit ["L1"%string] = Raise (DuplicateNameError "L1").
Proof. split; reflexivity. Qed.

Lemma radians_opp (a : R) : radians (- a) = - radians a.
Proof. unfold radians. ring. Qed.

Lemma sin_cos_one (a : R) : sin a * sin a + cos a * cos a = 1.
Proof. exact (sin2_cos2 a). Qed.

(* ================================================================== *)
(** * Axis rotations *)

Section Rotation.
Variables (angle : R) (pivot : vec3).

Lemma _rotate_x_inverse (vertex_array : list vec3) :
  Object._rotate_x (- angle) (Object._rotate_x angle vertex_array pivot) pivot
  = vertex_array.
Proof.
  unfold Object._rotate_x. rewrite map_map, radians_opp, sin_neg, cos_neg.
  rewrite <- (map_id vertex_array) at 2. apply map_ext.
  intros [x y z]; simpl. pose proof (sin_cos_one (radians angle)) as H.
  f_equal.
  - replace y with ((y - v1 pivot) * 1 + v1 pivot) at 3 by ring.
    rewrite <- H. ring.
  - replace z with ((z - v2 pivot) * 1 + v2 pivot) at 3 by ring.
    rewrite <- H. ring.
Qed.

Lemma _rotate_y_inverse (vertex_array : list vec3) :
  Object._rotate_y (- angle) (Object._rotate_y angle vertex_array pivot) pivot
  = vertex_array.
Proof.
  unfold Object._rotate_y. rewrite map_map, radians_opp, sin_neg, cos_neg.
  rewrite <- (map_id vertex_array) at 2. apply map_ext.
  intros [x y z]; simpl. pose proof (sin_cos_one (radians angle)) as H.
  f_equal.
  - replace x with ((x - v0 pivot) * 1 + v0 pivot) at 3 by ring.
    rewrite <- H. ring.
  - replace z with ((z - v2 pivot) * 1 + v2 pivot) at 3 by ring.
    rewrite <- H. ring.
Qed.

Lemma _rotate_z_inverse (vertex_array : list vec3) :
  Object._rotate_z (- angle) (Object._rotate_z angle vertex_array pivot) pivot
  = vertex_array.
Proof.
  unfold Object._rotate_z. rewrite map_map, radians_opp, sin_neg, cos_neg.
  rewrite <- (map_id vertex_array) at 2. apply map_ext.
  intros [x y z]; simpl. pose proof (sin_cos_one (radians angle)) as H.
  f_equal.
  - replace x with ((x - v0 pivot) * 1 + v0 pivot) at 3 by ring.
    rewrite <- H. ring.
  - replace y with ((y - v1 pivot) * 1 + v1 pivot) at 3 by ring.
    rewrite <- H. ring.
Qed.
End Rotation.

(** C6.  For every vertex list, pivot and angle, rotating about one axis by
    the angle and then by its opposite, about the same pivot, gives back
    the vertex list: for [_rotate_x], [_rotate_y] and [_rotate_z]. *)
Theorem C6_rotate_then_unrotate (angle : R) (vertex_array : list vec3) (pivot : vec3) :
  Object._rotate_x (- angle) (Object._rotate_x angle vertex_array pivot) pivot
    = vertex_array
  /\ Object._rotate_y (- angle) (Object._rotate_y angle vertex_array pivot) pivot
    = vertex_array
  /\ Object._rotate_z (- angle) (Object._rotate_z angle vertex_array pivot) pivot
    = vertex_array.
Proof.
  split; [| split].
  - apply _rotate_x_inverse.
  - apply _rotate_y_inverse.
  - apply _rotate_z_inverse.
Qed.

(* ================================================================== *)
(** * Camera setters *)

(** Case analysis on an optional argument and its truth value. *)
Ltac case_arg a :=
  destruct a as [a |]; [destruct (truthy a) eqn:? | idtac].

Lemma clamp_to_None (x : R) : Camera.clamp_to None x = x.
Proof. reflexivity. Qed.

Lemma clamp_delta_None (current x : R) : Camera.clamp_delta None current x = x.
Proof. reflexivity. Qed.

(** A clamped value lies in a well-ordered range. *)
Lemma clamp_to_range (lo hi x : R) :
  lo <= hi -> lo <= Camera.clamp_to (Some (lo, hi)) x <= hi.
Proof.
  intro H. unfold Camera.clamp_to, Rltb.
  destruct (Rlt_dec x lo); [lra |].
  destruct (Rlt_dec hi x); lra.
Qed.

(** [set_rotation(x=x, y=y)] does what its docstring says: the two values
    are clamped and stored on their own axes. *)
Lemma Camera_set_rotation_x_y (cam : Camera.t) (x y : R) :
  x <> 0 -> y <> 0 ->
  Camera._rotation (Camera.set_rotation cam (Some x) (Some y) None)
  = mkvec (Camera.clamp_to (Camera.x_clamp cam) x)
          (Camera.clamp_to (Camera.y_clamp cam) y)
          (v2 (Camera._rotation cam)).
Proof.
  intros Hx Hy. unfold Camera.set_rotation.
  rewrite (truthy_nonzero x Hx), (truthy_nonzero y Hy). reflexivity.
Qed.

(** C1 (the code at the failing input).  [set_rotation(z=z)] with a
    non-zero [z] stores the clamped value in slot 0 of [_rotation], the
    X-axis rotation, and leaves slots 1 and 2 as they were: the Z-axis
    rotation is not set. *)
Theorem C1_set_rotation_z_overwrites_x (cam : Camera.t) (z : R) (Hz : z <> 0) :
  let cam' := Camera.set_rotation cam None None (Some z) in
  v0 (Camera._rotation cam') = Camera.clamp_to (Camera.z_clamp cam) z
  /\ v1 (Camera._rotation cam') = v1 (Camera._rotation cam)
  /\ v2 (Camera._rotation cam') = v2 (Camera._rotation cam).
Proof.
  unfold Camera.set_rotation. rewrite (truthy_nonzero z Hz). simpl. auto.
Qed.

Lemma C1_set_rotation_z_overwrites_x_witness :
  v0 (Camera._rotation (Camera.set_rotation sample_camera None None (Some 30))) = 30
  /\ v2 (Camera._rotation (Camera.set_rotation sample_camera None None (Some 30))) = 0.
Proof.
  assert (H : 30 <> 0) by lra.
  destruct (C1_set_rotation_z_overwrites_x sample_camera 30 H) as (H0 & _ & H2).
  split; [rewrite H0 | rewrite H2]; reflexivity.
Defined.

(** C10.  A camera constructed under a fresh name with a [z_clamp] and no
    [y_clamp] exists and has [z_clamp = None]; [rotate] then adds its [z]
    to the Z-axis rotation as it is, and [set_rotation] stores its [z] as
    it is (in slot 0) and leaves the Z-axis rotation alone. *)
Theorem C10_z_clamp_dropped_without_y_clamp
    (C : Camera.cls) (name : string) (position rotation : option vec3)
    (fov near_plane far_plane : option R) (rotation_order : option (list string))
    (x_clamp z_clamp : Camera.clamp)
    (Hfresh : any_named Camera._name name (Camera._global_memory C) = false) :
  exists cam C',
    Camera.__init__ C name position rotation fov near_plane far_plane
      rotation_order x_clamp None z_clamp = (Ok cam, C')
    /\ Camera.z_clamp cam = None
    /\ (forall x y z,
          v2 (Camera._rotation (Camera.rotate cam x y (Some z)))
          = v2 (Camera._rotation cam) + z)
    /\ (forall z, z <> 0 ->
          Camera._rotation (Camera.set_rotation cam None None (Some z))
          = set0 (Camera._rotation cam) z)
    /\ (forall x y z,
          v2 (Camera._rotation (Camera.set_rotation cam x y z))
          = v2 (Camera._rotation cam)).
Proof.
  unfold Camera.__init__. rewrite Hfresh.
  eexists. eexists. split; [reflexivity |].
  split; [reflexivity |]. split; [| split].
  - intros x y z. unfold Camera.rotate. cbn [Camera.z_clamp Camera.x_clamp Camera.y_clamp].
    case_arg x; case_arg y;
      unfold truthy; destruct (Req_dec_T z 0) as [-> | Hz]; simpl; ring.
  - intros z Hz. unfold Camera.set_rotation. rewrite (truthy_nonzero z Hz).
    reflexivity.
  - intros x y z. unfold Camera.set_rotation.
    case_arg x; case_arg y; case_arg z; reflexivity.
Qed.

Lemma C10_z_clamp_dropped_without_y_clamp_witness :
  exists cam C',
    Camera.__init__ Camera.initial "cam" None None None None None None
      None None (Some (-10, 10)) = (Ok cam, C')
    /\ Camera.z_clamp cam = None
    /\ v2 (Camera._rotation (Camera.rotate cam None None (Some 45))) = 45.
Proof.
  destruct (C10_z_clamp_dropped_without_y_clamp Camera.initial "cam"
              None None None None None None None (Some (-10, 10)) eq_refl)
    as (cam & C' & Hinit & Hz & Hrot & _).
  exists cam, C'. split; [exact Hinit |]. split; [exact Hz |].
  rewrite Hrot. injection Hinit as <- _. simpl. ring.
Defined.



(* ================================================================== *)
(** * The light registry *)

(** A light constructed under a fresh name is appended to the memory. *)
Lemma Light_init_fresh (C : Light.cls) (name : string) (position : vec3)
    (color : option vec3) (intensity : option R) :
  any_named Light._name name (Light._global_light_memory C) = false ->
  exists light,
    Light.__init__ C name position color intensity
    = (Ok light,
       Light.mkcls (Light._global_light_memory C ++ [light])
                   (Light.cls_next_memory_id C))
    /\ Light._name light = name.
Proof.
  intro H. unfold Light.__init__. rewrite H. eexists. split; reflexivity.
Qed.

(** C8 (the code at the failing input).  Constructing a light whose name
    is already in the global light memory raises, and leaves the memory as
    it was; the exception that escapes is [TypeError], from the call
    [DuplicateNameError()] that lacks the required [name]. *)
Theorem C8_duplicate_light_raises_TypeError (C : Light.cls) (name : string)
    (position : vec3) (color : option vec3) (intensity : option R)
    (Hdup : any_named Light._name name (Light._global_light_memory C) = true) :
  Light.__init__ C name position color intensity = (Raise TypeError, C).
Proof.
  unfold Light.__init__. rewrite Hdup. reflexivity.
Qed.

Lemma C8_duplicate_light_raises_TypeError_witness :
  exists L1 C1,
    Light.__init__ Light.initial "L1" (mkvec 0 0 (-10)) None None = (Ok L1, C1)
    /\ Light.__init__ C1 "L1" (mkvec 1 1 1) None None = (Raise TypeError, C1)
    /\ Light._global_light_memory C1 = [L1].
Proof.
  eexists. eexists. split; [reflexivity |]. split; [| reflexivity].
  apply C8_duplicate_light_raises_TypeError. reflexivity.
Defined.

(* ================================================================== *)
(** * Projection *)

Lemma Rleb_false_gt (a b : R) : Rleb a b = false -> b < a.
Proof. unfold Rleb. destruct (Rle_dec a b); [discriminate | lra]. Qed.

Lemma Rltb_false_le (a b : R) : Rltb a b = false -> b <= a.
Proof. unfold Rltb. destruct (Rlt_dec a b); [discriminate | lra]. Qed.

(** With a window of width zero the aspect ratio is zero and the
    transform raises before it looks at the vertex. *)
Lemma perspective_transform_flat_window (E : Object.env) (vert : vec3) :
  Object.e_aspect_ratio E = 0 ->
  Object.perspective_transform E vert = Raise ZeroDivisionError.
Proof.
  intro H. unfold Object.perspective_transform. rewrite H, py_div_zero.
  reflexivity.
Qed.

(** The vertex is culled exactly when its depth is outside
    [(near, far]]; nothing but a zero aspect ratio is in the way. *)
Lemma perspective_transform_None_iff (E : Object.env) (vert : vec3) :
  Object.e_aspect_ratio E <> 0 ->
  (Object.perspective_transform E vert = Ok None
   <-> v2 vert - v2 (Object.e_camera_position E) <= Object.e_near_plane E
       \/ Object.e_far_plane E < v2 vert - v2 (Object.e_camera_position E)).
Proof.
  intro Ha. unfold Object.perspective_transform.
  rewrite (py_div_nonzero _ _ Ha). cbn [bind].
  destruct (Rleb _ _) eqn:Hn.
  { apply Rleb_true_iff in Hn. tauto. }
  apply Rleb_false_gt in Hn.
  destruct (Rltb _ _) eqn:Hf.
  { apply Rltb_true_iff in Hf. tauto. }
  apply Rltb_false_le in Hf.
  split; [| intros [H | H]; lra].
  unfold py_div.
  repeat match goal with
         | |- context [Req_dec_T ?a ?b] => destruct (Req_dec_T a b)
         end; cbn [bind]; discriminate.
Qed.

(** Inside [(near, far]] the transform divides, maps to NDC and then to
    pixels. *)
Lemma perspective_transform_inside (E : Object.env) (vert : vec3) :
  Object.e_aspect_ratio E <> 0 ->
  tan (radians (Object.e_fov E) / 2) <> 0 ->
  0 <= Object.e_near_plane E ->
  let half_width := tan (radians (Object.e_fov E) / 2) in
  let half_height := half_width / Object.e_aspect_ratio E in
  let x_offset := v0 vert - v0 (Object.e_camera_position E) in
  let y_offset := v1 vert - v1 (Object.e_camera_position E) in
  let z_offset := v2 vert - v2 (Object.e_camera_position E) in
  let x_ndc := x_offset / (z_offset * half_width) * 2 - 1 in
  let y_ndc := 1 - y_offset / (z_offset * half_height) * 2 in
  ~ (z_offset <= Object.e_near_plane E \/ Object.e_far_plane E < z_offset) ->
  Object.perspective_transform E vert
  = Ok (Some ((x_ndc + 1) / 2 * Object.e_window_width E,
              (1 - y_ndc) / 2 * Object.e_window_height E)).
Proof.
  intros Haspect Hfov Hnear half_width half_height x_offset y_offset z_offset
    x_ndc y_ndc Hin.
  unfold Object.perspective_transform.
  rewrite (py_div_nonzero _ _ Haspect). cbn [bind].
  fold z_offset x_offset y_offset half_width half_height.
  assert (Hz : Object.e_near_plane E < z_offset /\ z_offset <= Object.e_far_plane E) by lra.
  rewrite (Rleb_gt _ _ (proj1 Hz)), (Rltb_ge _ _ (proj2 Hz)).
  assert (Hzw : z_offset * half_width <> 0).
  { apply Rmult_integral_contrapositive_currified; [lra | exact Hfov]. }
  assert (Hzh : z_offset * half_height <> 0).
  { apply Rmult_integral_contrapositive_currified; [lra |].
    unfold half_height, Rdiv.
    apply Rmult_integral_contrapositive_currified;
      [exact Hfov | apply Rinv_neq_0_compat; exact Haspect]. }
  rewrite (py_div_nonzero _ _ Hzw). cbn [bind].
  rewrite (py_div_nonzero _ _ Hzh). cbn [bind].
  reflexivity.
Qed.

(** C3.  In a render whose window has a non-zero aspect ratio,
    [perspective_transform] returns [None] if and only if the depth
    [z - camera_z] is [<=] the near plane or [>] the far plane; otherwise,
    the field of view having a non-zero half-width and the near plane not
    being negative, it returns the screen point got by dividing the x and y
    offsets by depth times half-extent, mapping to NDC and then to
    pixels. *)
Theorem C3_perspective_transform_culls_or_projects (E : Object.env) (vert : vec3)
    (Haspect : Object.e_aspect_ratio E <> 0) :
  let half_width := tan (radians (Object.e_fov E) / 2) in
  let half_height := half_width / Object.e_aspect_ratio E in
  let x_offset := v0 vert - v0 (Object.e_camera_position E) in
  let y_offset := v1 vert - v1 (Object.e_camera_position E) in
  let z_offset := v2 vert - v2 (Object.e_camera_position E) in
  let x_ndc := x_offset / (z_offset * half_width) * 2 - 1 in
  let y_ndc := 1 - y_offset / (z_offset * half_height) * 2 in
  (Object.perspective_transform E vert = Ok None
   <-> z_offset <= Object.e_near_plane E \/ Object.e_far_plane E < z_offset)
  /\ (half_width <> 0 -> 0 <= Object.e_near_plane E ->
      ~ (z_offset <= Object.e_near_plane E \/ Object.e_far_plane E < z_offset) ->
      Object.perspective_transform E vert
      = Ok (Some ((x_ndc + 1) / 2 * Object.e_window_width E,
                  (1 - y_ndc) / 2 * Object.e_window_height E))).
Proof.
  intros half_width half_height x_offset y_offset z_offset x_ndc y_ndc.
  split; [apply perspective_transform_None_iff; assumption |].
  intros Hfov Hnear. apply perspective_transform_inside; assumption.
Qed.

Lemma sample_env_half_width : tan (radians (Object.e_fov sample_env) / 2) = 1.
Proof.
  replace (radians (Object.e_fov sample_env) / 2) with (PI / 4)
    by (unfold radians; simpl; field).
  exact tan_PI4.
Qed.

Lemma C3_perspective_transform_culls_or_projects_witness :
  Object.perspective_transform sample_env (mkvec 1 1 2000) = Ok None
  /\ Object.perspective_transform sample_env (mkvec 1 1 (1 / 10)) = Ok None
  /\ exists p, Object.perspective_transform sample_env (mkvec 1 1 5) = Ok (Some p).
Proof.
  assert (Ha : Object.e_aspect_ratio sample_env <> 0) by (simpl; lra).
  assert (Hf : tan (radians (Object.e_fov sample_env) / 2) <> 0)
    by (rewrite sample_env_half_width; lra).
  assert (Hn : 0 <= Object.e_near_plane sample_env) by (simpl; lra).
  split; [| split].
  - apply (C3_perspective_transform_culls_or_projects sample_env (mkvec 1 1 2000) Ha).
    right. simpl. lra.
  - apply (C3_perspective_transform_culls_or_projects sample_env (mkvec 1 1 (1 / 10)) Ha).
    left. simpl. lra.
  - eexists.
    apply (C3_perspective_transform_culls_or_projects sample_env (mkvec 1 1 5) Ha);
      [exact Hf | exact Hn |].
    simpl. lra.
Defined.

(* ================================================================== *)
(** * Lighting *)



(** [a ** b] does not raise when the exponent is not negative. *)
Lemma py_pow_defined (a b : R) : 0 <= b -> exists p, py_pow a b = Ok p.
Proof.
  intro Hb. unfold py_pow.
  destruct (Req_dec_T a 0); [| eauto].
  destruct (Req_dec_T b 0); [eauto |].
  rewrite Rltb_lt by lra. eauto.
Qed.



(** [normalize_vector] on a vector of known length. *)
Lemma normalize_vector_length (v : vec3) (n : R) :
  1 / 1000000 <= n ->
  v0 v * v0 v + v1 v * v1 v + v2 v * v2 v = n * n ->
  Object.normalize_vector v = vmap (fun x => x / n) v.
Proof.
  intros Hn H. unfold Object.normalize_vector.
  rewrite H, sqrt_square by lra. rewrite Rltb_ge by lra. reflexivity.
Qed.


(* ================================================================== *)
(** * Skipped faces *)

Lemma mapM_bind_split {A B C : Type} (f : A -> result B) (g : B -> result C)
    (l : list A) :
  forall cs, mapM (fun a => b <- f a ;; g b) l = Ok cs ->
  exists bs, mapM f l = Ok bs /\ mapM g bs = Ok cs.
Proof.
  induction l as [| a l IH]; intros cs H; simpl in H.
  - injection H as <-. exists []. split; reflexivity.
  - destruct (f a) as [b | e] eqn:Hf; simpl in H; [| discriminate].
    destruct (g b) as [c | e] eqn:Hg; simpl in H; [| discriminate].
    destruct (mapM (fun a => b <- f a ;; g b) l) as [cs' | e] eqn:Hl;
      simpl in H; [| discriminate].
    injection H as <-.
    destruct (IH cs' eq_refl) as (bs & Hbs & Hcs).
    exists (b :: bs). simpl. rewrite Hf, Hbs. simpl. rewrite Hg, Hcs.
    split; reflexivity.
Qed.

(** An element on which the body changes nothing can be dropped from the
    loop. *)
Lemma for_each_skip {A : Type}
    (body : list Turtle.cmd -> A -> result (list Turtle.cmd)) (x : A) :
  (forall pointer, body pointer x = Ok pointer) ->
  forall before after pointer,
    Object.for_each body pointer (before ++ x :: after)
    = Object.for_each body pointer (before ++ after).
Proof.
  intros Hx before after. induction before as [| a before IH]; intro pointer; simpl.
  - rewrite Hx. reflexivity.
  - destruct (body pointer a) as [pointer' | e]; simpl; [apply IH | reflexivity].
Qed.

Lemma wire_face_skipped (E : Object.env) (vertex_array : list vec3)
    (face : list Z) (projected : list (option (R * R))) :
  mapM (fun vertex_index =>
          vert <- py_index vertex_array (vertex_index - 1) ;;
          Object.perspective_transform E vert) face = Ok projected ->
  (List.length (Object.surviving projected) < 3)%nat ->
  forall pointer, Object.wire_face E vertex_array pointer face = Ok pointer.
Proof.
  intros Hp Hfew pointer. unfold Object.wire_face. rewrite Hp. cbn [bind].
  apply Nat.ltb_lt in Hfew. rewrite Hfew. reflexivity.
Qed.

Lemma fill_face_skipped (self : Object.t) (E : Object.env)
    (vertex_array face_normals : list vec3) (lights : list Light.t)
    (index : nat) (face : list Z) (projected : list (option (R * R))) :
  mapM (fun vertex_index =>
          vert <- py_index vertex_array (vertex_index - 1) ;;
          Object.perspective_transform E vert) face = Ok projected ->
  (List.length (Object.surviving projected) < 3)%nat ->
  forall pointer,
    Object.fill_face self E vertex_array face_normals lights pointer (index, face)
    = Ok pointer.
Proof.
  intros Hp Hfew pointer. unfold Object.fill_face.
  destruct (mapM_bind_split _ _ _ _ Hp) as (face_vertices & Hv & Hpv).
  rewrite Hv. cbn [bind]. rewrite Hpv. cbn [bind].
  apply Nat.ltb_lt in Hfew. rewrite Hfew. reflexivity.
Qed.

(** A face whose vertices are all outside [(near, far]] projects to
    nothing. *)
Lemma culled_face_projects_to_nothing (E : Object.env)
    (vertex_array : list vec3) (face : list Z) :
  Object.e_aspect_ratio E <> 0 ->
  (forall i, In i face ->
     exists vert, py_index vertex_array (i - 1) = Ok vert
       /\ (v2 vert - v2 (Object.e_camera_position E) <= Object.e_near_plane E
           \/ Object.e_far_plane E < v2 vert - v2 (Object.e_camera_position E))) ->
  exists projected,
    mapM (fun vertex_index =>
            vert <- py_index vertex_array (vertex_index - 1) ;;
            Object.perspective_transform E vert) face = Ok projected
    /\ Object.surviving projected = [].
Proof.
  intros Ha. induction face as [| i face IH]; intro H.
  - exists []. split; reflexivity.
  - destruct (H i (or_introl eq_refl)) as (vert & Hi & Hcull).
    destruct IH as (projected & Hp & Hs).
    { intros j Hj. apply H. right. exact Hj. }
    exists (None :: projected). simpl. rewrite Hi. cbn [bind].
    rewrite (proj2 (perspective_transform_None_iff E vert Ha) Hcull).
    cbn [bind]. rewrite Hp. split; [reflexivity | exact Hs].
Qed.

Lemma face_is_skipped_few (self : Object.t) (E : Object.env)
    (vertex_array face_normals : list vec3) (lights : list Light.t)
    (index : nat) (face : list Z) (projected : list (option (R * R))) :
  mapM (fun vertex_index =>
          vert <- py_index vertex_array (vertex_index - 1) ;;
          Object.perspective_transform E vert) face = Ok projected ->
  (List.length (Object.surviving projected) < 3)%nat ->
  face_is_skipped self E vertex_array face_normals lights index face.
Proof.
  intros Hprojected Hfew.
  pose proof (wire_face_skipped E vertex_array face projected Hprojected Hfew) as Hw.
  pose proof (fill_face_skipped self E vertex_array face_normals lights index
                face projected Hprojected Hfew) as Hf.
  split; [exact Hw |]. split; [exact Hf |]. split.
  - apply for_each_skip. exact Hw.
  - apply for_each_skip. exact Hf.
Qed.

(** C7.  In wireframe mode and in face mode alike, a face of which fewer
    than three vertices survive the projection is skipped: it draws
    nothing.  In particular a face whose vertices are all at or behind the
    near plane or beyond the far plane is skipped (the window having a
    non-zero aspect ratio, without which nothing is projected at all). *)
Theorem C7_face_with_fewer_than_three_survivors_is_skipped
    (self : Object.t) (E : Object.env) (vertex_array face_normals : list vec3)
    (lights : list Light.t) (index : nat) (face : list Z) :
  (forall projected,
     mapM (fun vertex_index =>
             vert <- py_index vertex_array (vertex_index - 1) ;;
             Object.perspective_transform E vert) face = Ok projected ->
     (List.length (Object.surviving projected) < 3)%nat ->
     face_is_skipped self E vertex_array face_normals lights index face)
  /\ (Object.e_aspect_ratio E <> 0 ->
      (forall i, In i face ->
         exists vert,
           py_index vertex_array (i - 1) = Ok vert
           /\ (v2 vert - v2 (Object.e_camera_position E) <= Object.e_near_plane E
               \/ Object.e_far_plane E < v2 vert - v2 (Object.e_camera_position E))) ->
      face_is_skipped self E vertex_array face_normals lights index face).
Proof.
  split.
  - intros projected. apply face_is_skipped_few.
  - intros Ha Hculled.
    destruct (culled_face_projects_to_nothing E vertex_array face Ha Hculled)
      as (projected & Hp & Hs).
    apply (face_is_skipped_few _ _ _ _ _ _ _ projected Hp).
    rewrite Hs. simpl. lia.
Qed.

Lemma sample_env_ready :
  Object.e_aspect_ratio sample_env <> 0
  /\ tan (radians (Object.e_fov sample_env) / 2) <> 0
  /\ 0 <= Object.e_near_plane sample_env.
Proof.
  split; [simpl; lra |]. split; [rewrite sample_env_half_width; lra | simpl; lra].
Qed.

Lemma C7_face_with_fewer_than_three_survivors_is_skipped_witness :
  (* two of the three vertices survive *)
  (Object.wire_face sample_env sample_clipped_triangle [] [1; 2; 3]%Z = Ok []
   /\ Object.fill_face sample_object sample_env sample_clipped_triangle
        [mkvec 0 0 1] [sample_light] [] (0%nat, [1; 2; 3]%Z) = Ok [])
  (* the whole face is beyond the far plane *)
  /\ (Object.wire_face sample_env [mkvec 0 0 2000; mkvec 1 0 2000; mkvec 0 1 2000]
        [] [1; 2; 3]%Z = Ok []
      /\ Object.fill_face sample_object sample_env
           [mkvec 0 0 2000; mkvec 1 0 2000; mkvec 0 1 2000]
           [mkvec 0 0 1] [sample_light] [] (0%nat, [1; 2; 3]%Z) = Ok []).
Proof.
  destruct sample_env_ready as (Ha & Hf & Hn).
  split.
  - pose proof (perspective_transform_inside sample_env (mkvec 0 0 5) Ha Hf Hn) as H1.
    pose proof (perspective_transform_inside sample_env (mkvec 1 0 5) Ha Hf Hn) as H2.
    cbv zeta in H1, H2.
    assert (H3 : Object.perspective_transform sample_env (mkvec 0 1 2000) = Ok None).
    { apply perspective_transform_None_iff; [exact Ha | right; simpl; lra]. }
    match type of H1 with _ -> _ = Ok (Some ?p1) =>
    match type of H2 with _ -> _ = Ok (Some ?p2) =>
      destruct (proj1 (C7_face_with_fewer_than_three_survivors_is_skipped
                         sample_object sample_env sample_clipped_triangle
                         [mkvec 0 0 1] [sample_light] 0%nat [1; 2; 3]%Z)
                  [Some p1; Some p2; None])
        as (Hw & Hfill & _)
    end end.
    + change (mapM (fun i => vert <- py_index sample_clipped_triangle (i - 1) ;;
                             Object.perspective_transform sample_env vert)
                   [1; 2; 3]%Z)
        with (a <- Object.perspective_transform sample_env (mkvec 0 0 5) ;;
              bs <- (b <- Object.perspective_transform sample_env (mkvec 1 0 5) ;;
                     cs <- (c <- Object.perspective_transform sample_env (mkvec 0 1 2000) ;;
                            ds <- Ok [] ;; Ok (c :: ds)) ;;
                     Ok (b :: cs)) ;;
              Ok (a :: bs)).
      rewrite H1, H2, H3; [reflexivity | |];
        intros [H | H]; simpl in H; lra.
    + simpl. lia.
    + split; [apply Hw | apply Hfill].
  - destruct (proj2 (C7_face_with_fewer_than_three_survivors_is_skipped
                       sample_object sample_env
                       [mkvec 0 0 2000; mkvec 1 0 2000; mkvec 0 1 2000]
                       [mkvec 0 0 1] [sample_light] 0%nat [1; 2; 3]%Z) Ha)
      as (Hw & Hfill & _).
    + intros i [<- | [<- | [<- | []]]]; eexists; (split; [reflexivity |]);
        right; simpl; lra.
    + split; [apply Hw | apply Hfill].
Defined.

(* ================================================================== *)
(** * Sorting *)

Section SortingFacts.
Context {A : Type} (key : A -> R).

Let desc (a b : A) : Prop := key b <= key a.
Let asc (a b : A) : Prop := key a <= key b.

Lemma insert_desc_perm (x : A) (l : list A) :
  Permutation (insert_desc key x l) (x :: l).
Proof.
  induction l as [| y l IH]; simpl; [reflexivity |].
  destruct (Rleb (key y) (key x)); [reflexivity |].
  rewrite IH. apply perm_swap.
Qed.

Lemma insert_asc_perm (x : A) (l : list A) :
  Permutation (insert_asc key x l) (x :: l).
Proof.
  induction l as [| y l IH]; simpl; [reflexivity |].
  destruct (Rleb (key x) (key y)); [reflexivity |].
  rewrite IH. apply perm_swap.
Qed.

Lemma py_sorted_perm (reverse : bool) (l : list A) :
  Permutation (py_sorted key reverse l) l.
Proof.
  unfold py_sorted. induction l as [| x l IH]; simpl; [reflexivity |].
  destruct reverse.
  - rewrite insert_desc_perm. apply perm_skip, IH.
  - rewrite insert_asc_perm. apply perm_skip, IH.
Qed.

Lemma insert_desc_sorted (x : A) (l : list A) :
  StronglySorted desc l -> StronglySorted desc (insert_desc key x l).
Proof.
  induction 1 as [| y l Hl IH Hy]; simpl.
  - constructor; constructor.
  - destruct (Rleb (key y) (key x)) eqn:Hc.
    + apply Rleb_true_iff in Hc. constructor; [constructor; assumption |].
      constructor; [exact Hc |].
      eapply Forall_impl; [| exact Hy]. unfold desc. intros a Ha. lra.
    + apply Rleb_false_gt in Hc. constructor; [exact IH |].
      eapply Permutation_Forall; [symmetry; apply insert_desc_perm |].
      constructor; [unfold desc; lra | exact Hy].
Qed.

Lemma insert_asc_sorted (x : A) (l : list A) :
  StronglySorted asc l -> StronglySorted asc (insert_asc key x l).
Proof.
  induction 1 as [| y l Hl IH Hy]; simpl.
  - constructor; constructor.
  - destruct (Rleb (key x) (key y)) eqn:Hc.
    + apply Rleb_true_iff in Hc. constructor; [constructor; assumption |].
      constructor; [exact Hc |].
      eapply Forall_impl; [| exact Hy]. unfold asc. intros a Ha. lra.
    + apply Rleb_false_gt in Hc. constructor; [exact IH |].
      eapply Permutation_Forall; [symmetry; apply insert_asc_perm |].
      constructor; [unfold asc; lra | exact Hy].
Qed.

(** [sort(reverse=True)] leaves the keys in descending order. *)
Lemma py_sorted_descending (l : list A) :
  StronglySorted (fun a b => key b <= key a) (py_sorted key true l).
Proof.
  unfold py_sorted. induction l as [| x l IH]; simpl; [constructor |].
  apply insert_desc_sorted, IH.
Qed.

Lemma py_sorted_ascending (l : list A) :
  StronglySorted (fun a b => key a <= key b) (py_sorted key false l).
Proof.
  unfold py_sorted. induction l as [| x l IH]; simpl; [constructor |].
  apply insert_asc_sorted, IH.
Qed.

(** Two descending arrangements of the same elements are equal when no
    two elements share a key. *)
Lemma descending_unique (l1 : list A) :
  forall l2,
    StronglySorted (fun a b => key b <= key a) l1 ->
    StronglySorted (fun a b => key b <= key a) l2 ->
    Permutation l1 l2 ->
    (forall a b, In a l1 -> In b l1 -> key a = key b -> a = b) ->
    l1 = l2.
Proof.
  induction l1 as [| x l1 IH]; intros l2 H1 H2 Hp Hinj.
  - apply Permutation_nil in Hp. auto.
  - destruct l2 as [| y l2].
    { symmetry in Hp. apply Permutation_nil in Hp. discriminate. }
    inversion H1 as [| ? ? H1' Hx]; subst.
    inversion H2 as [| ? ? H2' Hy]; subst.
    assert (Hyin : In y (x :: l1))
      by (eapply Permutation_in; [symmetry; exact Hp | left; reflexivity]).
    assert (Hxin : In x (y :: l2))
      by (eapply Permutation_in; [exact Hp | left; reflexivity]).
    assert (Hle1 : key y <= key x).
    { destruct Hyin as [<- | Hyin]; [lra |].
      rewrite Forall_forall in Hx. apply Hx, Hyin. }
    assert (Hle2 : key x <= key y).
    { destruct Hxin as [<- | Hxin]; [lra |].
      rewrite Forall_forall in Hy. apply Hy, Hxin. }
    assert (Heq : x = y).
    { apply Hinj; [left; reflexivity | exact Hyin | lra]. }
    subst y. f_equal. apply IH; auto.
    + eapply Permutation_cons_inv. exact Hp.
    + intros a b Ha Hb. apply Hinj; right; assumption.
Qed.
End SortingFacts.

(* ================================================================== *)
(** * Object-level depth sort *)

Lemma py_index_head {A : Type} (x : A) (l : list A) : py_index (x :: l) 0 = Ok x.
Proof. reflexivity. Qed.

Lemma camera_step_length (camera : Camera.t) (a : list vec3) (step : string) :
  List.length (Object.camera_step camera a step) = List.length a.
Proof.
  unfold Object.camera_step, Object._rotate_x, Object._rotate_y, Object._rotate_z.
  destruct (String.eqb step "x"), (String.eqb step "y"), (String.eqb step "z");
    rewrite ?length_map; reflexivity.
Qed.

Lemma camera_perspective_length (self : Object.t) (camera : Camera.t) :
  List.length (Object.camera_perspective self camera)
  = List.length (Object._translated_vertex_array self).
Proof.
  unfold Object.camera_perspective.
  generalize (Object._translated_vertex_array self).
  induction (Camera.rotation_order camera) as [| step order IH]; intro a; simpl.
  - reflexivity.
  - rewrite IH. apply camera_step_length.
Qed.

(** The least element of a non-empty list comes first in ascending order. *)
Lemma py_sorted_ascending_head (l : list R) :
  l <> [] ->
  exists d rest,
    py_sorted (fun d => d) false l = d :: rest
    /\ In d l /\ forall x, In x l -> d <= x.
Proof.
  intro Hne.
  pose proof (py_sorted_perm (fun d => d) false l) as Hp.
  pose proof (py_sorted_ascending (fun d => d) l) as Hs.
  destruct (py_sorted (fun d => d) false l) as [| d rest].
  - apply Permutation_nil in Hp. contradiction.
  - exists d, rest. split; [reflexivity |]. split.
    + eapply Permutation_in; [exact Hp | left; reflexivity].
    + intros x Hx. inversion Hs as [| ? ? _ Hd]; subst.
      apply (Permutation_in x (Permutation_sym Hp)) in Hx.
      destruct Hx as [<- | Hx]; [lra |].
      rewrite Forall_forall in Hd. apply Hd, Hx.
Qed.

(** [get_distance_to_camera] returns on every object that has a vertex,
    and what it returns is the distance to a nearest camera-space vertex. *)
Lemma get_distance_to_camera_nearest (self : Object.t) (camera : Camera.t) :
  Object._translated_vertex_array self <> [] ->
  exists d,
    Object.get_distance_to_camera self camera
    = Ok (d, Object.with_camera_perspective self
               (Object.camera_perspective self camera))
    /\ nearest_vertex_distance camera self d.
Proof.
  intro Hne. unfold Object.get_distance_to_camera.
  change (Object.camera_perspective
            (Object.with_camera_perspective self
               (Object.camera_perspective self camera)) camera)
    with (Object.camera_perspective self camera).
  assert (Hd : map (Object.distance (Camera._position camera))
                   (Object.camera_perspective self camera) <> []).
  { intro H. apply (f_equal (@List.length R)) in H.
    rewrite length_map, camera_perspective_length in H.
    destruct (Object._translated_vertex_array self); [contradiction | discriminate]. }
  destruct (py_sorted_ascending_head _ Hd) as (d & rest & Hs & Hin & Hmin).
  exists d. rewrite Hs, py_index_head. cbn [bind]. split; [reflexivity |].
  split; [exact Hin |].
  intros vertex Hv. apply Hmin. apply in_map. exact Hv.
Qed.

Lemma measure_nearest (camera : Camera.t) (memory : list Object.t) :
  (forall obj, In obj memory -> Object._translated_vertex_array obj <> []) ->
  exists distances,
    Scene.measure camera memory = Ok distances
    /\ Forall2 (fun obj od =>
                  identity (fst od) = identity obj
                  /\ nearest_vertex_distance camera obj (snd od))
               memory distances.
Proof.
  induction memory as [| obj memory IH]; intro H.
  - exists []. split; [reflexivity | constructor].
  - destruct (get_distance_to_camera_nearest obj camera) as (d & Hd & Hn).
    { apply H. left. reflexivity. }
    destruct IH as (distances & Hm & Hall).
    { intros o Ho. apply H. right. exact Ho. }
    eexists. unfold Scene.measure in *. simpl. rewrite Hd. cbn [bind fst snd].
    rewrite Hm. cbn [bind]. split; [reflexivity |].
    constructor; [| exact Hall]. split; [reflexivity | exact Hn].
Qed.

(** A render rewrites scratch buffers only. *)
Lemma _render_identity (self self' : Object.t) (W : Turtle.window)
    (pointer pointer' : list Turtle.cmd) (camera : Camera.t)
    (ambient_light : vec3) (lights : list Light.t) (mode : string) :
  Object._render self W pointer camera ambient_light lights mode
  = Ok (self', pointer') ->
  identity self' = identity self.
Proof.
  unfold Object._render. destruct (negb (Object.visible self)).
  { intro H. injection H as <- _. reflexivity. }
  destruct (py_div _ _) as [aspect_ratio | e]; cbn [bind]; [| discriminate].
  destruct (String.eqb mode "wire").
  { destruct (Object.draw_wireframe _ _ _ _) as [p | e]; cbn [bind];
      [| discriminate].
    intro H. injection H as <- _. reflexivity. }
  destruct (String.eqb mode "face"); [| discriminate].
  unfold Object.draw_faces.
  destruct (Object.precompute_normals _) as [normals | e]; cbn [bind];
    [| discriminate].
  destruct (mapM _ _) as [keyed | e]; cbn [bind]; [| discriminate].
  destruct (Object.for_each _ _ _) as [p | e]; cbn [bind]; [| discriminate].
  intro H. injection H as <- _. reflexivity.
Qed.

Lemma render_loop_order (W : Turtle.window) (camera : Camera.t)
    (ambient_light : vec3) (lights : list Light.t) (mode : string)
    (distances : list (Object.t * R)) :
  forall pointer objs pointer',
    Scene.render_loop W camera ambient_light lights mode pointer distances
    = Ok (objs, pointer') ->
    map identity objs = map (fun od => identity (fst od)) distances.
Proof.
  induction distances as [| [obj d] rest IH]; intros pointer objs pointer' H;
    simpl in H.
  - injection H as <- _. reflexivity.
  - destruct (Object._render obj W pointer camera ambient_light lights mode)
      as [[obj' p1] | e] eqn:Hr; cbn [bind fst snd] in H; [| discriminate].
    destruct (Scene.render_loop W camera ambient_light lights mode p1 rest)
      as [[objs' p2] | e] eqn:Hl; cbn [bind fst snd] in H; [| discriminate].
    injection H as <- _. simpl. f_equal.
    + eapply _render_identity. exact Hr.
    + eapply IH. exact Hl.
Qed.

(** A rotation by [-0] degrees moves nothing. *)
Lemma radians_opp_zero : radians (- 0) = 0.
Proof. unfold radians. ring. Qed.

Lemma _rotate_opp_zero (a : list vec3) (pivot : vec3) :
  Object._rotate_x (- 0) a pivot = a
  /\ Object._rotate_y (- 0) a pivot = a
  /\ Object._rotate_z (- 0) a pivot = a.
Proof.
  unfold Object._rotate_x, Object._rotate_y, Object._rotate_z.
  rewrite radians_opp_zero, sin_0, cos_0.
  repeat split; rewrite <- (map_id a) at 2; apply map_ext;
    intros [x y z]; simpl; f_equal; ring.
Qed.

Lemma camera_perspective_unrotated (self : Object.t) (camera : Camera.t) :
  Camera._rotation camera = mkvec 0 0 0 ->
  Object.camera_perspective self camera = Object._translated_vertex_array self.
Proof.
  intro Hr. unfold Object.camera_perspective.
  generalize (Object._translated_vertex_array self).
  induction (Camera.rotation_order camera) as [| step order IH]; intro a;
    simpl; [reflexivity |].
  rewrite <- (IH a) at 2. f_equal.
  unfold Object.camera_step. rewrite Hr. simpl.
  destruct (_rotate_opp_zero a (Camera._position camera)) as (Hx & Hy & Hz).
  destruct (String.eqb step "x"); rewrite ?Hx;
    destruct (String.eqb step "y"); rewrite ?Hy;
    destruct (String.eqb step "z"); rewrite ?Hz; reflexivity.
Qed.

(** The distance from the origin to a point, given its value. *)
Lemma distance_from_origin (vertex : vec3) (d : R) :
  0 <= d ->
  v0 vertex * v0 vertex + v1 vertex * v1 vertex + v2 vertex * v2 vertex = d * d ->
  Object.distance (mkvec 0 0 0) vertex = d.
Proof.
  intros Hd H. unfold Object.distance. simpl.
  rewrite !Rminus_0_r, H. apply sqrt_square. exact Hd.
Qed.

(* ================================================================== *)
(** * Face normals *)

Lemma py_index_nth {A : Type} (l : list A) (i : Z) (a : A) :
  (0 <= i)%Z -> nth_error l (Z.to_nat i) = Some a -> py_index l i = Ok a.
Proof.
  intros Hi H. unfold py_index.
  assert (Hn : (Z.to_nat i < List.length l)%nat)
    by (apply nth_error_Some; congruence).
  destruct (Z.ltb_spec i 0) as [Hneg | _]; [lia |].
  destruct (Z.leb_spec 0 i) as [_ | Hneg]; [| lia].
  destruct (Z.ltb_spec i (Z.of_nat (List.length l))) as [_ | Hge]; [| lia].
  simpl. rewrite H. reflexivity.
Qed.

Lemma py_index_beyond {A : Type} (l : list A) (i : Z) :
  (Z.of_nat (List.length l) <= i)%Z -> py_index l i = Raise IndexError.
Proof.
  intro H. unfold py_index.
  destruct (Z.ltb_spec i 0) as [Hneg | _]; [lia |].
  destruct (Z.ltb_spec i (Z.of_nat (List.length l))) as [Hlt | _]; [lia |].
  rewrite andb_false_r. reflexivity.
Qed.

Lemma calculate_normal_inv (face_vertices : list vec3) (n : vec3) :
  Object.calculate_normal face_vertices = Ok n ->
  exists a b c rest,
    face_vertices = a :: b :: c :: rest
    /\ n = Object.normalize_vector (cross (vsub b a) (vsub c a)).
Proof.
  unfold Object.calculate_normal. intro H.
  destruct face_vertices as [| a [| b [| c rest]]].
  - rewrite (py_index_beyond [] 1) in H by (simpl; lia). discriminate.
  - rewrite (py_index_beyond [a] 1) in H by (simpl; lia). discriminate.
  - rewrite (py_index_nth [a; b] 1 b), (py_index_nth [a; b] 0 a),
      (py_index_beyond [a; b] 2) in H by (simpl; (lia || reflexivity)).
    discriminate.
  - rewrite (py_index_nth (a :: b :: c :: rest) 1 b),
      (py_index_nth (a :: b :: c :: rest) 0 a),
      (py_index_nth (a :: b :: c :: rest) 2 c) in H by (lia || reflexivity).
    cbn [bind] in H. injection H as <-.
    exists a, b, c, rest. split; reflexivity.
Qed.

Lemma firstn_3_inv {A : Type} (l : list A) (a b c : A) (rest : list A) :
  firstn 3 l = a :: b :: c :: rest ->
  exists rest', l = a :: b :: c :: rest'.
Proof.
  destruct l as [| a' [| b' [| c' l]]]; try discriminate.
  simpl. intro H. injection H as -> -> -> _. eauto.
Qed.

(** The normals that [precompute_normals] returns are the flat normals of
    the faces in the translated (world-space) buffer. *)
Lemma precompute_normals_world (self : Object.t) (normals : list vec3) :
  Object.precompute_normals self = Ok normals ->
  Forall2 (normal_of_first_three (Object._translated_vertex_array self))
          (Object._face_array self) normals.
Proof.
  unfold Object.precompute_normals.
  generalize (Object._face_array self) as faces. intro faces. revert normals.
  induction faces as [| face faces IH]; intros normals H; simpl in H.
  - injection H as <-. constructor.
  - destruct (mapM _ face) as [face_vertices | e] eqn:Hv; cbn [bind] in H;
      [| discriminate].
    destruct (Object.calculate_normal _) as [n | e] eqn:Hn; cbn [bind] in H;
      [| discriminate].
    destruct (mapM _ faces) as [ns | e] eqn:Hns; cbn [bind] in H;
      [| discriminate].
    injection H as <-. constructor; [| apply IH; reflexivity].
    destruct (calculate_normal_inv _ _ Hn) as (a & b & c & rest & H3 & ->).
    destruct (firstn_3_inv _ _ _ _ _ H3) as (rest' & ->).
    exists a, b, c, rest'. split; [exact Hv | reflexivity].
Qed.

(** [compute_lighting] returns whenever the face has a vertex and the
    specular exponent is not negative. *)
Lemma light_loop_defined (face_vertices : list vec3) (f0 : vec3)
    (normalized_normal camera_position : vec3) (material : Material.t)
    (lights : list Light.t) :
  py_index face_vertices 0 = Ok f0 ->
  0 <= Material.specular_coefficient material ->
  forall color, exists color',
    Object.light_loop face_vertices normalized_normal camera_position material
      color lights = Ok color'.
Proof.
  intros Hf0 Hk. induction lights as [| light lights IH]; intro color; simpl.
  - eauto.
  - unfold Object.light_step. rewrite Hf0. cbn [bind].
    match goal with
    | |- context [py_pow ?a ?b] => destruct (py_pow_defined a b Hk) as [p Hp]
    end.
    rewrite Hp. cbn [bind]. rewrite py_div_nonzero.
    2:{ match goal with |- sqrt ?s + 1 <> 0 => pose proof (sqrt_pos s) end. lra. }
    cbn [bind]. apply IH.
Qed.

Lemma compute_lighting_defined (E : Object.env) (face_vertices : list vec3)
    (f0 normal : vec3) (lights : list Light.t) (camera_position : vec3)
    (material : Material.t) :
  py_index face_vertices 0 = Ok f0 ->
  0 <= Material.specular_coefficient material ->
  exists color,
    Object.compute_lighting E face_vertices normal lights camera_position
      material = Ok color.
Proof.
  intros Hf0 Hk. unfold Object.compute_lighting.
  eapply light_loop_defined; eassumption.
Qed.

(** What a completed render in face mode leaves behind. *)
Lemma _render_face_inv (self self' : Object.t) (W : Turtle.window)
    (pointer pointer' : list Turtle.cmd) (camera : Camera.t)
    (ambient_light : vec3) (lights : list Light.t) :
  Object.visible self = true ->
  Object._render self W pointer camera ambient_light lights "face"
  = Ok (self', pointer') ->
  exists normals E sorted_faces,
    Object.precompute_normals self = Ok normals
    /\ Object._face_normals self' = Some normals
    /\ Permutation sorted_faces (Object.enumerate_from 0 (Object._face_array self))
    /\ Object.for_each
         (Object.fill_face self' E (Object.camera_perspective self camera)
            normals lights)
         pointer sorted_faces = Ok pointer'.
Proof.
  intros Hv. unfold Object._render. rewrite Hv. cbn [negb].
  destruct (py_div _ _) as [aspect_ratio | e]; cbn [bind]; [| discriminate].
  change (String.eqb "face" "wire") with false.
  change (String.eqb "face" "face") with true. cbv iota.
  unfold Object.draw_faces.
  change (Object.precompute_normals
            (Object.with_camera_perspective self
               (Object.camera_perspective self camera)))
    with (Object.precompute_normals self).
  destruct (Object.precompute_normals self) as [normals | e]; cbn [bind];
    [| discriminate].
  destruct (mapM _ _) as [keyed | e] eqn:Hk; cbn [bind]; [| discriminate].
  destruct (Object.for_each _ _ _) as [p | e] eqn:Hloop; cbn [bind];
    [| discriminate].
  intro H. injection H as <- <-.
  eexists normals, _, (map snd (py_sorted fst false keyed)).
  split; [reflexivity |]. split; [reflexivity |]. split; [| exact Hloop].
  rewrite (py_sorted_perm fst false keyed).
  clear Hloop. revert keyed Hk.
  change (Object._face_array
            (Object.with_face_normals
               (Object.with_camera_perspective self
                  (Object.camera_perspective self camera)) normals))
    with (Object._face_array self).
  generalize (Object.enumerate_from 0 (Object._face_array self)) as items.
  induction items as [| item items IH]; intros keyed Hk; simpl in Hk.
  - injection Hk as <-. constructor.
  - destruct (Object.face_key _ _ item) as [k | e]; cbn [bind] in Hk;
      [| discriminate].
    destruct (mapM _ items) as [keyed' | e]; cbn [bind] in Hk; [| discriminate].
    injection Hk as <-. simpl. constructor. apply IH. reflexivity.
Qed.

(** C2 (amended).  A render in face mode that completes leaves one normal
    per face in [_face_normals]; each is the flat normal of the face's
    first three vertices in the translated (world-space) buffer, whatever
    the camera; and these are the normals that the lighting of the faces
    receives. *)
Theorem C2_face_normals_from_world_space (self self' : Object.t)
    (W : Turtle.window) (pointer pointer' : list Turtle.cmd)
    (camera : Camera.t) (ambient_light : vec3) (lights : list Light.t)
    (Hvisible : Object.visible self = true)
    (Hrender : Object._render self W pointer camera ambient_light lights "face"
               = Ok (self', pointer')) :
  exists normals,
    Object._face_normals self' = Some normals
    /\ Forall2 (normal_of_first_three (Object._translated_vertex_array self))
               (Object._face_array self) normals
    /\ (forall W2 pointer2 camera2 ambient_light2 lights2 self2 pointer2',
          Object._render self W2 pointer2 camera2 ambient_light2 lights2 "face"
          = Ok (self2, pointer2') ->
          Object._face_normals self2 = Some normals)
    /\ (exists E sorted_faces,
          Permutation sorted_faces
            (Object.enumerate_from 0 (Object._face_array self))
          /\ Object.for_each
               (Object.fill_face self' E (Object.camera_perspective self camera)
                  normals lights)
               pointer sorted_faces = Ok pointer').
Proof.
  destruct (_render_face_inv _ _ _ _ _ _ _ _ Hvisible Hrender)
    as (normals & E & sorted_faces & Hn & Hs & Hp & Hloop).
  exists normals. split; [exact Hs |].
  split; [apply precompute_normals_world; exact Hn |]. split.
  - intros W2 pointer2 camera2 ambient_light2 lights2 self2 pointer2' H2.
    destruct (_render_face_inv _ _ _ _ _ _ _ _ Hvisible H2)
      as (normals2 & _ & _ & Hn2 & Hs2 & _).
    rewrite Hn in Hn2. injection Hn2 as <-. exact Hs2.
  - exists E, sorted_faces. split; assumption.
Qed.

(* ================================================================== *)
(** * A render under a rolled camera *)

Lemma sample_slanted_rolled :
  Object.camera_perspective sample_slanted sample_camera_rolled
  = [mkvec 0 0 5; mkvec 0 (-3) 9; mkvec 1 0 5].
Proof.
  unfold Object.camera_perspective.
  cbn [fold_left Camera.rotation_order sample_camera_rolled].
  unfold Object.camera_step.
  cbn [String.eqb Ascii.eqb Bool.eqb].
  change (Camera._rotation sample_camera_rolled) with (mkvec 0 0 (-90)).
  change (Camera._position sample_camera_rolled) with (mkvec 0 0 0).
  cbn [v0 v1 v2].
  destruct (_rotate_opp_zero (Object._translated_vertex_array sample_slanted)
              (mkvec 0 0 0)) as (_ & Hy & _).
  rewrite Hy.
  destruct (_rotate_opp_zero (Object._translated_vertex_array sample_slanted)
              (mkvec 0 0 0)) as (Hx & _ & _).
  rewrite Hx.
  unfold Object._rotate_z.
  replace (radians (- -90)) with (PI / 2) by (unfold radians; field).
  rewrite sin_PI2, cos_PI2. simpl.
  repeat f_equal; ring.
Qed.

Lemma sample_slanted_normals :
  Object.precompute_normals sample_slanted = Ok [mkvec (-4 / 5) 0 (3 / 5)].
Proof.
  unfold Object.precompute_normals.
  change (Object._face_array sample_slanted) with [[1; 2; 3]%Z].
  change (Object._translated_vertex_array sample_slanted)
    with [mkvec 0 0 5; mkvec 3 0 9; mkvec 0 1 5].
  cbn [mapM].
  rewrite (py_index_nth _ (1 - 1) (mkvec 0 0 5)),
    (py_index_nth _ (2 - 1) (mkvec 3 0 9)),
    (py_index_nth _ (3 - 1) (mkvec 0 1 5)) by (lia || reflexivity).
  cbn [bind firstn]. unfold Object.calculate_normal.
  rewrite (py_index_nth _ 1 (mkvec 3 0 9)), (py_index_nth _ 0 (mkvec 0 0 5)),
    (py_index_nth _ 2 (mkvec 0 1 5)) by (lia || reflexivity).
  cbn [bind].
  rewrite (normalize_vector_length _ 5); [| lra | simpl; ring].
  unfold vmap, vsub, vzip. simpl. do 3 f_equal; field.
Qed.

(** A face with three surviving vertices is lit and filled. *)
Lemma fill_face_drawn (self : Object.t) (E : Object.env)
    (vertex_array face_normals : list vec3) (lights : list Light.t)
    (pointer : list Turtle.cmd) (index : nat) (face : list Z)
    (face_vertices : list vec3) (projected : list (option (R * R)))
    (normal color : vec3) :
  mapM (fun i => py_index vertex_array (i - 1)) face = Ok face_vertices ->
  mapM (Object.perspective_transform E) face_vertices = Ok projected ->
  (3 <= List.length (Object.surviving projected))%nat ->
  py_index face_normals (Z.of_nat index) = Ok normal ->
  Object.compute_lighting E face_vertices normal lights
    (Object.e_camera_position E) (Object.material self) = Ok color ->
  Object.fill_face self E vertex_array face_normals lights pointer (index, face)
  = Object.draw_filled_polygon pointer (Object.surviving projected) color.
Proof.
  intros Hv Hp Hlen Hn Hc. unfold Object.fill_face.
  rewrite Hv. cbn [bind]. rewrite Hp. cbn [bind].
  destruct (Nat.ltb_spec (List.length (Object.surviving projected)) 3);
    [lia |].
  rewrite Hn. cbn [bind]. rewrite Hc. reflexivity.
Qed.

Lemma sample_slanted_render :
  exists pointer',
    Object._render sample_slanted sample_window [] sample_camera_rolled
      (mkvec 25 25 25) [sample_light] "face"
    = Ok (Object.with_face_normals
            (Object.with_camera_perspective sample_slanted
               [mkvec 0 0 5; mkvec 0 (-3) 9; mkvec 1 0 5])
            [mkvec (-4 / 5) 0 (3 / 5)],
          pointer')
    /\ In Turtle.begin_fill pointer'.
Proof.
  unfold Object._render.
  change (Object.visible sample_slanted) with true. cbn [negb].
  change (Turtle.window_width sample_window) with 800.
  change (Turtle.window_height sample_window) with 600.
  rewrite py_div_nonzero by lra. cbn [bind].
  change (String.eqb "face" "wire") with false.
  change (String.eqb "face" "face") with true. cbv iota.
  change (Object.camera_perspective
            (Object.with_camera_perspective sample_slanted
               (Object.camera_perspective sample_slanted sample_camera_rolled))
            sample_camera_rolled)
    with (Object.camera_perspective sample_slanted sample_camera_rolled).
  rewrite sample_slanted_rolled.
  unfold Object.draw_faces.
  change (Object.precompute_normals
            (Object.with_camera_perspective sample_slanted
               [mkvec 0 0 5; mkvec 0 (-3) 9; mkvec 1 0 5]))
    with (Object.precompute_normals sample_slanted).
  rewrite sample_slanted_normals. cbn [bind].
  change (Object._face_array
            (Object.with_face_normals
               (Object.with_camera_perspective sample_slanted
                  [mkvec 0 0 5; mkvec 0 (-3) 9; mkvec 1 0 5])
               [mkvec (-4 / 5) 0 (3 / 5)]))
    with [[1; 2; 3]%Z].
  set (vertex_array := [mkvec 0 0 5; mkvec 0 (-3) 9; mkvec 1 0 5]).
  set (self' := Object.with_face_normals _ _).
  set (E := Object.mkenv _ _ _ _ _ _ _ _).
  assert (Hv : mapM (fun i => py_index vertex_array (i - 1)) [1; 2; 3]%Z
               = Ok vertex_array).
  { cbn [mapM].
    rewrite (py_index_nth _ (1 - 1) (mkvec 0 0 5)),
      (py_index_nth _ (2 - 1) (mkvec 0 (-3) 9)),
      (py_index_nth _ (3 - 1) (mkvec 1 0 5)) by (lia || reflexivity).
    reflexivity. }
  (* the sort key of the only face *)
  cbn [Object.enumerate_from mapM]. unfold Object.face_key. cbn [snd mapM].
  rewrite (py_index_nth _ (1 - 1) (mkvec 0 0 5)),
    (py_index_nth _ (2 - 1) (mkvec 0 (-3) 9)),
    (py_index_nth _ (3 - 1) (mkvec 1 0 5)) by (lia || reflexivity).
  cbn [bind py_sorted fold_right insert_asc map snd Object.for_each].
  (* the three vertices are in view *)
  assert (Ha : Object.e_aspect_ratio E <> 0) by (simpl; lra).
  assert (Hf : tan (radians (Object.e_fov E) / 2) <> 0).
  { change (Object.e_fov E) with (Object.e_fov sample_env).
    rewrite sample_env_half_width. lra. }
  assert (Hn : 0 <= Object.e_near_plane E) by (simpl; lra).
  pose proof (perspective_transform_inside E (mkvec 0 0 5) Ha Hf Hn) as H1.
  pose proof (perspective_transform_inside E (mkvec 0 (-3) 9) Ha Hf Hn) as H2.
  pose proof (perspective_transform_inside E (mkvec 1 0 5) Ha Hf Hn) as H3.
  cbv zeta in H1, H2, H3.
  match type of H1 with _ -> _ = Ok (Some ?p) => set (p1 := p) in H1 end.
  match type of H2 with _ -> _ = Ok (Some ?p) => set (p2 := p) in H2 end.
  match type of H3 with _ -> _ = Ok (Some ?p) => set (p3 := p) in H3 end.
  assert (Hp : mapM (Object.perspective_transform E) vertex_array
               = Ok [Some p1; Some p2; Some p3]).
  { unfold vertex_array. cbn [mapM].
    rewrite H1, H2, H3; [reflexivity | | |]; intros [H | H]; simpl in H; lra. }
  destruct (compute_lighting_defined E vertex_array (mkvec 0 0 5)
              (mkvec (-4 / 5) 0 (3 / 5)) [sample_light]
              (Object.e_camera_position E) (Object.material self'))
    as [color Hc]; [reflexivity | simpl; lra |].
  rewrite (fill_face_drawn self' E vertex_array _ _ _ _ _ vertex_array
             [Some p1; Some p2; Some p3] (mkvec (-4 / 5) 0 (3 / 5)) color
             Hv Hp);
    [| simpl; lia | reflexivity | exact Hc].
  unfold Object.draw_filled_polygon. cbn [Object.surviving].
  rewrite py_index_head. cbn [bind app].
  eexists. split; [reflexivity |].
  do 3 right. left. reflexivity.
Qed.

Lemma C2_face_normals_from_world_space_witness :
  Forall2 (normal_of_first_three (Object._translated_vertex_array sample_slanted))
          (Object._face_array sample_slanted) [mkvec (-4 / 5) 0 (3 / 5)].
Proof.
  destruct sample_slanted_render as (pointer' & Hr & _).
  destruct (C2_face_normals_from_world_space sample_slanted _ _ _ _ _ _ _
              eq_refl Hr)
    as (normals & Hs & Hworld & _).
  simpl in Hs. injection Hs as <-. exact Hworld.
Defined.

(** C2 as stated fails.  Under a camera rolled by a quarter turn the
    slanted triangle is in view, lit and filled, and the normal that the
    render precomputed for it is not the flat normal of its first three
    camera-space vertices. *)
Lemma C2_normals_not_from_camera_space :
  exists self' pointer' normals,
    Object._render sample_slanted sample_window [] sample_camera_rolled
      (mkvec 25 25 25) [sample_light] "face" = Ok (self', pointer')
    /\ In Turtle.begin_fill pointer'
    /\ Object._face_normals self' = Some normals
    /\ ~ Forall2 (normal_of_first_three
                    (Object.camera_perspective sample_slanted sample_camera_rolled))
                 (Object._face_array sample_slanted) normals.
Proof.
  destruct sample_slanted_render as (pointer' & Hr & Hin).
  eexists. exists pointer', [mkvec (-4 / 5) 0 (3 / 5)].
  split; [exact Hr |]. split; [exact Hin |]. split; [reflexivity |].
  intro H. inversion H as [| face n faces ns Hn _]; subst.
  destruct Hn as (a & b & c & rest & Hm & Hn).
  rewrite sample_slanted_rolled in Hm. cbn [mapM] in Hm.
  rewrite (py_index_nth _ (1 - 1) (mkvec 0 0 5)),
    (py_index_nth _ (2 - 1) (mkvec 0 (-3) 9)),
    (py_index_nth _ (3 - 1) (mkvec 1 0 5)) in Hm by (lia || reflexivity).
  cbn [bind] in Hm. injection Hm as <- <- <- _.
  rewrite (normalize_vector_length _ 5) in Hn; [| lra | simpl; ring].
  unfold vmap, cross, vsub, vzip in Hn. simpl in Hn.
  injection Hn as H0 _ _. lra.
Qed.

(* ================================================================== *)
(** * The drawing of a scene *)

(** Every drawing routine only appends to the pointer: what it does on a
    pointer that has already drawn is what it does on a cleared one, after
    what was there. *)
Lemma for_each_frame {A : Type}
    (body : list Turtle.cmd -> A -> result (list Turtle.cmd)) :
  (forall pointer a,
     body pointer a
     = match body [] a with
       | Ok cmds => Ok (pointer ++ cmds)
       | Raise e => Raise e
       end) ->
  forall l pointer,
    Object.for_each body pointer l
    = match Object.for_each body [] l with
      | Ok cmds => Ok (pointer ++ cmds)
      | Raise e => Raise e
      end.
Proof.
  intro Hbody. induction l as [| a l IH]; intro pointer; simpl.
  - rewrite app_nil_r. reflexivity.
  - rewrite (Hbody pointer a).
    destruct (body [] a) as [cmds | e]; cbn [bind]; [| reflexivity].
    rewrite (IH (pointer ++ cmds)), (IH cmds).
    destruct (Object.for_each body [] l) as [cmds' | e]; [| reflexivity].
    rewrite app_assoc. reflexivity.
Qed.

Lemma wire_face_frame (E : Object.env) (vertex_array : list vec3)
    (pointer : list Turtle.cmd) (face : list Z) :
  Object.wire_face E vertex_array pointer face
  = match Object.wire_face E vertex_array [] face with
    | Ok cmds => Ok (pointer ++ cmds)
    | Raise e => Raise e
    end.
Proof.
  unfold Object.wire_face.
  destruct (mapM _ face) as [projected | e]; cbn [bind]; [| reflexivity].
  destruct (List.length (Object.surviving projected) <? 3)%nat.
  - rewrite app_nil_r. reflexivity.
  - destruct (py_index (Object.surviving projected) 0) as [first | e];
      cbn [bind]; reflexivity.
Qed.

Lemma fill_face_frame (self : Object.t) (E : Object.env)
    (vertex_array face_normals : list vec3) (lights : list Light.t)
    (pointer : list Turtle.cmd) (item : nat * list Z) :
  Object.fill_face self E vertex_array face_normals lights pointer item
  = match Object.fill_face self E vertex_array face_normals lights [] item with
    | Ok cmds => Ok (pointer ++ cmds)
    | Raise e => Raise e
    end.
Proof.
  unfold Object.fill_face. destruct item as [index face].
  destruct (mapM _ face) as [face_vertices | e]; cbn [bind]; [| reflexivity].
  destruct (mapM _ face_vertices) as [projected | e]; cbn [bind];
    [| reflexivity].
  destruct (List.length (Object.surviving projected) <? 3)%nat.
  - rewrite app_nil_r. reflexivity.
  - destruct (py_index face_normals _) as [normal | e]; cbn [bind];
      [| reflexivity].
    destruct (Object.compute_lighting _ _ _ _ _ _) as [color | e]; cbn [bind];
      [| reflexivity].
    unfold Object.draw_filled_polygon.
    destruct (py_index (Object.surviving projected) 0) as [first | e];
      cbn [bind]; reflexivity.
Qed.

Lemma _render_frame (self : Object.t) (W : Turtle.window)
    (pointer : list Turtle.cmd) (camera : Camera.t) (ambient_light : vec3)
    (lights : list Light.t) (mode : string) :
  Object._render self W pointer camera ambient_light lights mode
  = match Object._render self W [] camera ambient_light lights mode with
    | Ok (self', cmds) => Ok (self', pointer ++ cmds)
    | Raise e => Raise e
    end.
Proof.
  unfold Object._render. destruct (negb (Object.visible self)).
  { rewrite app_nil_r. reflexivity. }
  destruct (py_div _ _) as [aspect_ratio | e]; cbn [bind]; [| reflexivity].
  destruct (String.eqb mode "wire").
  { unfold Object.draw_wireframe.
    rewrite (for_each_frame _ (wire_face_frame _ _) _ (pointer ++ _)).
    rewrite (for_each_frame _ (wire_face_frame _ _) _ ([] ++ _)).
    destruct (Object.for_each _ [] _) as [cmds | e]; cbn [bind];
      [| reflexivity].
    rewrite <- app_assoc. reflexivity. }
  destruct (String.eqb mode "face"); [| reflexivity].
  unfold Object.draw_faces.
  destruct (Object.precompute_normals _) as [normals | e]; cbn [bind];
    [| reflexivity].
  destruct (mapM _ _) as [keyed | e]; cbn [bind]; [| reflexivity].
  rewrite (for_each_frame _ (fill_face_frame _ _ _ _ _) _ pointer).
  destruct (Object.for_each _ [] _) as [cmds | e]; cbn [bind]; reflexivity.
Qed.

(** The objects come out of the measuring with their scratch buffer set,
    each with the distance to its nearest camera-space vertex. *)
Lemma measure_measured (camera : Camera.t) (memory : list Object.t) :
  (forall obj, In obj memory -> Object._translated_vertex_array obj <> []) ->
  exists distances,
    Scene.measure camera memory = Ok distances
    /\ Forall2 (fun obj od =>
                  fst od = Object.with_camera_perspective obj
                             (Object.camera_perspective obj camera)
                  /\ nearest_vertex_distance camera obj (snd od))
               memory distances.
Proof.
  induction memory as [| obj memory IH]; intro H.
  - exists []. split; [reflexivity | constructor].
  - destruct (get_distance_to_camera_nearest obj camera) as (d & Hd & Hn).
    { apply H. left. reflexivity. }
    destruct IH as (distances & Hm & Hall).
    { intros o Ho. apply H. right. exact Ho. }
    eexists. unfold Scene.measure in *. simpl. rewrite Hd. cbn [bind fst snd].
    rewrite Hm. cbn [bind]. split; [reflexivity |].
    constructor; [| exact Hall]. split; [reflexivity | exact Hn].
Qed.

Section RenderLoop.
Variables (W : Turtle.window) (camera : Camera.t) (ambient_light : vec3)
  (lights : list Light.t) (mode : string).

(** When each object of the queue can be drawn on a cleared pointer, the
    loop completes and has drawn them one after the other. *)
Lemma render_loop_draws (distances : list (Object.t * R))
    (drawings : list (list Turtle.cmd)) :
  Forall2 (fun od cmds =>
             exists obj',
               Object._render (fst od) W [] camera ambient_light lights mode
               = Ok (obj', cmds))
          distances drawings ->
  forall pointer,
    exists objs,
      Scene.render_loop W camera ambient_light lights mode pointer distances
      = Ok (objs, pointer ++ List.concat drawings)
      /\ map identity objs = map (fun od => identity (fst od)) distances.
Proof.
  induction 1 as [| [obj d] cmds rest drawings (obj' & Hr) _ IH];
    intro pointer.
  - exists []. simpl. rewrite app_nil_r. split; reflexivity.
  - cbn [fst] in Hr. cbn [Scene.render_loop].
    rewrite (_render_frame obj W pointer), Hr. cbn [bind fst snd].
    destruct (IH (pointer ++ cmds)) as (objs & Hl & Hid).
    rewrite Hl. cbn [bind fst snd].
    exists (obj' :: objs). split.
    + cbn [List.concat]. rewrite app_assoc. reflexivity.
    + cbn [map fst]. f_equal; [| exact Hid].
      eapply _render_identity. exact Hr.
Qed.

(** A loop that completes has drawn each object of the queue, in the order
    of the queue, as that object is drawn on a cleared pointer. *)
Lemma render_loop_drawn (distances : list (Object.t * R)) :
  forall pointer objs pointer',
    Scene.render_loop W camera ambient_light lights mode pointer distances
    = Ok (objs, pointer') ->
    exists drawings,
      Forall2 (fun od cmds =>
                 exists obj',
                   Object._render (fst od) W [] camera ambient_light lights mode
                   = Ok (obj', cmds))
              distances drawings
      /\ pointer' = pointer ++ List.concat drawings.
Proof.
  induction distances as [| [obj d] rest IH]; intros pointer objs pointer' H;
    cbn [Scene.render_loop] in H.
  - injection H as _ <-. exists []. split; [constructor |].
    simpl. rewrite app_nil_r. reflexivity.
  - rewrite (_render_frame obj W pointer) in H.
    destruct (Object._render obj W [] camera ambient_light lights mode)
      as [[obj' cmds] | e] eqn:Hr; cbn [bind fst snd] in H; [| discriminate].
    destruct (Scene.render_loop W camera ambient_light lights mode
                (pointer ++ cmds) rest)
      as [[objs' p2] | e] eqn:Hl; cbn [bind fst snd] in H; [| discriminate].
    injection H as _ <-.
    destruct (IH _ _ _ Hl) as (drawings & Hall & ->).
    exists (cmds :: drawings). split.
    + constructor; [exists obj'; exact Hr | exact Hall].
    + cbn [List.concat]. rewrite app_assoc. reflexivity.
Qed.
End RenderLoop.

(** C4.  In a scene with an active camera whose objects all have a
    vertex: every object is measured, its key being the distance from the
    camera position to a nearest vertex of its camera-space buffer; the
    render queue is these pairs in descending order of the key.  When each
    object of the queue can be drawn on a cleared pointer, [render_scene]
    completes and what it has drawn is the drawings of the objects one after
    the other in the order of the queue, farthest first; conversely a
    [render_scene] that completes has processed the objects in the order of
    the queue and has drawn exactly that.  Three objects at distances
    [d1 < d2 < d3] are queued as [d3, d2, d1] whatever their order in the
    scene. *)
Theorem C4_render_scene_farthest_first (self : Scene.t) (camera : Camera.t)
    (Hcamera : Scene._active_camera self = Some camera)
    (Hvertices : forall obj, In obj (Scene._object_memory self) ->
                   Object._translated_vertex_array obj <> []) :
  exists distances,
    Scene.measure camera (Scene._object_memory self) = Ok distances
    /\ Forall2 (fun obj od =>
                  fst od = Object.with_camera_perspective obj
                             (Object.camera_perspective obj camera)
                  /\ nearest_vertex_distance camera obj (snd od))
               (Scene._object_memory self) distances
    /\ (let queue := py_sorted snd true distances in
        let drawn_by W mode :=
          Forall2 (fun od cmds =>
                     exists obj',
                       Object._render (fst od) W [] camera
                         (Scene.ambient_light self) (Scene._light_memory self)
                         mode
                       = Ok (obj', cmds))
                  queue in
        Permutation queue distances
        /\ StronglySorted (fun a b => snd b <= snd a) queue
        /\ (forall W mode drawings,
              drawn_by W mode drawings ->
              exists objs,
                Scene.render_scene self W mode = Ok (objs, List.concat drawings)
                /\ map identity objs = map (fun od => identity (fst od)) queue)
        /\ (forall W mode objs pointer,
              Scene.render_scene self W mode = Ok (objs, pointer) ->
              map identity objs = map (fun od => identity (fst od)) queue
              /\ exists drawings,
                   drawn_by W mode drawings /\ pointer = List.concat drawings)
        /\ (forall o1 o2 o3 d1 d2 d3,
              Permutation distances [(o1, d1); (o2, d2); (o3, d3)] ->
              d1 < d2 < d3 ->
              queue = [(o3, d3); (o2, d2); (o1, d1)])).
Proof.
  destruct (measure_measured camera (Scene._object_memory self) Hvertices)
    as (distances & Hm & Hall).
  exists distances. split; [exact Hm |]. split; [exact Hall |].
  cbv zeta.
  pose proof (py_sorted_perm snd true distances) as Hp.
  pose proof (py_sorted_descending snd distances) as Hs.
  assert (Hscene : forall W mode,
            Scene.render_scene self W mode
            = Scene.render_loop W camera (Scene.ambient_light self)
                (Scene._light_memory self) mode []
                (py_sorted snd true distances)).
  { intros W mode. unfold Scene.render_scene. rewrite Hcamera, Hm.
    reflexivity. }
  split; [exact Hp |]. split; [exact Hs |]. split; [| split].
  - intros W mode drawings Hdrawn. rewrite Hscene.
    exact (render_loop_draws W camera _ _ mode _ _ Hdrawn []).
  - intros W mode objs pointer H. rewrite Hscene in H. split.
    + eapply render_loop_order. exact H.
    + exact (render_loop_drawn W camera _ _ mode _ _ _ _ H).
  - intros o1 o2 o3 d1 d2 d3 H123 Hlt.
    apply (descending_unique snd); [exact Hs | | |].
    + repeat constructor; simpl; lra.
    + rewrite Hp, H123. apply (Permutation_rev [(o1, d1); (o2, d2); (o3, d3)]).
    + intros a b Ha Hb Hk.
      apply (Permutation_in _ Hp) in Ha. apply (Permutation_in _ H123) in Ha.
      apply (Permutation_in _ Hp) in Hb. apply (Permutation_in _ H123) in Hb.
      simpl in Ha, Hb.
      destruct Ha as [<- | [<- | [<- | []]]];
        destruct Hb as [<- | [<- | [<- | []]]];
        simpl in Hk; try reflexivity; lra.
Qed.

(** Seen from the origin by a camera that is not rotated, an object whose
    vertices are all at distance [d] has [d] for its nearest distance. *)
Lemma nearest_at_origin (camera : Camera.t) (obj : Object.t) (d d' : R) :
  Camera._position camera = mkvec 0 0 0 ->
  Camera._rotation camera = mkvec 0 0 0 ->
  0 <= d ->
  Forall (fun vertex =>
            v0 vertex * v0 vertex + v1 vertex * v1 vertex
            + v2 vertex * v2 vertex = d * d)
         (Object._translated_vertex_array obj) ->
  nearest_vertex_distance camera obj d' -> d' = d.
Proof.
  intros Hpos Hrot Hd Hall [Hin _].
  rewrite camera_perspective_unrotated in Hin by exact Hrot.
  rewrite Hpos in Hin.
  apply in_map_iff in Hin. destruct Hin as (vertex & <- & Hv).
  rewrite Forall_forall in Hall.
  apply distance_from_origin; [exact Hd | apply Hall, Hv].
Qed.

(** The projection of a render through [sample_camera_wide] onto
    [sample_window]. *)
Lemma project_wide (ambient_light : vec3) (x y z px py : R) :
  1 / 10 < z <= 1000 ->
  px = x / z * 800 -> py = y / z * 800 ->
  Object.perspective_transform
    (Object.mkenv 90 (800 / 600) (mkvec 0 0 0) (1 / 10) 1000 800 600
       ambient_light)
    (mkvec x y z)
  = Ok (Some (px, py)).
Proof.
  intros Hz -> ->.
  set (E := Object.mkenv _ _ _ _ _ _ _ _).
  assert (Ha : Object.e_aspect_ratio E <> 0) by (simpl; lra).
  assert (Hf : tan (radians (Object.e_fov E) / 2) <> 0).
  { change (Object.e_fov E) with (Object.e_fov sample_env).
    rewrite sample_env_half_width. lra. }
  assert (Hn : 0 <= Object.e_near_plane E) by (simpl; lra).
  rewrite (perspective_transform_inside E (mkvec x y z) Ha Hf Hn)
    by (simpl; lra).
  change (Object.e_fov E) with (Object.e_fov sample_env).
  rewrite sample_env_half_width. simpl.
  do 2 f_equal. f_equal; field; lra.
Qed.

(** The wireframe of a visible one-triangle object whose three vertices
    are in view. *)
Lemma wire_triangle_drawn (obj : Object.t) (W : Turtle.window)
    (camera : Camera.t) (ambient_light : vec3) (lights : list Light.t)
    (a b c : vec3) (pa pb pc : R * R) :
  Object.visible obj = true ->
  Object._face_array obj = [[1; 2; 3]%Z] ->
  Object.camera_perspective obj camera = [a; b; c] ->
  Turtle.window_height W <> 0 ->
  (forall vert p, In (vert, p) [(a, pa); (b, pb); (c, pc)] ->
     Object.perspective_transform
       (Object.mkenv (Camera.fov camera)
          (Turtle.window_width W / Turtle.window_height W)
          (Camera._position camera) (Camera.near_plane camera)
          (Camera.far_plane camera) (Turtle.window_width W)
          (Turtle.window_height W) ambient_light)
       vert
     = Ok (Some p)) ->
  exists obj',
    Object._render obj W [] camera ambient_light lights "wire"
    = Ok (obj',
          [Turtle.pensize 1;
           Turtle.color (Material.ambient_color (Object.material obj));
           Turtle.penup; Turtle.goto (fst pa) (snd pa); Turtle.pendown;
           Turtle.goto (fst pb) (snd pb); Turtle.goto (fst pc) (snd pc);
           Turtle.goto (fst pa) (snd pa)]).
Proof.
  intros Hvisible Hfaces Hbuffer Hheight Hproject.
  eexists. unfold Object._render. rewrite Hvisible. cbn [negb].
  rewrite (py_div_nonzero _ _ Hheight). cbn [bind].
  change (String.eqb "wire" "wire") with true. cbv iota.
  change (Object.camera_perspective
            (Object.with_camera_perspective obj
               (Object.camera_perspective obj camera)) camera)
    with (Object.camera_perspective obj camera).
  rewrite Hbuffer. unfold Object.draw_wireframe.
  change (Object._face_array (Object.with_camera_perspective obj [a; b; c]))
    with (Object._face_array obj).
  change (Object.material (Object.with_camera_perspective obj [a; b; c]))
    with (Object.material obj).
  rewrite Hfaces. cbn [Object.for_each]. unfold Object.wire_face.
  cbn [mapM].
  rewrite (py_index_nth [a; b; c] (1 - 1) a),
    (py_index_nth [a; b; c] (2 - 1) b),
    (py_index_nth [a; b; c] (3 - 1) c) by (lia || reflexivity).
  cbn [bind].
  rewrite (Hproject a pa), (Hproject b pb), (Hproject c pc)
    by (simpl; tauto).
  cbn [bind Object.surviving List.length Nat.ltb Nat.leb].
  rewrite (py_index_head pa). cbn [bind tl Object.gotos map app].
  reflexivity.
Qed.

Lemma C4_render_scene_farthest_first_witness :
  exists objs,
    Scene.render_scene sample_scene_colored sample_window "wire"
    = Ok (objs,
          [Turtle.pensize 1; Turtle.color (mkvec 255 0 0);
           Turtle.penup; Turtle.goto 600 0; Turtle.pendown;
           Turtle.goto 0 600; Turtle.goto (-600) 0; Turtle.goto 600 0;
           Turtle.pensize 1; Turtle.color (mkvec 0 255 0);
           Turtle.penup; Turtle.goto 600 0; Turtle.pendown;
           Turtle.goto 0 600; Turtle.goto (-600) 0; Turtle.goto 600 0;
           Turtle.pensize 1; Turtle.color (mkvec 0 0 255);
           Turtle.penup; Turtle.goto 600 0; Turtle.pendown;
           Turtle.goto 0 600; Turtle.goto (-600) 0; Turtle.goto 600 0])
    /\ map Object._name objs = ["far"; "mid"; "near"]%string.
Proof.
  destruct (C4_render_scene_farthest_first sample_scene_colored
              sample_camera_wide eq_refl)
    as (distances & _ & Hall & _ & _ & Hdraws & _ & H3).
  { intros obj [<- | [<- | [<- | []]]]; discriminate. }
  simpl in Hall.
  inversion Hall as [| ? [a da] ? ? [Ha Hda] Hall1]; subst.
  inversion Hall1 as [| ? [b db] ? ? [Hb Hdb] Hall2]; subst.
  inversion Hall2 as [| ? [c dc] ? ? [Hc Hdc] Hall3]; subst.
  inversion Hall3; subst.
  cbn [fst snd] in Ha, Hb, Hc, Hda, Hdb, Hdc.
  apply (nearest_at_origin sample_camera_wide sample_mid_green 10) in Hda;
    [| reflexivity | reflexivity | lra | repeat constructor; simpl; ring].
  apply (nearest_at_origin sample_camera_wide sample_far_red 15) in Hdb;
    [| reflexivity | reflexivity | lra | repeat constructor; simpl; ring].
  apply (nearest_at_origin sample_camera_wide sample_near_blue 5) in Hdc;
    [| reflexivity | reflexivity | lra | repeat constructor; simpl; ring].
  subst da db dc.
  assert (Hqueue : py_sorted snd true [(a, 10); (b, 15); (c, 5)]
                   = [(b, 15); (a, 10); (c, 5)]).
  { apply (H3 c a b 5 10 15); [| lra].
    symmetry. apply (Permutation_cons_append [(a, 10); (b, 15)] (c, 5)). }
  assert (Hfar : Object.camera_perspective sample_far_red sample_camera_wide
                 = [mkvec 9 0 12; mkvec 0 9 12; mkvec (-9) 0 12])
    by (apply camera_perspective_unrotated; reflexivity).
  assert (Hmid : Object.camera_perspective sample_mid_green sample_camera_wide
                 = [mkvec 6 0 8; mkvec 0 6 8; mkvec (-6) 0 8])
    by (apply camera_perspective_unrotated; reflexivity).
  assert (Hnear : Object.camera_perspective sample_near_blue sample_camera_wide
                  = [mkvec 3 0 4; mkvec 0 3 4; mkvec (-3) 0 4])
    by (apply camera_perspective_unrotated; reflexivity).
  destruct (Hdraws sample_window "wire"%string
              [[Turtle.pensize 1; Turtle.color (mkvec 255 0 0);
                Turtle.penup; Turtle.goto 600 0; Turtle.pendown;
                Turtle.goto 0 600; Turtle.goto (-600) 0; Turtle.goto 600 0];
               [Turtle.pensize 1; Turtle.color (mkvec 0 255 0);
                Turtle.penup; Turtle.goto 600 0; Turtle.pendown;
                Turtle.goto 0 600; Turtle.goto (-600) 0; Turtle.goto 600 0];
               [Turtle.pensize 1; Turtle.color (mkvec 0 0 255);
                Turtle.penup; Turtle.goto 600 0; Turtle.pendown;
                Turtle.goto 0 600; Turtle.goto (-600) 0; Turtle.goto 600 0]])
    as (objs & Hscene & Hid).
  { rewrite Hqueue. subst a b c.
    constructor; [| constructor; [| constructor; [| constructor]]];
      cbn [fst].
    - apply (wire_triangle_drawn
               (Object.with_camera_perspective sample_far_red
                  (Object.camera_perspective sample_far_red sample_camera_wide))
               sample_window sample_camera_wide _ _
               (mkvec 9 0 12) (mkvec 0 9 12) (mkvec (-9) 0 12)
               (600, 0) (0, 600) (-600, 0));
        [reflexivity | reflexivity | exact Hfar | simpl; lra |].
      intros vert p [H | [H | [H | []]]]; injection H as <- <-;
        apply project_wide; lra.
    - apply (wire_triangle_drawn
               (Object.with_camera_perspective sample_mid_green
                  (Object.camera_perspective sample_mid_green sample_camera_wide))
               sample_window sample_camera_wide _ _
               (mkvec 6 0 8) (mkvec 0 6 8) (mkvec (-6) 0 8)
               (600, 0) (0, 600) (-600, 0));
        [reflexivity | reflexivity | exact Hmid | simpl; lra |].
      intros vert p [H | [H | [H | []]]]; injection H as <- <-;
        apply project_wide; lra.
    - apply (wire_triangle_drawn
               (Object.with_camera_perspective sample_near_blue
                  (Object.camera_perspective sample_near_blue sample_camera_wide))
               sample_window sample_camera_wide _ _
               (mkvec 3 0 4) (mkvec 0 3 4) (mkvec (-3) 0 4)
               (600, 0) (0, 600) (-600, 0));
        [reflexivity | reflexivity | exact Hnear | simpl; lra |].
      intros vert p [H | [H | [H | []]]]; injection H as <- <-;
        apply project_wide; lra. }
  exists objs. split; [exact Hscene |].
  rewrite Hqueue in Hid. subst a b c.
  apply (f_equal (map (fun i => fst (fst i)))) in Hid.
  rewrite !map_map in Hid. exact Hid.
Defined.

(* ================================================================== *)
(** * Camera direction vectors *)

(** X1.  [get_forward_vector] and [get_up_vector] return unit vectors,
    whatever the rotation of the camera. *)
Theorem X1_forward_and_up_are_unit_vectors (cam : Camera.t) :
  vdot (Camera.get_forward_vector cam) (Camera.get_forward_vector cam) = 1
  /\ vdot (Camera.get_up_vector cam) (Camera.get_up_vector cam) = 1.
Proof.
  unfold Camera.get_forward_vector, Camera.get_up_vector, vdot. simpl.
  set (p := radians (v0 (Camera._rotation cam))).
  set (y := - radians (v1 (Camera._rotation cam))).
  set (r := radians (v2 (Camera._rotation cam))).
  pose proof (sin_cos_one p) as Hp.
  pose proof (sin_cos_one y) as Hy.
  pose proof (sin_cos_one r) as Hr.
  split.
  - replace (- sin y * cos p * (- sin y * cos p) + sin p * sin p
             + cos p * cos y * (cos p * cos y))
      with (sin p * sin p + cos p * cos p * (sin y * sin y + cos y * cos y))
      by ring.
    rewrite Hy. lra.
  - replace ((cos y * sin r - sin y * sin p * cos r)
             * (cos y * sin r - sin y * sin p * cos r)
             + cos p * cos r * (cos p * cos r)
             + (sin y * sin r + cos y * sin p * cos r)
               * (sin y * sin r + cos y * sin p * cos r))
      with ((sin y * sin y + cos y * cos y) * (sin r * sin r)
            + cos r * cos r
              * ((sin y * sin y + cos y * cos y) * (sin p * sin p)
                 + cos p * cos p))
      by ring.
    rewrite Hy. rewrite !Rmult_1_l.
    replace (sin r * sin r + cos r * cos r * (sin p * sin p + cos p * cos p))
      with (sin r * sin r + cos r * cos r * 1) by (rewrite Hp; reflexivity).
    lra.
Qed.

(** X2.  The up vector is perpendicular to the forward vector only up to
    a pitch term: their dot product is [2 sin(pitch) cos(pitch) cos(roll)]
    (so it is zero for a camera without pitch). *)
Theorem X2_forward_dot_up (cam : Camera.t) :
  let pitch := radians (v0 (Camera._rotation cam)) in
  let roll := radians (v2 (Camera._rotation cam)) in
  vdot (Camera.get_forward_vector cam) (Camera.get_up_vector cam)
  = 2 * sin pitch * cos pitch * cos roll.
Proof.
  unfold Camera.get_forward_vector, Camera.get_up_vector, vdot. simpl.
  set (p := radians (v0 (Camera._rotation cam))).
  set (y := - radians (v1 (Camera._rotation cam))).
  set (r := radians (v2 (Camera._rotation cam))).
  pose proof (sin_cos_one y) as Hy.
  replace (- sin y * cos p * (cos y * sin r - sin y * sin p * cos r)
           + sin p * (cos p * cos r)
           + cos p * cos y * (sin y * sin r + cos y * sin p * cos r))
    with (sin p * cos p * cos r * (sin y * sin y + cos y * cos y)
          + sin p * cos p * cos r) by ring.
  rewrite Hy. ring.
Qed.

(** X3.  [get_product_vector(v1, v2)] is the cross product [v2 x v1] (the
    opposite of [v1 x v2]); it is perpendicular to both arguments, and
    swapping the arguments negates it. *)
Theorem X3_get_product_vector_is_cross_product (vector_1 vector_2 : vec3) :
  Camera.get_product_vector vector_1 vector_2 = cross vector_2 vector_1
  /\ vdot (Camera.get_product_vector vector_1 vector_2) vector_1 = 0
  /\ vdot (Camera.get_product_vector vector_1 vector_2) vector_2 = 0
  /\ Camera.get_product_vector vector_2 vector_1
     = vmap Ropp (Camera.get_product_vector vector_1 vector_2).
Proof.
  destruct vector_1 as [a b c], vector_2 as [d e f].
  unfold Camera.get_product_vector, cross, vdot, vmap. simpl.
  repeat split; try (f_equal; ring); ring.
Qed.

(* ================================================================== *)
(** * Camera motion *)

(** An additive update under [if x:] adds the argument, zero included. *)
Lemma truthy_add (r x : R) : (if truthy x then r + x else r) = r + x.
Proof.
  unfold truthy. destruct (Req_dec_T x 0) as [-> | _]; ring.
Qed.

Lemma clamp_delta_in_clamp (c : Camera.clamp) (current x : R) :
  in_clamp c current -> in_clamp c (current + Camera.clamp_delta c current x).
Proof.
  destruct c as [[lo hi] |]; simpl; [| trivial].
  intros [Hlo Hhi]. unfold Rltb.
  destruct (Rlt_dec (x + current) lo); [lra |].
  destruct (Rlt_dec hi (x + current)); lra.
Qed.

Lemma rotate_keeps_clamps (cam : Camera.t) (x y z : option R) :
  Camera.x_clamp (Camera.rotate cam x y z) = Camera.x_clamp cam
  /\ Camera.y_clamp (Camera.rotate cam x y z) = Camera.y_clamp cam
  /\ Camera.z_clamp (Camera.rotate cam x y z) = Camera.z_clamp cam.
Proof.
  unfold Camera.rotate. case_arg x; case_arg y; case_arg z; repeat split.
Qed.

(** X4.  [Camera.rotate] never takes a rotation out of its clamp: an axis
    whose rotation respects its clamp still does after any call. *)
Theorem X4_rotate_respects_clamps (cam : Camera.t) (x y z : option R)
    (Hx : in_clamp (Camera.x_clamp cam) (v0 (Camera._rotation cam)))
    (Hy : in_clamp (Camera.y_clamp cam) (v1 (Camera._rotation cam)))
    (Hz : in_clamp (Camera.z_clamp cam) (v2 (Camera._rotation cam))) :
  let cam' := Camera.rotate cam x y z in
  in_clamp (Camera.x_clamp cam') (v0 (Camera._rotation cam'))
  /\ in_clamp (Camera.y_clamp cam') (v1 (Camera._rotation cam'))
  /\ in_clamp (Camera.z_clamp cam') (v2 (Camera._rotation cam')).
Proof.
  unfold Camera.rotate.
  case_arg x; case_arg y; case_arg z; simpl;
    repeat split; auto using clamp_delta_in_clamp.
Qed.

Lemma X4_rotate_respects_clamps_witness :
  v0 (Camera._rotation
        (Camera.rotate (Camera.rotate sample_camera_demo (Some 60) None None)
           (Some 60) (Some 400) None)) <= 89.
Proof.
  assert (H0 : in_clamp (Camera.x_clamp sample_camera_demo)
                 (v0 (Camera._rotation sample_camera_demo))) by (simpl; lra).
  destruct (X4_rotate_respects_clamps sample_camera_demo (Some 60) None None
              H0 I I) as (H1 & H1y & H1z).
  destruct (X4_rotate_respects_clamps _ (Some 60) (Some 400) None H1 H1y H1z)
    as (H2 & _).
  rewrite !(proj1 (rotate_keeps_clamps _ _ _ _)) in H2.
  exact (proj2 H2).
Defined.

Lemma Camera_translate_eq (cam : Camera.t) (x y z : R) :
  Camera.translate cam (Some x) (Some y) (Some z)
  = Camera.with_position cam
      (mkvec (v0 (Camera._position cam) + x) (v1 (Camera._position cam) + y)
             (v2 (Camera._position cam) + z)).
Proof.
  unfold Camera.translate. f_equal.
  destruct (Camera._position cam) as [p0 p1 p2]. unfold set0, set1, set2, truthy.
  destruct (Req_dec_T x 0) as [-> | _]; destruct (Req_dec_T y 0) as [-> | _];
    destruct (Req_dec_T z 0) as [-> | _]; simpl; f_equal; ring.
Qed.

(** X5.  [Camera.translate] adds each argument to its coordinate, an
    argument [0] included, so translating by a vector and then by its
    opposite gives the camera back. *)
Theorem X5_camera_translate_adds (cam : Camera.t) (x y z : R) :
  Camera._position (Camera.translate cam (Some x) (Some y) (Some z))
  = mkvec (v0 (Camera._position cam) + x) (v1 (Camera._position cam) + y)
          (v2 (Camera._position cam) + z)
  /\ Camera.translate (Camera.translate cam (Some x) (Some y) (Some z))
       (Some (- x)) (Some (- y)) (Some (- z)) = cam.
Proof.
  rewrite !Camera_translate_eq. split; [reflexivity |].
  destruct cam as [n [p0 p1 p2] r f np fp o xc yc zc i ni].
  unfold Camera.with_position. simpl. f_equal. f_equal; ring.
Qed.

(* ================================================================== *)
(** * Rotations as rigid motions *)

Section RigidRotation.
Variables (angle : R) (pivot : vec3).

Lemma _rotate_x_distance (a : list vec3) :
  map (Object.distance pivot) (Object._rotate_x angle a pivot)
  = map (Object.distance pivot) a.
Proof.
  unfold Object._rotate_x. rewrite map_map. apply map_ext.
  intros [x y z]. unfold Object.distance. simpl. f_equal.
  pose proof (sin_cos_one (radians angle)) as H.
  set (s := sin (radians angle)) in *. set (c := cos (radians angle)) in *.
  apply Rminus_diag_uniq.
  transitivity (((y - v1 pivot) * (y - v1 pivot) + (z - v2 pivot) * (z - v2 pivot)) * (s * s + c * c - 1)); [ring | rewrite H; ring].
Qed.

Lemma _rotate_y_distance (a : list vec3) :
  map (Object.distance pivot) (Object._rotate_y angle a pivot)
  = map (Object.distance pivot) a.
Proof.
  unfold Object._rotate_y. rewrite map_map. apply map_ext.
  intros [x y z]. unfold Object.distance. simpl. f_equal.
  pose proof (sin_cos_one (radians angle)) as H.
  set (s := sin (radians angle)) in *. set (c := cos (radians angle)) in *.
  apply Rminus_diag_uniq.
  transitivity (((x - v0 pivot) * (x - v0 pivot) + (z - v2 pivot) * (z - v2 pivot)) * (s * s + c * c - 1)); [ring | rewrite H; ring].
Qed.

Lemma _rotate_z_distance (a : list vec3) :
  map (Object.distance pivot) (Object._rotate_z angle a pivot)
  = map (Object.distance pivot) a.
Proof.
  unfold Object._rotate_z. rewrite map_map. apply map_ext.
  intros [x y z]. unfold Object.distance. simpl. f_equal.
  pose proof (sin_cos_one (radians angle)) as H.
  set (s := sin (radians angle)) in *. set (c := cos (radians angle)) in *.
  apply Rminus_diag_uniq.
  transitivity (((x - v0 pivot) * (x - v0 pivot) + (y - v1 pivot) * (y - v1 pivot)) * (s * s + c * c - 1)); [ring | rewrite H; ring].
Qed.
End RigidRotation.

(** X6.  A rotation about an axis through the pivot keeps every vertex at
    its distance from the pivot, for each of the three axes. *)
Theorem X6_rotation_keeps_distance_to_pivot (angle : R) (pivot : vec3)
    (vertex_array : list vec3) :
  map (Object.distance pivot) (Object._rotate_x angle vertex_array pivot)
    = map (Object.distance pivot) vertex_array
  /\ map (Object.distance pivot) (Object._rotate_y angle vertex_array pivot)
    = map (Object.distance pivot) vertex_array
  /\ map (Object.distance pivot) (Object._rotate_z angle vertex_array pivot)
    = map (Object.distance pivot) vertex_array.
Proof.
  split; [apply _rotate_x_distance |].
  split; [apply _rotate_y_distance | apply _rotate_z_distance].
Qed.

Lemma radians_plus (a b : R) : radians (a + b) = radians a + radians b.
Proof. unfold radians. ring. Qed.

(** X8.  Two rotations about the same axis and pivot compose into the
    rotation by the sum of the angles, for each of the three axes. *)
Theorem X8_rotations_about_one_axis_add (a b : R) (pivot : vec3)
    (vertex_array : list vec3) :
  Object._rotate_x b (Object._rotate_x a vertex_array pivot) pivot
    = Object._rotate_x (a + b) vertex_array pivot
  /\ Object._rotate_y b (Object._rotate_y a vertex_array pivot) pivot
    = Object._rotate_y (a + b) vertex_array pivot
  /\ Object._rotate_z b (Object._rotate_z a vertex_array pivot) pivot
    = Object._rotate_z (a + b) vertex_array pivot.
Proof.
  unfold Object._rotate_x, Object._rotate_y, Object._rotate_z.
  rewrite !map_map, radians_plus, sin_plus, cos_plus.
  repeat split; apply map_ext; intros [x y z]; simpl; f_equal; ring.
Qed.

(* ================================================================== *)
(** * The object-level sort key *)

Lemma camera_step_distance (camera : Camera.t) (a : list vec3) (step : string) :
  map (Object.distance (Camera._position camera)) (Object.camera_step camera a step)
  = map (Object.distance (Camera._position camera)) a.
Proof.
  unfold Object.camera_step.
  destruct (String.eqb step "z"); [rewrite _rotate_z_distance |];
    (destruct (String.eqb step "y"); [rewrite _rotate_y_distance |]);
    (destruct (String.eqb step "x"); [rewrite _rotate_x_distance |]);
    reflexivity.
Qed.

Lemma camera_perspective_distance (self : Object.t) (camera : Camera.t) :
  map (Object.distance (Camera._position camera))
      (Object.camera_perspective self camera)
  = map (Object.distance (Camera._position camera))
        (Object._translated_vertex_array self).
Proof.
  unfold Object.camera_perspective.
  generalize (Object._translated_vertex_array self).
  induction (Camera.rotation_order camera) as [| step order IH]; intro a; simpl.
  - reflexivity.
  - rewrite IH. apply camera_step_distance.
Qed.

(** X7.  The distance that [get_distance_to_camera] returns is the
    distance from the camera position to the nearest world-space vertex of
    the object: the rotation of the camera and its rotation order play no
    part, and two cameras at the same position measure the same distance. *)
Theorem X7_distance_to_camera_ignores_rotation (self : Object.t)
    (camera : Camera.t)
    (Hvertex : Object._translated_vertex_array self <> []) :
  exists d,
    (forall camera2, Camera._position camera2 = Camera._position camera ->
       exists self2, Object.get_distance_to_camera self camera2 = Ok (d, self2))
    /\ In d (map (Object.distance (Camera._position camera))
                 (Object._translated_vertex_array self))
    /\ forall vertex, In vertex (Object._translated_vertex_array self) ->
         d <= Object.distance (Camera._position camera) vertex.
Proof.
  destruct (get_distance_to_camera_nearest self camera Hvertex)
    as (d & Hd & Hin & Hmin).
  rewrite camera_perspective_distance in Hin.
  exists d. split; [| split; [exact Hin |]].
  - intros camera2 Hpos. eexists.
    unfold Object.get_distance_to_camera in *.
    change (Object.camera_perspective
              (Object.with_camera_perspective self
                 (Object.camera_perspective self camera2)) camera2)
      with (Object.camera_perspective self camera2).
    change (Object.camera_perspective
              (Object.with_camera_perspective self
                 (Object.camera_perspective self camera)) camera)
      with (Object.camera_perspective self camera) in Hd.
    rewrite Hpos, <- Hpos, camera_perspective_distance, Hpos.
    rewrite camera_perspective_distance in Hd.
    destruct (py_index _ 0) as [d' | e]; cbn [bind] in *; [| discriminate].
    injection Hd as ->. reflexivity.
  - intros vertex Hv.
    assert (Hdv : In (Object.distance (Camera._position camera) vertex)
                     (map (Object.distance (Camera._position camera))
                          (Object.camera_perspective self camera))).
    { rewrite camera_perspective_distance. apply in_map. exact Hv. }
    apply in_map_iff in Hdv. destruct Hdv as (w & <- & Hw). apply Hmin, Hw.
Qed.

Lemma X7_distance_to_camera_ignores_rotation_witness :
  exists self2,
    Object.get_distance_to_camera sample_mid sample_camera_rolled = Ok (10, self2).
Proof.
  destruct (X7_distance_to_camera_ignores_rotation sample_mid sample_camera)
    as (d & Hsame & Hin & _); [discriminate |].
  destruct (Hsame sample_camera_rolled eq_refl) as (self2 & H2).
  exists self2. rewrite H2. do 2 f_equal.
  simpl in Hin.
  destruct Hin as [<- | [<- | [<- | []]]];
    apply distance_from_origin; simpl; (lra || ring).
Defined.

(* ================================================================== *)
(** * Centring a mesh *)

Lemma fold_left_sum (f : vec3 -> R) (l : list vec3) (acc : R) :
  fold_left (fun acc vertex => acc + f vertex) l acc = acc + Object.sum_by f l.
Proof.
  unfold Object.sum_by. revert acc.
  induction l as [| v l IH]; intro acc; simpl; [ring |].
  rewrite (IH (acc + f v)), (IH (0 + f v)). ring.
Qed.

Lemma sum_by_cons (f : vec3 -> R) (v : vec3) (l : list vec3) :
  Object.sum_by f (v :: l) = f v + Object.sum_by f l.
Proof.
  unfold Object.sum_by at 1. simpl. rewrite fold_left_sum. ring.
Qed.

(** Shifting every vertex shifts the sum by as many times the shift. *)
Lemma sum_by_shift (f : vec3 -> R) (g : vec3 -> vec3) (d : R) (l : list vec3) :
  (forall v, f (g v) = f v + d) ->
  Object.sum_by f (map g l) = Object.sum_by f l + INR (List.length l) * d.
Proof.
  intro H. induction l as [| v l IH].
  - simpl. unfold Object.sum_by. simpl. ring.
  - cbn [map List.length]. rewrite !sum_by_cons, IH, H, S_INR. ring.
Qed.

Lemma _center_vertex_array_eq (vertex_array : list vec3) (new_centroid : vec3) :
  vertex_array <> [] ->
  Object._center_vertex_array vertex_array new_centroid None
  = map (fun vertex =>
           mkvec (v0 vertex + (v0 new_centroid - v0 (centroid vertex_array)))
                 (v1 vertex + (v1 new_centroid - v1 (centroid vertex_array)))
                 (v2 vertex + (v2 new_centroid - v2 (centroid vertex_array))))
        vertex_array.
Proof.
  intro H. destruct vertex_array; [contradiction | reflexivity].
Qed.

Lemma centroid_of_centred (vertex_array : list vec3) (new_centroid : vec3) :
  vertex_array <> [] ->
  centroid (Object._center_vertex_array vertex_array new_centroid None)
  = new_centroid.
Proof.
  intro H. rewrite (_center_vertex_array_eq _ _ H).
  assert (Hn : INR (List.length vertex_array) <> 0).
  { apply not_0_INR. destruct vertex_array; [contradiction | discriminate]. }
  unfold centroid at 1. rewrite length_map.
  rewrite (sum_by_shift v0 _ (v0 new_centroid - v0 (centroid vertex_array))),
    (sum_by_shift v1 _ (v1 new_centroid - v1 (centroid vertex_array))),
    (sum_by_shift v2 _ (v2 new_centroid - v2 (centroid vertex_array)))
    by reflexivity.
  unfold centroid. simpl. destruct new_centroid as [c0 c1 c2]. simpl.
  f_equal; field; exact Hn.
Qed.

(** X9.  Centring a non-empty vertex list on a point, with the centroid
    computed by the function, gives a list of the same length whose
    centroid is that point; centring the result on the same point again
    changes nothing. *)
Theorem X9_center_vertex_array_sets_centroid (vertex_array : list vec3)
    (new_centroid : vec3) (Hvertex : vertex_array <> []) :
  let centred := Object._center_vertex_array vertex_array new_centroid None in
  List.length centred = List.length vertex_array
  /\ centroid centred = new_centroid
  /\ Object._center_vertex_array centred new_centroid None = centred.
Proof.
  cbv zeta. split; [| split].
  - rewrite (_center_vertex_array_eq _ _ Hvertex). apply length_map.
  - apply centroid_of_centred. exact Hvertex.
  - assert (Hc : Object._center_vertex_array vertex_array new_centroid None <> []).
    { rewrite (_center_vertex_array_eq _ _ Hvertex).
      destruct vertex_array; [contradiction | discriminate]. }
    rewrite (_center_vertex_array_eq _ _ Hc),
      (centroid_of_centred _ _ Hvertex).
    rewrite <- map_id. apply map_ext. intros [x y z]. simpl. f_equal; ring.
Qed.

Lemma X9_center_vertex_array_sets_centroid_witness :
  centroid (Object._center_vertex_array
              [mkvec 0 0 5; mkvec 3 0 9; mkvec 0 1 5] (mkvec 0 0 0) None)
  = mkvec 0 0 0.
Proof.
  assert (H : [mkvec 0 0 5; mkvec 3 0 9; mkvec 0 1 5] <> []) by discriminate.
  exact (proj1 (proj2 (X9_center_vertex_array_sets_centroid _ (mkvec 0 0 0) H))).
Defined.

(* ================================================================== *)
(** * Where an object stands in the world *)

Lemma sum_by_linear (f f1 f2 : vec3 -> R) (g : vec3 -> vec3) (a b : R)
    (l : list vec3) :
  (forall v, f (g v) = a * f1 v + b * f2 v) ->
  Object.sum_by f (map g l) = a * Object.sum_by f1 l + b * Object.sum_by f2 l.
Proof.
  intro H. induction l as [| v l IH].
  - unfold Object.sum_by. simpl. ring.
  - cbn [map]. rewrite !sum_by_cons, IH, H. ring.
Qed.

Lemma transformed_of_zero_sum (scale rotation : vec3) (original : list vec3) :
  zero_sum original ->
  zero_sum (Object.transformed_of scale rotation original).
Proof.
  intros (H0 & H1 & H2). unfold Object.transformed_of.
  set (scaled := map _ original).
  assert (Hs : zero_sum scaled).
  { unfold scaled. repeat split.
    - rewrite (sum_by_linear v0 v0 v0 _ (v0 scale) 0), H0 by (intro; simpl; ring). ring.
    - rewrite (sum_by_linear v1 v1 v1 _ (v1 scale) 0), H1 by (intro; simpl; ring). ring.
    - rewrite (sum_by_linear v2 v2 v2 _ (v2 scale) 0), H2 by (intro; simpl; ring). ring. }
  clearbody scaled. destruct Hs as (Hs0 & Hs1 & Hs2).
  set (rx := Object._rotate_x _ scaled _).
  assert (Hx : zero_sum rx).
  { unfold rx, Object._rotate_x. repeat split.
    - rewrite (sum_by_linear v0 v0 v0 _ 1 0), Hs0 by (intro; simpl; ring). ring.
    - rewrite (sum_by_linear v1 v1 v2 _ (cos (radians (v0 rotation)))
                 (sin (radians (v0 rotation)))), Hs1, Hs2
        by (intro; simpl; ring).
      ring.
    - rewrite (sum_by_linear v2 v2 v1 _ (cos (radians (v0 rotation)))
                 (- sin (radians (v0 rotation)))), Hs1, Hs2
        by (intro; simpl; ring).
      ring. }
  clearbody rx. destruct Hx as (Hx0 & Hx1 & Hx2).
  set (ry := Object._rotate_y _ rx _).
  assert (Hy : zero_sum ry).
  { unfold ry, Object._rotate_y. repeat split.
    - rewrite (sum_by_linear v0 v0 v2 _ (cos (radians (v1 rotation)))
                 (sin (radians (v1 rotation)))), Hx0, Hx2
        by (intro; simpl; ring).
      ring.
    - rewrite (sum_by_linear v1 v1 v1 _ 1 0), Hx1 by (intro; simpl; ring). ring.
    - rewrite (sum_by_linear v2 v2 v0 _ (cos (radians (v1 rotation)))
                 (- sin (radians (v1 rotation)))), Hx0, Hx2
        by (intro; simpl; ring).
      ring. }
  clearbody ry. destruct Hy as (Hy0 & Hy1 & Hy2).
  unfold Object._rotate_z. repeat split.
  - rewrite (sum_by_linear v0 v0 v1 _ (cos (radians (v2 rotation)))
               (sin (radians (v2 rotation)))), Hy0, Hy1
      by (intro; simpl; ring).
    ring.
  - rewrite (sum_by_linear v1 v1 v0 _ (cos (radians (v2 rotation)))
               (- sin (radians (v2 rotation)))), Hy0, Hy1
      by (intro; simpl; ring).
    ring.
  - rewrite (sum_by_linear v2 v2 v2 _ 1 0), Hy2 by (intro; simpl; ring). ring.
Qed.

Lemma transformed_of_length (scale rotation : vec3) (original : list vec3) :
  List.length (Object.transformed_of scale rotation original)
  = List.length original.
Proof.
  unfold Object.transformed_of, Object._rotate_x, Object._rotate_y,
    Object._rotate_z.
  rewrite !length_map. reflexivity.
Qed.

(** The centroid of the world-space buffer of a zero-sum mesh is the
    stored position with its z negated. *)
Lemma centroid_translated_of (position : vec3) (transformed : list vec3) :
  transformed <> [] -> zero_sum transformed ->
  centroid (Object.translated_of position transformed)
  = mkvec (v0 position) (v1 position) (- v2 position).
Proof.
  intros Hne (H0 & H1 & H2).
  assert (Hn : INR (List.length transformed) <> 0).
  { apply not_0_INR. destruct transformed; [contradiction | discriminate]. }
  unfold centroid, Object.translated_of. rewrite length_map.
  rewrite (sum_by_shift v0 _ (v0 position)), (sum_by_shift v1 _ (v1 position)),
    (sum_by_shift v2 _ (- v2 position)), H0, H1, H2 by (intro; simpl; ring).
  f_equal; field; exact Hn.
Qed.

Lemma centred_zero_sum (vertex_array : list vec3) :
  vertex_array <> [] ->
  zero_sum (Object._center_vertex_array vertex_array (mkvec 0 0 0) None).
Proof.
  intro H. pose proof (centroid_of_centred vertex_array (mkvec 0 0 0) H) as Hc.
  assert (Hn : INR (List.length
                      (Object._center_vertex_array vertex_array (mkvec 0 0 0) None))
               <> 0).
  { rewrite (_center_vertex_array_eq _ _ H), length_map.
    apply not_0_INR. destruct vertex_array; [contradiction | discriminate]. }
  unfold centroid in Hc. injection Hc as H0 H1 H2.
  repeat split.
  - apply (Rmult_eq_reg_r (/ INR (List.length
             (Object._center_vertex_array vertex_array (mkvec 0 0 0) None))));
      [rewrite Rmult_0_l; exact H0 | apply Rinv_neq_0_compat, Hn].
  - apply (Rmult_eq_reg_r (/ INR (List.length
             (Object._center_vertex_array vertex_array (mkvec 0 0 0) None))));
      [rewrite Rmult_0_l; exact H1 | apply Rinv_neq_0_compat, Hn].
  - apply (Rmult_eq_reg_r (/ INR (List.length
             (Object._center_vertex_array vertex_array (mkvec 0 0 0) None))));
      [rewrite Rmult_0_l; exact H2 | apply Rinv_neq_0_compat, Hn].
Qed.

Lemma centroid_after_update (self : Object.t) :
  Object._original_vertex_array self <> [] ->
  zero_sum (Object._original_vertex_array self) ->
  centroid (Object._translated_vertex_array
              (Object._update_transformed_vertices self))
  = mkvec (v0 (Object._position self)) (v1 (Object._position self))
          (- v2 (Object._position self)).
Proof.
  intros Hne Hz.
  change (Object._translated_vertex_array
            (Object._update_transformed_vertices self))
    with (Object.translated_of (Object._position self)
            (Object.transformed_of (Object._scale self) (Object._rotation self)
               (Object._original_vertex_array self))).
  apply centroid_translated_of.
  - intro H. apply (f_equal (@List.length vec3)) in H.
    rewrite transformed_of_length in H.
    destruct (Object._original_vertex_array self); [contradiction | discriminate].
  - apply transformed_of_zero_sum, Hz.
Qed.

Lemma Object_init_inv (C C' : Object.cls) (name : string)
    (vertex_array : list vec3) (face_array : list (list Z))
    (position rotation : option vec3) (scale : option Object.scale_arg)
    (material : option Material.t) (visible : option bool) (obj : Object.t) :
  Object.__init__ C name vertex_array face_array position rotation scale
    material visible = (Ok obj, C') ->
  exists pre,
    obj = Object._update_transformed_vertices pre
    /\ Object._original_vertex_array pre
       = Object._center_vertex_array vertex_array (mkvec 0 0 0) None
    /\ Object._position pre
       = (let p := match position with Some p => p | None => mkvec 0 0 0 end in
          set2 p (0 - v2 p))
    /\ Object._name pre = name
    /\ Object._id pre = Object.cls_next_memory_id C
    /\ C' = Object.mkcls (Object._global_memory C ++ [obj])
              (Object.cls_next_memory_id C)
    /\ any_named Object._name name (Object._global_memory C) = false.
Proof.
  unfold Object.__init__. destruct material as [material |]; [| discriminate].
  destruct (any_named Object._name name (Object._global_memory C)) eqn:Hn;
    [discriminate |].
  intro H. injection H as <- <-. eexists. split; [reflexivity |].
  repeat split.
Qed.

(** X10.  An object built from a non-empty mesh stands where its
    [position] argument says: the centroid of its world-space vertices is
    that position.  [set_position(x, y, z)] then moves the centroid to
    [(x, y, -z)]: the z it is given counts the other way. *)
Theorem X10_object_centroid_follows_position (C C' : Object.cls) (name : string)
    (vertex_array : list vec3) (face_array : list (list Z))
    (position : vec3) (rotation : option vec3)
    (scale : option Object.scale_arg) (material : option Material.t)
    (visible : option bool) (obj : Object.t)
    (Hvertex : vertex_array <> [])
    (Hinit : Object.__init__ C name vertex_array face_array (Some position)
               rotation scale material visible = (Ok obj, C')) :
  centroid (Object._translated_vertex_array obj) = position
  /\ forall x y z, x <> 0 -> y <> 0 -> z <> 0 ->
       centroid (Object._translated_vertex_array
                   (Object.set_position obj (Some x) (Some y) (Some z)))
       = mkvec x y (- z).
Proof.
  destruct (Object_init_inv _ _ _ _ _ _ _ _ _ _ _ Hinit)
    as (pre & -> & Ho & Hp & _).
  assert (Hne : Object._center_vertex_array vertex_array (mkvec 0 0 0) None <> []).
  { rewrite (_center_vertex_array_eq _ _ Hvertex).
    destruct vertex_array; [contradiction | discriminate]. }
  pose proof (centred_zero_sum vertex_array Hvertex) as Hz.
  split.
  - rewrite centroid_after_update by (rewrite Ho; assumption).
    rewrite Hp. destruct position as [p0 p1 p2]. simpl. f_equal. ring.
  - intros x y z Hx Hy Hz'. unfold Object.set_position.
    rewrite (truthy_nonzero x Hx), (truthy_nonzero y Hy), (truthy_nonzero z Hz').
    rewrite centroid_after_update; [reflexivity | |]; simpl; rewrite Ho; assumption.
Qed.

Lemma X10_object_centroid_follows_position_witness :
  exists obj C',
    Object.__init__ Object.initial "tri" [mkvec 0 0 5; mkvec 3 0 9; mkvec 0 1 5]
      [[1; 2; 3]%Z] (Some (mkvec 0 0 5)) None None (Some sample_material) None
    = (Ok obj, C')
    /\ centroid (Object._translated_vertex_array obj) = mkvec 0 0 5
    /\ centroid (Object._translated_vertex_array
                   (Object.set_position obj (Some 1) (Some 1) (Some 5)))
       = mkvec 1 1 (- 5).
Proof.
  eexists. eexists. split; [reflexivity |].
  assert (Hv : [mkvec 0 0 5; mkvec 3 0 9; mkvec 0 1 5] <> []) by discriminate.
  destruct (X10_object_centroid_follows_position Object.initial _ "tri" _
              [[1; 2; 3]%Z] (mkvec 0 0 5) None None (Some sample_material) None
              _ Hv eq_refl) as (H1 & H2).
  split; [exact H1 |]. apply H2; lra.
Defined.

Lemma translated_of_shift (position : vec3) (x y z : R) (transformed : list vec3) :
  Object.translated_of
    (mkvec (v0 position + x) (v1 position + y) (v2 position + z)) transformed
  = map (fun vertex => mkvec (v0 vertex + x) (v1 vertex + y) (v2 vertex - z))
        (Object.translated_of position transformed).
Proof.
  unfold Object.translated_of. rewrite map_map. apply map_ext.
  intros [a b c]. simpl. f_equal; ring.
Qed.

(** [_update_transformed_vertices] rewrites two buffers and nothing
    else, from fields it leaves alone. *)
Lemma update_fields (self : Object.t) :
  Object._position (Object._update_transformed_vertices self)
    = Object._position self
  /\ Object._rotation (Object._update_transformed_vertices self)
    = Object._rotation self
  /\ Object._scale (Object._update_transformed_vertices self)
    = Object._scale self.
Proof. destruct self. repeat split. Qed.

Lemma update_with_position_update (self : Object.t) (p : vec3) :
  Object._update_transformed_vertices
    (Object.with_position (Object._update_transformed_vertices self) p)
  = Object._update_transformed_vertices (Object.with_position self p).
Proof. destruct self. reflexivity. Qed.

Lemma update_with_rotation_update (self : Object.t) (r : vec3) :
  Object._update_transformed_vertices
    (Object.with_rotation (Object._update_transformed_vertices self) r)
  = Object._update_transformed_vertices (Object.with_rotation self r).
Proof. destruct self. reflexivity. Qed.

Lemma with_position_twice (self : Object.t) (p q : vec3) :
  Object.with_position (Object.with_position self p) q
  = Object.with_position self q.
Proof. destruct self. reflexivity. Qed.

Lemma with_rotation_twice (self : Object.t) (p q : vec3) :
  Object.with_rotation (Object.with_rotation self p) q
  = Object.with_rotation self q.
Proof. destruct self. reflexivity. Qed.

Lemma with_position_same (self : Object.t) :
  Object.with_position self (Object._position self) = self.
Proof. destruct self. reflexivity. Qed.

Lemma with_rotation_same (self : Object.t) :
  Object.with_rotation self (Object._rotation self) = self.
Proof. destruct self. reflexivity. Qed.

Lemma Object_translate_eq (self : Object.t) (x y z : R) :
  Object.translate self (Some x) (Some y) (Some z)
  = Object._update_transformed_vertices
      (Object.with_position self
         (mkvec (v0 (Object._position self) + x) (v1 (Object._position self) + y)
                (v2 (Object._position self) + z))).
Proof.
  unfold Object.translate. do 2 f_equal.
  destruct (Object._position self) as [p0 p1 p2]. unfold set0, set1, set2, truthy.
  destruct (Req_dec_T x 0) as [-> | _]; destruct (Req_dec_T y 0) as [-> | _];
    destruct (Req_dec_T z 0) as [-> | _]; simpl; f_equal; ring.
Qed.

(** X11.  [Object.translate(x, y, z)] moves every world-space vertex by
    [(x, y, -z)] (the z of an object counts against the world z), leaves
    the transformed buffer as it is, and is undone by the opposite
    translation. *)
Theorem X11_object_translate_moves_vertices (self : Object.t) (x y z : R) :
  let moved := Object.translate self (Some x) (Some y) (Some z) in
  Object._translated_vertex_array moved
  = map (fun vertex => mkvec (v0 vertex + x) (v1 vertex + y) (v2 vertex - z))
        (Object._translated_vertex_array
           (Object._update_transformed_vertices self))
  /\ Object._transformed_vertex_array moved
     = Object._transformed_vertex_array
         (Object._update_transformed_vertices self)
  /\ Object.translate moved (Some (- x)) (Some (- y)) (Some (- z))
     = Object._update_transformed_vertices self.
Proof.
  cbv zeta. rewrite !Object_translate_eq. split; [| split].
  - apply translated_of_shift.
  - reflexivity.
  - rewrite (proj1 (update_fields _)), update_with_position_update,
      with_position_twice.
    transitivity (Object._update_transformed_vertices
                    (Object.with_position self (Object._position self)));
      [| rewrite with_position_same; reflexivity].
    apply f_equal. apply f_equal.
    destruct self as [n fa o tf tl cp fn [p0 p1 p2] r s m v sc i ni].
    cbn [Object._position Object.with_position v0 v1 v2]. f_equal; ring.
Qed.

Lemma Object_rotate_eq (self : Object.t) (x y z : R) :
  Object.rotate self (Some x) (Some y) (Some z)
  = Object._update_transformed_vertices
      (Object.with_rotation self
         (mkvec (v0 (Object._rotation self) + x) (v1 (Object._rotation self) + y)
                (v2 (Object._rotation self) + z))).
Proof.
  unfold Object.rotate. do 2 f_equal.
  destruct (Object._rotation self) as [r0 r1 r2]. unfold set0, set1, set2, truthy.
  destruct (Req_dec_T x 0) as [-> | _]; destruct (Req_dec_T y 0) as [-> | _];
    destruct (Req_dec_T z 0) as [-> | _]; simpl; f_equal; ring.
Qed.

(** X12.  [Object.rotate] adds its arguments to the stored rotation, an
    argument [0] included; rotating by three angles and then by their
    opposites gives back the object with all its buffers. *)
Theorem X12_object_rotate_adds_and_undoes (self : Object.t) (x y z : R) :
  let turned := Object.rotate self (Some x) (Some y) (Some z) in
  Object._rotation turned
  = mkvec (v0 (Object._rotation self) + x) (v1 (Object._rotation self) + y)
          (v2 (Object._rotation self) + z)
  /\ Object.rotate turned (Some (- x)) (Some (- y)) (Some (- z))
     = Object._update_transformed_vertices self.
Proof.
  cbv zeta. rewrite !Object_rotate_eq. split; [reflexivity |].
  rewrite (proj1 (proj2 (update_fields _))), update_with_rotation_update,
    with_rotation_twice.
  transitivity (Object._update_transformed_vertices
                  (Object.with_rotation self (Object._rotation self)));
    [| rewrite with_rotation_same; reflexivity].
  apply f_equal. apply f_equal.
  destruct self as [n fa o tf tl cp fn p [r0 r1 r2] s m v sc i ni].
  cbn [Object._rotation Object.with_rotation v0 v1 v2]. f_equal; ring.
Qed.

Lemma transformed_of_scaled (scale rotation : vec3) (k : R)
    (original : list vec3) :
  Object.transformed_of
    (mkvec (v0 scale * k) (v1 scale * k) (v2 scale * k)) rotation original
  = map (vmap (fun c => k * c)) (Object.transformed_of scale rotation original).
Proof.
  unfold Object.transformed_of, Object._rotate_x, Object._rotate_y,
    Object._rotate_z.
  rewrite !map_map. apply map_ext. intros [x y z]. unfold vmap. simpl.
  f_equal; ring.
Qed.

(** X13.  [scale(k, uniform=True)] multiplies every vertex of the
    transformed buffer by [k], whatever the rotation of the object and
    whatever is passed for the other two multipliers; without [uniform], a
    multiplier left out makes the call raise [TypeError]. *)
Theorem X13_uniform_scale_multiplies_vertices (self : Object.t) (k : R)
    (y z : option R) :
  (exists scaled,
     Object.scale self (Some k) y z true = Ok scaled
     /\ Object._transformed_vertex_array scaled
        = map (vmap (fun c => k * c))
              (Object._transformed_vertex_array
                 (Object._update_transformed_vertices self)))
  /\ Object.scale self (Some k) None z false = Raise TypeError
  /\ Object.scale self (Some k) y None false = Raise TypeError.
Proof.
  split; [| split].
  - eexists. split; [reflexivity |].
    apply (transformed_of_scaled (Object._scale self)).
  - reflexivity.
  - destruct y; reflexivity.
Qed.

(** X14.  [update_vertex_array] with a non-empty mesh re-centres it: the
    buffers get the length of the new mesh and the centroid of the
    world-space buffer is the stored position with its z negated.  With no
    face list, or an empty one, the faces stay those of the old mesh. *)
Theorem X14_update_vertex_array_recentres (self : Object.t)
    (new_vertex_array : list vec3) (new_face_array : option (list (list Z)))
    (Hvertex : new_vertex_array <> []) :
  let updated := Object.update_vertex_array self new_vertex_array new_face_array in
  List.length (Object._translated_vertex_array updated)
    = List.length new_vertex_array
  /\ centroid (Object._translated_vertex_array updated)
     = mkvec (v0 (Object._position self)) (v1 (Object._position self))
             (- v2 (Object._position self))
  /\ (new_face_array = None \/ new_face_array = Some [] ->
      Object._face_array updated = Object._face_array self).
Proof.
  cbv zeta. unfold Object.update_vertex_array.
  assert (Hne : Object._center_vertex_array new_vertex_array (mkvec 0 0 0) None
                <> []).
  { rewrite (_center_vertex_array_eq _ _ Hvertex).
    destruct new_vertex_array; [contradiction | discriminate]. }
  split; [| split].
  - cbn [Object._update_transformed_vertices Object._update_translated_vertices
         Object.with_buffers Object._translated_vertex_array
         Object._transformed_vertex_array Object._original_vertex_array
         Object._position Object._scale Object._rotation].
    unfold Object.translated_of.
    rewrite length_map, transformed_of_length,
      (_center_vertex_array_eq _ _ Hvertex), length_map.
    reflexivity.
  - rewrite centroid_after_update; [reflexivity | exact Hne |].
    apply centred_zero_sum. exact Hvertex.
  - intros [-> | ->]; reflexivity.
Qed.

Lemma X14_update_vertex_array_recentres_witness :
  centroid (Object._translated_vertex_array
              (Object.update_vertex_array sample_near
                 [mkvec 0 0 5; mkvec 3 0 9; mkvec 0 1 5] None))
  = mkvec 0 1 (- - 4)
  /\ Object._face_array
       (Object.update_vertex_array sample_near
          [mkvec 0 0 5; mkvec 3 0 9; mkvec 0 1 5] (Some []))
     = [[1; 2; 3]%Z].
Proof.
  assert (Hv : [mkvec 0 0 5; mkvec 3 0 9; mkvec 0 1 5] <> []) by discriminate.
  split.
  - exact (proj1 (proj2 (X14_update_vertex_array_recentres sample_near _ None Hv))).
  - apply (proj2 (proj2 (X14_update_vertex_array_recentres sample_near _
                           (Some []) Hv))).
    right. reflexivity.
Defined.

(* ================================================================== *)
(** * Normals *)

Lemma sum_squares_nonneg (v : vec3) : 0 <= v0 v * v0 v + v1 v * v1 v + v2 v * v2 v.
Proof. nra. Qed.

(** X15.  [normalize_vector] returns the zero vector when the length of
    its argument is below [1e-6], and otherwise a unit vector of which the
    argument is the multiple by its length. *)
Theorem X15_normalize_vector_unit_or_zero (vector : vec3) :
  let norm := sqrt (v0 vector * v0 vector + v1 vector * v1 vector
                    + v2 vector * v2 vector) in
  let n := Object.normalize_vector vector in
  (norm < 1 / 1000000 /\ n = mkvec 0 0 0)
  \/ (1 / 1000000 <= norm /\ vdot n n = 1 /\ vector = vmap (fun c => norm * c) n).
Proof.
  cbv zeta. unfold Object.normalize_vector.
  set (norm := sqrt _).
  destruct (Rltb norm (1 / 1000000)) eqn:Hc.
  - left. apply Rltb_true_iff in Hc. split; [exact Hc | reflexivity].
  - right. apply Rltb_false_le in Hc. split; [exact Hc |].
    assert (Hn : norm <> 0) by lra.
    assert (Hsq : norm * norm = v0 vector * v0 vector + v1 vector * v1 vector
                                + v2 vector * v2 vector)
      by (apply sqrt_sqrt, sum_squares_nonneg).
    destruct vector as [x y z]. unfold vdot, vmap. simpl in *. split.
    + replace (x / norm * (x / norm) + y / norm * (y / norm) + z / norm * (z / norm))
        with ((x * x + y * y + z * z) / (norm * norm)) by (field; exact Hn).
      rewrite <- Hsq. field. exact Hn.
    + f_equal; field; exact Hn.
Qed.

Lemma normalize_vector_perp (v w : vec3) :
  vdot v w = 0 -> vdot (Object.normalize_vector v) w = 0.
Proof.
  intro H. unfold Object.normalize_vector.
  destruct (Rltb _ _).
  - unfold vdot. simpl. ring.
  - unfold vdot, vmap in *. simpl. unfold Rdiv.
    transitivity ((v0 v * v0 w + v1 v * v1 w + v2 v * v2 w)
                  * / sqrt (v0 v * v0 v + v1 v * v1 v + v2 v * v2 v));
      [ring | rewrite H; ring].
Qed.

(** X16.  [calculate_normal] raises [IndexError] on fewer than three
    vertices; on three or more it returns a vector perpendicular to the two
    edges that leave the first vertex towards the second and the third. *)
Theorem X16_calculate_normal_perpendicular (face_vertices : list vec3) :
  ((List.length face_vertices < 3)%nat ->
   Object.calculate_normal face_vertices = Raise IndexError)
  /\ (forall a b c rest, face_vertices = a :: b :: c :: rest ->
      exists n,
        Object.calculate_normal face_vertices = Ok n
        /\ vdot n (vsub b a) = 0 /\ vdot n (vsub c a) = 0).
Proof.
  split.
  - unfold Object.calculate_normal.
    destruct face_vertices as [| a [| b [| c rest]]]; intro H.
    + rewrite (py_index_beyond [] 1) by (simpl; lia). reflexivity.
    + rewrite (py_index_beyond [a] 1) by (simpl; lia). reflexivity.
    + rewrite (py_index_nth [a; b] 1 b), (py_index_nth [a; b] 0 a),
        (py_index_beyond [a; b] 2) by (simpl; (lia || reflexivity)).
      reflexivity.
    + simpl in H. lia.
  - intros a b c rest ->. eexists. unfold Object.calculate_normal.
    rewrite (py_index_nth (a :: b :: c :: rest) 1 b),
      (py_index_nth (a :: b :: c :: rest) 0 a),
      (py_index_nth (a :: b :: c :: rest) 2 c) by (lia || reflexivity).
    cbn [bind]. split; [reflexivity |].
    split; apply normalize_vector_perp; unfold vdot, vsub, vzip; simpl; ring.
Qed.

Lemma X16_calculate_normal_perpendicular_witness :
  Object.calculate_normal [mkvec 0 0 5; mkvec 3 0 9] = Raise IndexError
  /\ exists n,
       Object.calculate_normal [mkvec 0 0 5; mkvec 3 0 9; mkvec 0 1 5] = Ok n
       /\ vdot n (vsub (mkvec 3 0 9) (mkvec 0 0 5)) = 0
       /\ vdot n (vsub (mkvec 0 1 5) (mkvec 0 0 5)) = 0.
Proof.
  split.
  - apply (proj1 (X16_calculate_normal_perpendicular
                    [mkvec 0 0 5; mkvec 3 0 9])).
    simpl. lia.
  - exact (proj2 (X16_calculate_normal_perpendicular
                    [mkvec 0 0 5; mkvec 3 0 9; mkvec 0 1 5])
             _ _ _ _ eq_refl).
Defined.

(* ================================================================== *)
(** * Colours *)

Lemma py_pow_nonneg (a b p : R) : py_pow a b = Ok p -> 0 <= p.
Proof.
  unfold py_pow. destruct (Req_dec_T a 0).
  - destruct (Req_dec_T b 0); [intro H; injection H as <-; lra |].
    destruct (Rltb 0 b); [intro H; injection H as <-; lra | discriminate].
  - intro H. injection H as <-. unfold Rpower. left. apply exp_pos.
Qed.

Lemma py_max_zero_nonneg (a : R) : 0 <= py_max a 0.
Proof. unfold py_max, Rltb. destruct (Rlt_dec a 0); lra. Qed.

Lemma py_min_255_range (x : R) : 0 <= x -> 0 <= py_min 255 x <= 255.
Proof. intro H. unfold py_min, Rltb. destruct (Rlt_dec x 255); lra. Qed.

Lemma channel_nonneg (m k c : R) : 0 <= m -> 0 <= k -> 0 <= c -> 0 <= m * k * c / 255.
Proof.
  intros Hm Hk Hc. unfold Rdiv.
  apply Rmult_le_pos; [| lra].
  apply Rmult_le_pos; [| exact Hc].
  apply Rmult_le_pos; assumption.
Qed.

Lemma light_step_rgb (face_vertices : list vec3) (f0 : vec3)
    (normalized_normal camera_position : vec3) (material : Material.t)
    (color : vec3) (light : Light.t) :
  py_index face_vertices 0 = Ok f0 ->
  0 <= Material.specular_coefficient material ->
  nonneg (Material.diffuse_color material) ->
  nonneg (Material.specular_color material) ->
  nonneg (Light.color light) -> 0 <= Light.intensity light ->
  nonneg color ->
  exists color',
    Object.light_step face_vertices normalized_normal camera_position material
      color light = Ok color'
    /\ rgb color'.
Proof.
  intros Hf0 Hk (Hd0 & Hd1 & Hd2) (Hs0 & Hs1 & Hs2) (Hl0 & Hl1 & Hl2) Hi
    (Hc0 & Hc1 & Hc2).
  unfold Object.light_step. rewrite Hf0. cbn [bind].
  match goal with
  | |- context [py_pow ?a ?b] =>
      destruct (py_pow_defined a b Hk) as [p Hp];
      pose proof (py_pow_nonneg a b p Hp) as Hp0
  end.
  rewrite Hp. cbn [bind].
  match goal with
  | |- context [py_div p (sqrt ?s + 1)] =>
      pose proof (sqrt_pos s) as Hsq; set (distance := sqrt s) in *
  end.
  rewrite py_div_nonzero by lra. cbn [bind].
  eexists. split; [reflexivity |].
  match goal with
  | |- context [py_max ?a 0 * Light.intensity light] =>
      pose proof (py_max_zero_nonneg a) as Hdot; set (dot := py_max a 0) in *
  end.
  assert (Hsi : 0 <= p / (distance + 1)).
  { unfold Rdiv. apply Rmult_le_pos; [exact Hp0 |].
    left. apply Rinv_0_lt_compat. lra. }
  assert (Hdi : 0 <= dot * Light.intensity light) by (apply Rmult_le_pos; assumption).
  unfold rgb, vzip. simpl.
  repeat split; apply py_min_255_range;
    repeat apply Rplus_le_le_0_compat; try assumption;
    apply channel_nonneg; assumption.
Qed.

Lemma light_loop_rgb (face_vertices : list vec3) (f0 : vec3)
    (normalized_normal camera_position : vec3) (material : Material.t)
    (lights : list Light.t) :
  py_index face_vertices 0 = Ok f0 ->
  0 <= Material.specular_coefficient material ->
  nonneg (Material.diffuse_color material) ->
  nonneg (Material.specular_color material) ->
  Forall (fun light => nonneg (Light.color light) /\ 0 <= Light.intensity light)
         lights ->
  forall color, rgb color ->
  exists color',
    Object.light_loop face_vertices normalized_normal camera_position material
      color lights = Ok color'
    /\ rgb color'.
Proof.
  intros Hf0 Hk Hd Hs Hl.
  induction Hl as [| light lights [Hlc Hli] _ IH]; intros color Hc; simpl.
  - eauto.
  - destruct (light_step_rgb face_vertices f0 normalized_normal camera_position
                material color light Hf0 Hk Hd Hs Hlc Hli)
      as (color1 & H1 & Hrgb1).
    { destruct Hc as (H0 & H1 & H2). repeat split; lra. }
    rewrite H1. cbn [bind]. apply IH. exact Hrgb1.
Qed.

Lemma py_int_rgb (c : R) : 0 <= c <= 255 -> (0 <= py_int c <= 255)%Z.
Proof.
  intros [H0 H255]. unfold py_int. rewrite Rleb_le by exact H0.
  destruct (base_Int_part c) as [Hle Hgt]. split.
  - assert (H : (-1 < Int_part c)%Z) by (apply lt_IZR; simpl; lra). lia.
  - apply le_IZR. lra.
Qed.

(** X17.  With a specular exponent that is not negative, material and
    scene ambient colours between 0 and 255, and no negative diffuse,
    specular or light colour or intensity, [compute_lighting] returns (it
    does not raise) on every face that has a vertex, for any list of
    lights, and each channel of the colour lies between 0 and 255, so that
    the three integers handed to [fillcolor] do too. *)
Theorem X17_compute_lighting_gives_rgb (E : Object.env)
    (face_vertices : list vec3) (f0 normal : vec3) (lights : list Light.t)
    (camera_position : vec3) (material : Material.t)
    (Hf0 : py_index face_vertices 0 = Ok f0)
    (Hexponent : 0 <= Material.specular_coefficient material)
    (Hambient : rgb (Material.ambient_color material))
    (Hscene : rgb (Object.e_ambient_light E))
    (Hdiffuse : nonneg (Material.diffuse_color material))
    (Hspecular : nonneg (Material.specular_color material))
    (Hlights : Forall (fun light => nonneg (Light.color light)
                                    /\ 0 <= Light.intensity light) lights) :
  exists color,
    Object.compute_lighting E face_vertices normal lights camera_position
      material = Ok color
    /\ rgb color
    /\ Forall (fun channel => (0 <= channel <= 255)%Z)
              [py_int (v0 color); py_int (v1 color); py_int (v2 color)].
Proof.
  unfold Object.compute_lighting.
  destruct (light_loop_rgb face_vertices f0 (Object.normalize_vector normal)
              camera_position material lights Hf0 Hexponent Hdiffuse Hspecular
              Hlights
              (vzip (fun a l => a * l / 255) (Material.ambient_color material)
                    (Object.e_ambient_light E)))
    as (color & Hc & Hrgb).
  { destruct Hambient as (Ha0 & Ha1 & Ha2), Hscene as (Hs0 & Hs1 & Hs2).
    unfold rgb, vzip. simpl. repeat split; unfold Rdiv; nra. }
  exists color. split; [exact Hc |]. split; [exact Hrgb |].
  destruct Hrgb as (H0 & H1 & H2).
  repeat constructor; apply py_int_rgb; assumption.
Qed.

Lemma X17_compute_lighting_gives_rgb_witness :
  exists color,
    Object.compute_lighting sample_env sample_triangle (mkvec 0 0 (-1))
      [sample_light; sample_light] (mkvec 0 0 0) sample_material = Ok color
    /\ rgb color.
Proof.
  destruct (X17_compute_lighting_gives_rgb sample_env sample_triangle
              (mkvec 0 0 5) (mkvec 0 0 (-1)) [sample_light; sample_light]
              (mkvec 0 0 0) sample_material)
    as (color & Hc & Hrgb & _);
    try (unfold rgb, nonneg; simpl; lra); try reflexivity.
  - repeat constructor; simpl; lra.
  - exists color. split; assumption.
Defined.

(* ================================================================== *)
(** * Projection along a ray *)

(** X18.  In a render whose aspect ratio is width over height (as
    [_render] sets it), a vertex in view is projected by one factor for
    both axes, [width / (depth * tan(fov/2))]: the NDC round trip cancels
    and the height plays no part.  A vertex moved along the ray from the
    camera through it, and still in view, is projected onto the same
    point. *)
Theorem X18_projection_is_central (E : Object.env) (vert : vec3) (k : R)
    (Hwidth : Object.e_window_width E <> 0)
    (Hheight : Object.e_window_height E <> 0)
    (Haspect : Object.e_aspect_ratio E
               = Object.e_window_width E / Object.e_window_height E)
    (Hfov : tan (radians (Object.e_fov E) / 2) <> 0)
    (Hnear : 0 <= Object.e_near_plane E)
    (Hin : Object.e_near_plane E < v2 vert - v2 (Object.e_camera_position E)
           <= Object.e_far_plane E)
    (Hk : 0 < k)
    (Hkin : Object.e_near_plane E
            < k * (v2 vert - v2 (Object.e_camera_position E))
            <= Object.e_far_plane E) :
  let camera_position := Object.e_camera_position E in
  let x_offset := v0 vert - v0 camera_position in
  let y_offset := v1 vert - v1 camera_position in
  let z_offset := v2 vert - v2 camera_position in
  let factor :=
    Object.e_window_width E / (z_offset * tan (radians (Object.e_fov E) / 2)) in
  Object.perspective_transform E vert
  = Ok (Some (factor * x_offset, factor * y_offset))
  /\ Object.perspective_transform E
       (mkvec (v0 camera_position + k * x_offset)
              (v1 camera_position + k * y_offset)
              (v2 camera_position + k * z_offset))
     = Object.perspective_transform E vert.
Proof.
  cbv zeta.
  assert (Ha : Object.e_aspect_ratio E <> 0).
  { rewrite Haspect. unfold Rdiv.
    apply Rmult_integral_contrapositive_currified;
      [exact Hwidth | apply Rinv_neq_0_compat; exact Hheight]. }
  set (z := v2 vert - v2 (Object.e_camera_position E)) in *.
  assert (Hz : z <> 0) by lra.
  assert (Heq : Object.perspective_transform E vert
                = Ok (Some (Object.e_window_width E
                            / (z * tan (radians (Object.e_fov E) / 2))
                            * (v0 vert - v0 (Object.e_camera_position E)),
                            Object.e_window_width E
                            / (z * tan (radians (Object.e_fov E) / 2))
                            * (v1 vert - v1 (Object.e_camera_position E))))).
  { rewrite (perspective_transform_inside E vert Ha Hfov Hnear)
      by (fold z; lra).
    fold z. rewrite Haspect. do 3 f_equal; field; repeat split; assumption. }
  split; [exact Heq |].
  rewrite Heq.
  rewrite (perspective_transform_inside E _ Ha Hfov Hnear).
  2:{ simpl. fold z.
      replace (v2 (Object.e_camera_position E) + k * z
               - v2 (Object.e_camera_position E)) with (k * z) by ring.
      lra. }
  simpl. fold z. rewrite Haspect.
  do 3 f_equal; field; repeat split; try assumption; lra.
Qed.

Lemma X18_projection_is_central_witness :
  Object.perspective_transform sample_env (mkvec 2 2 10)
  = Object.perspective_transform sample_env (mkvec 1 1 5).
Proof.
  destruct sample_env_ready as (_ & Hf & Hn).
  assert (Hw : Object.e_window_width sample_env <> 0) by (simpl; lra).
  assert (Hh : Object.e_window_height sample_env <> 0) by (simpl; lra).
  assert (Hin : Object.e_near_plane sample_env
                < v2 (mkvec 1 1 5) - v2 (Object.e_camera_position sample_env)
                <= Object.e_far_plane sample_env) by (simpl; lra).
  assert (Hk : 0 < 2) by lra.
  assert (Hkin : Object.e_near_plane sample_env
                 < 2 * (v2 (mkvec 1 1 5) - v2 (Object.e_camera_position sample_env))
                 <= Object.e_far_plane sample_env) by (simpl; lra).
  destruct (X18_projection_is_central sample_env (mkvec 1 1 5) 2 Hw Hh eq_refl
              Hf Hn Hin Hk Hkin) as (_ & H).
  rewrite <- H. simpl. do 2 f_equal; ring.
Defined.

(* ================================================================== *)
(** * Face-level depth sort *)

Lemma mapM_keyed {A : Type} (f : A -> result R) (l : list A) :
  forall keyed,
    mapM (fun item => k <- f item ;; Ok (k, item)) l = Ok keyed ->
    map snd keyed = l /\ Forall (fun e => f (snd e) = Ok (fst e)) keyed.
Proof.
  induction l as [| a l IH]; intros keyed H; simpl in H.
  - injection H as <-. split; [reflexivity | constructor].
  - destruct (f a) as [k | e] eqn:Hf; cbn [bind] in H; [| discriminate].
    destruct (mapM _ l) as [keyed' | e]; cbn [bind] in H; [| discriminate].
    injection H as <-. destruct (IH keyed' eq_refl) as (Hs & Hall).
    split; [simpl; rewrite Hs; reflexivity |].
    constructor; [exact Hf | exact Hall].
Qed.

(** X19.  A [draw_faces] that completes has filled the faces in ascending
    order of their sort key (the opposite of the mean of the camera-space z
    of their vertices, shifted by the camera z): each face of the object is
    visited exactly once, farthest mean depth first. *)
Theorem X19_faces_are_filled_back_to_front (self self' : Object.t)
    (E : Object.env) (vertex_array : list vec3) (lights : list Light.t)
    (pointer pointer' : list Turtle.cmd)
    (Hdrawn : Object.draw_faces self E vertex_array lights pointer
              = Ok (self', pointer')) :
  exists (normals : list vec3) (order : list (R * (nat * list Z))),
    Permutation (map snd order)
      (Object.enumerate_from 0 (Object._face_array self))
    /\ Forall (fun e => Object.face_key E vertex_array (snd e) = Ok (fst e)) order
    /\ StronglySorted (fun a b => fst a <= fst b) order
    /\ Object.for_each
         (Object.fill_face self' E vertex_array normals lights) pointer
         (map snd order) = Ok pointer'.
Proof.
  unfold Object.draw_faces in Hdrawn.
  destruct (Object.precompute_normals self) as [normals | e]; cbn [bind] in Hdrawn;
    [| discriminate].
  destruct (mapM _ _) as [keyed | e] eqn:Hk; cbn [bind] in Hdrawn; [| discriminate].
  destruct (Object.for_each _ _ _) as [p | e] eqn:Hloop; cbn [bind] in Hdrawn;
    [| discriminate].
  injection Hdrawn as <- <-.
  destruct (mapM_keyed _ _ _ Hk) as (Hsnd & Hkeys).
  exists normals, (py_sorted fst false keyed).
  split; [| split; [| split]].
  - rewrite (py_sorted_perm fst false keyed), Hsnd. reflexivity.
  - eapply Permutation_Forall; [symmetry; apply py_sorted_perm | exact Hkeys].
  - apply py_sorted_ascending.
  - exact Hloop.
Qed.

(** The integer part of a whole colour channel. *)
Lemma py_int_whole (c : R) (z : Z) : c = IZR z -> (0 <= z)%Z -> py_int c = z.
Proof.
  intros -> Hz. unfold py_int. rewrite Rleb_le by (apply IZR_le; exact Hz).
  symmetry. apply Int_part_spec. lra.
Qed.

Lemma project_sample_env_wide (x y z px py : R) :
  1 / 10 < z <= 1000 ->
  px = x / z * 800 -> py = y / z * 800 ->
  Object.perspective_transform sample_env_wide (mkvec x y z)
  = Ok (Some (px, py)).
Proof. exact (project_wide (mkvec 25 25 25) x y z px py). Qed.

(** [draw_faces] on [sample_two_faces], seen through [sample_camera_wide]
    with no light but the ambient one: both triangles are filled, the one
    at depth 9 (a side of 800/9 pixels) before the one at depth 5 (a side
    of 160 pixels). *)
Lemma sample_two_faces_drawn :
  exists normals,
    Object.draw_faces sample_two_faces sample_env_wide
      (Object._translated_vertex_array sample_two_faces) [] []
    = Ok (Object.with_face_normals sample_two_faces normals,
          [Turtle.fillcolor [25; 25; 25]%Z; Turtle.penup; Turtle.goto 0 0;
           Turtle.begin_fill; Turtle.goto (800 / 9) 0;
           Turtle.goto 0 (800 / 9); Turtle.goto 0 0; Turtle.end_fill;
           Turtle.fillcolor [25; 25; 25]%Z; Turtle.penup; Turtle.goto 0 0;
           Turtle.begin_fill; Turtle.goto 160 0; Turtle.goto 0 160;
           Turtle.goto 0 0; Turtle.end_fill]).
Proof.
  unfold Object.draw_faces, Object.precompute_normals.
  change (Object._face_array sample_two_faces)
    with [[1; 2; 3]%Z; [4; 5; 6]%Z].
  change (Object._translated_vertex_array sample_two_faces)
    with [mkvec 0 0 5; mkvec 1 0 5; mkvec 0 1 5;
          mkvec 0 0 9; mkvec 1 0 9; mkvec 0 1 9].
  set (vertex_array := [mkvec 0 0 5; mkvec 1 0 5; mkvec 0 1 5;
                        mkvec 0 0 9; mkvec 1 0 9; mkvec 0 1 9]).
  assert (Hnear : mapM (fun i => py_index vertex_array (i - 1)) [1; 2; 3]%Z
                  = Ok [mkvec 0 0 5; mkvec 1 0 5; mkvec 0 1 5]).
  { cbn [mapM].
    rewrite (py_index_nth _ (1 - 1) (mkvec 0 0 5)),
      (py_index_nth _ (2 - 1) (mkvec 1 0 5)),
      (py_index_nth _ (3 - 1) (mkvec 0 1 5)) by (lia || reflexivity).
    reflexivity. }
  assert (Hfar : mapM (fun i => py_index vertex_array (i - 1)) [4; 5; 6]%Z
                 = Ok [mkvec 0 0 9; mkvec 1 0 9; mkvec 0 1 9]).
  { cbn [mapM].
    rewrite (py_index_nth _ (4 - 1) (mkvec 0 0 9)),
      (py_index_nth _ (5 - 1) (mkvec 1 0 9)),
      (py_index_nth _ (6 - 1) (mkvec 0 1 9)) by (lia || reflexivity).
    reflexivity. }
  (* the normals *)
  cbn [mapM].
  rewrite (py_index_nth _ (1 - 1) (mkvec 0 0 5)),
    (py_index_nth _ (2 - 1) (mkvec 1 0 5)),
    (py_index_nth _ (3 - 1) (mkvec 0 1 5)),
    (py_index_nth _ (4 - 1) (mkvec 0 0 9)),
    (py_index_nth _ (5 - 1) (mkvec 1 0 9)),
    (py_index_nth _ (6 - 1) (mkvec 0 1 9)) by (lia || reflexivity).
  cbn [bind firstn].
  unfold Object.calculate_normal.
  rewrite (py_index_nth _ 1 (mkvec 1 0 5)), (py_index_nth _ 0 (mkvec 0 0 5)),
    (py_index_nth _ 2 (mkvec 0 1 5)), (py_index_nth _ 1 (mkvec 1 0 9)),
    (py_index_nth _ 0 (mkvec 0 0 9)), (py_index_nth _ 2 (mkvec 0 1 9))
    by (lia || reflexivity).
  cbn [bind].
  set (n0 := Object.normalize_vector _). set (n1 := Object.normalize_vector _).
  exists [n0; n1].
  change (Object._face_array (Object.with_face_normals sample_two_faces [n0; n1]))
    with [[1; 2; 3]%Z; [4; 5; 6]%Z].
  (* the sort keys: -5 for the first face, -9 for the second *)
  cbn [Object.enumerate_from mapM]. unfold Object.face_key. cbn [snd mapM].
  rewrite (py_index_nth _ (1 - 1) (mkvec 0 0 5)),
    (py_index_nth _ (2 - 1) (mkvec 1 0 5)),
    (py_index_nth _ (3 - 1) (mkvec 0 1 5)),
    (py_index_nth _ (4 - 1) (mkvec 0 0 9)),
    (py_index_nth _ (5 - 1) (mkvec 1 0 9)),
    (py_index_nth _ (6 - 1) (mkvec 0 1 9)) by (lia || reflexivity).
  cbn [bind py_sorted fold_right insert_asc fst].
  rewrite Rleb_gt by (unfold Object.mean; simpl; lra).
  cbn [map snd Object.for_each].
  (* the far face, then the near face *)
  assert (Hcolor : forall face_vertices normal,
            Object.compute_lighting sample_env_wide face_vertices normal []
              (Object.e_camera_position sample_env_wide)
              (Object.material (Object.with_face_normals sample_two_faces
                                  [n0; n1]))
            = Ok (mkvec (255 * 25 / 255) (255 * 25 / 255) (255 * 25 / 255)))
    by reflexivity.
  assert (Hint : py_int (255 * 25 / 255) = 25%Z)
    by (apply py_int_whole; [simpl; field | lia]).
  rewrite (fill_face_drawn _ sample_env_wide vertex_array [n0; n1] [] []
             1 [4; 5; 6]%Z [mkvec 0 0 9; mkvec 1 0 9; mkvec 0 1 9]
             [Some (0, 0); Some (800 / 9, 0); Some (0, 800 / 9)] n1
             (mkvec (255 * 25 / 255) (255 * 25 / 255) (255 * 25 / 255))
             Hfar);
    [ | cbn [mapM];
        rewrite (project_sample_env_wide 0 0 9 0 0), (project_sample_env_wide 1 0 9 (800 / 9) 0),
          (project_sample_env_wide 0 1 9 0 (800 / 9)) by (lra || field);
        reflexivity
      | simpl; lia | reflexivity | apply Hcolor ].
  unfold Object.draw_filled_polygon at 1.
  cbn [Object.surviving]. rewrite py_index_head.
  cbn [bind v0 v1 v2 fst snd tl Object.gotos map app]. rewrite Hint.
  rewrite (fill_face_drawn _ sample_env_wide vertex_array [n0; n1] [] _
             0 [1; 2; 3]%Z [mkvec 0 0 5; mkvec 1 0 5; mkvec 0 1 5]
             [Some (0, 0); Some (160, 0); Some (0, 160)] n0
             (mkvec (255 * 25 / 255) (255 * 25 / 255) (255 * 25 / 255))
             Hnear);
    [ | cbn [mapM];
        rewrite (project_sample_env_wide 0 0 5 0 0), (project_sample_env_wide 1 0 5 160 0),
          (project_sample_env_wide 0 1 5 0 160) by (lra || field);
        reflexivity
      | simpl; lia | reflexivity | apply Hcolor ].
  unfold Object.draw_filled_polygon.
  cbn [Object.surviving]. rewrite py_index_head.
  cbn [bind v0 v1 v2 fst snd tl Object.gotos map app]. rewrite Hint.
  reflexivity.
Qed.

Lemma X19_faces_are_filled_back_to_front_witness :
  exists self' normals pointer',
    Object.draw_faces sample_two_faces sample_env_wide
      (Object._translated_vertex_array sample_two_faces) [] []
    = Ok (self', pointer')
    /\ pointer'
       = [Turtle.fillcolor [25; 25; 25]%Z; Turtle.penup; Turtle.goto 0 0;
          Turtle.begin_fill; Turtle.goto (800 / 9) 0;
          Turtle.goto 0 (800 / 9); Turtle.goto 0 0; Turtle.end_fill;
          Turtle.fillcolor [25; 25; 25]%Z; Turtle.penup; Turtle.goto 0 0;
          Turtle.begin_fill; Turtle.goto 160 0; Turtle.goto 0 160;
          Turtle.goto 0 0; Turtle.end_fill]
    /\ Object.for_each
         (Object.fill_face self' sample_env_wide
            (Object._translated_vertex_array sample_two_faces) normals [])
         [] [(1%nat, [4; 5; 6]%Z); (0%nat, [1; 2; 3]%Z)]
       = Ok pointer'.
Proof.
  destruct sample_two_faces_drawn as (ns & Hdrawn).
  destruct (X19_faces_are_filled_back_to_front _ _ _ _ _ _ _ Hdrawn)
    as (normals & order & Hperm & Hkeys & Hsorted & Hloop).
  eexists. exists normals. eexists.
  split; [exact Hdrawn |]. split; [reflexivity |].
  (* the keys of the two faces *)
  assert (Hk0 : Object.face_key sample_env_wide
                  (Object._translated_vertex_array sample_two_faces)
                  (0%nat, [1; 2; 3]%Z) = Ok (- Object.mean [5 + 0; 5 + 0; 5 + 0])).
  { unfold Object.face_key. cbn [snd mapM].
    rewrite (py_index_nth _ (1 - 1) (mkvec 0 0 5)),
      (py_index_nth _ (2 - 1) (mkvec 1 0 5)),
      (py_index_nth _ (3 - 1) (mkvec 0 1 5)) by (lia || reflexivity).
    reflexivity. }
  assert (Hk1 : Object.face_key sample_env_wide
                  (Object._translated_vertex_array sample_two_faces)
                  (1%nat, [4; 5; 6]%Z) = Ok (- Object.mean [9 + 0; 9 + 0; 9 + 0])).
  { unfold Object.face_key. cbn [snd mapM].
    rewrite (py_index_nth _ (4 - 1) (mkvec 0 0 9)),
      (py_index_nth _ (5 - 1) (mkvec 1 0 9)),
      (py_index_nth _ (6 - 1) (mkvec 0 1 9)) by (lia || reflexivity).
    reflexivity. }
  change (Object.enumerate_from 0 (Object._face_array sample_two_faces))
    with [(0%nat, [1; 2; 3]%Z); (1%nat, [4; 5; 6]%Z)] in Hperm.
  destruct order as [| [ka a] [| [kb b] [| ? ?]]];
    try (apply Permutation_length in Hperm; discriminate Hperm).
  cbn [map snd] in Hperm, Hloop.
  inversion Hkeys as [| ? ? Ha Hkeys']; subst.
  inversion Hkeys' as [| ? ? Hb _]; subst.
  inversion Hsorted as [| ? ? _ Hle]; subst.
  inversion Hle as [| ? ? Hab _]; subst.
  cbn [fst snd] in Ha, Hb, Hab.
  apply Permutation_length_2_inv in Hperm.
  destruct Hperm as [Heq | Heq]; injection Heq as <- <-.
  - rewrite Hk0 in Ha. rewrite Hk1 in Hb.
    injection Ha as <-. injection Hb as <-.
    unfold Object.mean in Hab. simpl in Hab. lra.
  - exact Hloop.
Defined.

(* ================================================================== *)
(** * The render mode *)

Lemma measure_visible (camera : Camera.t) (memory : list Object.t) :
  forall distances,
    Scene.measure camera memory = Ok distances ->
    map (fun od => Object.visible (fst od)) distances
    = map Object.visible memory.
Proof.
  unfold Scene.measure.
  induction memory as [| obj memory IH]; intros distances H; simpl in H.
  - injection H as <-. reflexivity.
  - unfold Object.get_distance_to_camera in H at 1.
    destruct (py_index _ 0) as [d | e]; cbn [bind fst snd] in H; [| discriminate].
    destruct (mapM _ memory) as [ds | e]; cbn [bind] in H; [| discriminate].
    injection H as <-. simpl. f_equal. apply IH. reflexivity.
Qed.

Lemma render_loop_invisible (W : Turtle.window) (camera : Camera.t)
    (ambient_light : vec3) (lights : list Light.t) (mode : string)
    (pointer : list Turtle.cmd) (distances : list (Object.t * R)) :
  Forall (fun od => Object.visible (fst od) = false) distances ->
  Scene.render_loop W camera ambient_light lights mode pointer distances
  = Ok (map fst distances, pointer).
Proof.
  induction 1 as [| [obj d] rest Hv _ IH]; simpl; [reflexivity |].
  simpl in Hv. unfold Object._render. rewrite Hv. cbn [negb bind fst snd].
  rewrite IH. reflexivity.
Qed.

Lemma render_loop_invalid_mode (W : Turtle.window) (camera : Camera.t)
    (ambient_light : vec3) (lights : list Light.t) (mode : string)
    (distances : list (Object.t * R)) :
  mode <> "wire"%string -> mode <> "face"%string ->
  Turtle.window_height W <> 0 ->
  Exists (fun od => Object.visible (fst od) = true) distances ->
  forall pointer,
    Scene.render_loop W camera ambient_light lights mode pointer distances
    = Raise (Turtle3DError "Invalid rendering mode. Choose from 'wire', 'face'.").
Proof.
  intros Hw Hf Hh Hex.
  apply String.eqb_neq in Hw. apply String.eqb_neq in Hf.
  assert (Hvis : forall obj pointer,
             Object.visible obj = true ->
             Object._render obj W pointer camera ambient_light lights mode
             = Raise (Turtle3DError
                        "Invalid rendering mode. Choose from 'wire', 'face'.")).
  { intros obj pointer Hv. unfold Object._render. rewrite Hv. cbn [negb].
    rewrite py_div_nonzero by exact Hh. cbn [bind]. rewrite Hw, Hf. reflexivity. }
  induction distances as [| [obj d] rest IH]; intro pointer.
  - inversion Hex.
  - simpl. destruct (Object.visible obj) eqn:Hv.
    + rewrite (Hvis obj pointer Hv). reflexivity.
    + unfold Object._render at 1. rewrite Hv. cbn [negb bind fst snd].
      rewrite IH; [reflexivity |].
      inversion Hex as [? ? Hhead | ? ? Htail]; subst; [| exact Htail].
      simpl in Hhead. congruence.
Qed.

(** X20.  [render_scene] looks at the mode only when it renders a visible
    object.  In a scene with an active camera whose objects all have a
    vertex: if every object is invisible the call completes and draws
    nothing, whatever the mode; if some object is visible (and the window
    has a height), a mode other than ['wire'] and ['face'] raises
    [Turtle3DError]. *)
Theorem X20_render_mode_checked_on_visible_objects (self : Scene.t)
    (camera : Camera.t) (W : Turtle.window) (mode : string)
    (Hcamera : Scene._active_camera self = Some camera)
    (Hvertices : forall obj, In obj (Scene._object_memory self) ->
                   Object._translated_vertex_array obj <> []) :
  ((forall obj, In obj (Scene._object_memory self) ->
      Object.visible obj = false) ->
   exists objs, Scene.render_scene self W mode = Ok (objs, []))
  /\ (mode <> "wire"%string -> mode <> "face"%string ->
      Turtle.window_height W <> 0 ->
      (exists obj, In obj (Scene._object_memory self)
                   /\ Object.visible obj = true) ->
      Scene.render_scene self W mode
      = Raise (Turtle3DError
                 "Invalid rendering mode. Choose from 'wire', 'face'.")).
Proof.
  destruct (measure_nearest camera (Scene._object_memory self) Hvertices)
    as (distances & Hm & _).
  pose proof (measure_visible _ _ _ Hm) as Hvis.
  pose proof (py_sorted_perm snd true distances) as Hp.
  unfold Scene.render_scene. rewrite Hcamera, Hm. cbn [bind].
  split.
  - intro Hall. eexists. apply render_loop_invisible.
    eapply Permutation_Forall; [symmetry; exact Hp |].
    apply Forall_forall. intros od Hod.
    assert (Hin : In (Object.visible (fst od))
                     (map (fun od => Object.visible (fst od)) distances))
      by (apply (in_map (fun od => Object.visible (fst od))); exact Hod).
    rewrite Hvis in Hin. apply in_map_iff in Hin.
    destruct Hin as (obj & <- & Hobj). apply Hall, Hobj.
  - intros Hw Hf Hh (obj & Hobj & Hv).
    apply render_loop_invalid_mode; try assumption.
    apply Exists_exists.
    assert (Hin : In true (map Object.visible (Scene._object_memory self)))
      by (rewrite <- Hv; apply in_map; exact Hobj).
    rewrite <- Hvis in Hin. apply in_map_iff in Hin.
    destruct Hin as (od & Hod & Hin).
    exists od. split; [| exact Hod].
    apply (Permutation_in od (Permutation_sym Hp)). exact Hin.
Qed.

Lemma X20_render_mode_checked_on_visible_objects_witness :
  (exists objs, Scene.render_scene sample_scene_hidden sample_window "solid"
                = Ok (objs, []))
  /\ Scene.render_scene sample_scene sample_window "solid"
     = Raise (Turtle3DError "Invalid rendering mode. Choose from 'wire', 'face'.").
Proof.
  split.
  - apply (X20_render_mode_checked_on_visible_objects sample_scene_hidden
             sample_camera sample_window "solid" eq_refl).
    + intros obj [<- | []]. discriminate.
    + intros obj [<- | []]. reflexivity.
  - apply (X20_render_mode_checked_on_visible_objects sample_scene
             sample_camera sample_window "solid" eq_refl).
    + intros obj [<- | [<- | [<- | []]]]; discriminate.
    + discriminate.
    + discriminate.
    + simpl. lra.
    + exists sample_mid. split; [left; reflexivity | reflexivity].
Defined.

(* ================================================================== *)
(** * The light registry: names and ids *)

Lemma any_named_false {A : Type} (get_name : A -> string) (name : string)
    (memory : list A) :
  any_named get_name name memory = false <-> ~ In name (map get_name memory).
Proof.
  unfold any_named. induction memory as [| a memory IH]; simpl.
  - tauto.
  - rewrite orb_false_iff, IH, String.eqb_neq. tauto.
Qed.

Lemma any_named_true {A : Type} (get_name : A -> string) (name : string)
    (memory : list A) :
  any_named get_name name memory = true <-> In name (map get_name memory).
Proof.
  unfold any_named. induction memory as [| a memory IH]; simpl.
  - split; [discriminate | tauto].
  - rewrite orb_true_iff, IH, String.eqb_eq. tauto.
Qed.

Lemma map_update_nth {A B : Type} (g : A -> B) (f : A -> A) (b : B) (i : nat)
    (l : list A) :
  (forall a, g (f a) = b) ->
  map g (update_nth f i l) = update_nth (fun _ => b) i (map g l).
Proof.
  intro H. revert i. induction l as [| a l IH]; intros [| i]; simpl;
    rewrite ?H, ?IH; reflexivity.
Qed.

Lemma In_update_nth {B : Type} (b x : B) (i : nat) (l : list B) :
  In x (update_nth (fun _ => b) i l) -> x = b \/ In x l.
Proof.
  revert i. induction l as [| a l IH]; intros [| i]; simpl; try tauto.
  - intros [<- | H]; auto.
  - intros [<- | H]; auto. destruct (IH i H); auto.
Qed.

Lemma NoDup_update_nth {B : Type} (b : B) (i : nat) (l : list B) :
  NoDup l -> ~ In b l -> NoDup (update_nth (fun _ => b) i l).
Proof.
  revert i. induction l as [| a l IH]; intros [| i] Hnd Hb; simpl;
    try constructor.
  - intro H. apply Hb. right. exact H.
  - inversion Hnd. assumption.
  - inversion Hnd as [| ? ? Ha Hl]; subst. intro H.
    destruct (In_update_nth _ _ _ _ H) as [-> | H']; [| contradiction].
    apply Hb. left. reflexivity.
  - inversion Hnd; subst. apply IH; [assumption |].
    intro H. apply Hb. right. exact H.
Qed.

Lemma NoDup_snoc {B : Type} (x : B) (l : list B) :
  NoDup l -> ~ In x l -> NoDup (l ++ [x]).
Proof.
  intros Hl Hx. apply (Permutation_NoDup (Permutation_cons_append l x)).
  constructor; assumption.
Qed.

(** X21.  The names of the lights in the global light memory stay
    pairwise distinct: neither a construction nor a renaming, whether it
    completes or raises, leaves two lights with one name. *)
Theorem X21_light_names_stay_distinct (C : Light.cls) (name : string)
    (position : vec3) (color : option vec3) (intensity : option R)
    (self : nat) (new_name : string)
    (Hdistinct : NoDup (map Light._name (Light._global_light_memory C))) :
  NoDup (map Light._name
           (Light._global_light_memory
              (snd (Light.__init__ C name position color intensity))))
  /\ NoDup (map Light._name
              (Light._global_light_memory
                 (snd (Light.change_name C self new_name)))).
Proof.
  split.
  - unfold Light.__init__.
    destruct (any_named Light._name name (Light._global_light_memory C)) eqn:Hn;
      [exact Hdistinct |].
    apply any_named_false in Hn. simpl. rewrite map_app. simpl.
    apply NoDup_snoc; assumption.
  - unfold Light.change_name.
    destruct (any_named Light._name new_name (Light._global_light_memory C))
      eqn:Hn; [exact Hdistinct |].
    apply any_named_false in Hn. simpl.
    rewrite (map_update_nth _ _ new_name) by reflexivity.
    apply NoDup_update_nth; assumption.
Qed.

Lemma X21_light_names_stay_distinct_witness :
  NoDup (map Light._name
           (Light._global_light_memory
              (snd (Light.__init__
                      (snd (Light.__init__ Light.initial "L1" (mkvec 0 0 (-10))
                              None None))
                      "L1" (mkvec 1 1 1) None None)))).
Proof.
  apply (X21_light_names_stay_distinct _ "L1" (mkvec 1 1 1) None None 0 "L2").
  apply (X21_light_names_stay_distinct Light.initial "L1" (mkvec 0 0 (-10))
           None None 0 "L2").
  constructor.
Defined.

Lemma nth_error_update_nth {A : Type} (f : A -> A) (i : nat) (l : list A) :
  nth_error (update_nth f i l) i = option_map f (nth_error l i)
  /\ forall j, j <> i -> nth_error (update_nth f i l) j = nth_error l j.
Proof.
  revert i. induction l as [| a l IH]; intros [| i]; simpl;
    try (split; [reflexivity | intros [| j] Hj; reflexivity]).
  - split; [reflexivity |]. intros [| j] Hj; [contradiction | reflexivity].
  - destruct (IH i) as (Hi & Hother). split; [exact Hi |].
    intros [| j] Hj; [reflexivity |]. simpl. apply Hother. congruence.
Qed.

Lemma In_update_nth_other {B : Type} (b x : B) (i : nat) (l : list B) :
  In x (update_nth (fun _ => b) i l) ->
  x = b \/ exists j, j <> i /\ nth_error l j = Some x.
Proof.
  revert i. induction l as [| a l IH]; intros [| i]; simpl; try tauto.
  - intros [<- | H]; [left; reflexivity |].
    right. apply In_nth_error in H. destruct H as (j & Hj).
    exists (S j). split; [discriminate | exact Hj].
  - intros [<- | H].
    + right. exists 0%nat. split; [discriminate | reflexivity].
    + destruct (IH i H) as [-> | (j & Hj & Hx)]; [left; reflexivity |].
      right. exists (S j). split; [congruence | exact Hx].
Qed.

(** X22.  Renaming a registered light to a name in use raises and
    changes nothing, its own current name included.  Renaming it to a free
    name gives it that name in the memory, leaves every other light as it
    was, and frees the old name: a light can then be constructed under
    it. *)
Theorem X22_light_change_name (C : Light.cls) (self : nat) (light : Light.t)
    (new_name : string)
    (Hself : nth_error (Light._global_light_memory C) self = Some light)
    (Hdistinct : NoDup (map Light._name (Light._global_light_memory C)))
    (Hfree : any_named Light._name new_name (Light._global_light_memory C)
             = false) :
  Light.change_name C self (Light._name light) = (Raise TypeError, C)
  /\ exists C',
       Light.change_name C self new_name = (Ok tt, C')
       /\ nth_error (map Light._name (Light._global_light_memory C')) self
          = Some new_name
       /\ (forall other, other <> self ->
             nth_error (Light._global_light_memory C') other
             = nth_error (Light._global_light_memory C) other)
       /\ (forall position color intensity,
             exists light2 C2,
               Light.__init__ C' (Light._name light) position color intensity
               = (Ok light2, C2)).
Proof.
  assert (Hin : In (Light._name light)
                   (map Light._name (Light._global_light_memory C))).
  { apply in_map. eapply nth_error_In. exact Hself. }
  split.
  - unfold Light.change_name.
    rewrite (proj2 (any_named_true _ _ _) Hin). reflexivity.
  - unfold Light.change_name. rewrite Hfree. eexists. split; [reflexivity |].
    cbn [Light._global_light_memory].
    destruct (nth_error_update_nth
                (fun l => Light.with_name l new_name) self
                (Light._global_light_memory C)) as (Hi & Hother).
    split; [| split; [exact Hother |]].
    + rewrite nth_error_map, Hi, Hself. reflexivity.
    + intros position color intensity.
      assert (Hold : any_named Light._name (Light._name light)
                       (update_nth (fun l => Light.with_name l new_name) self
                          (Light._global_light_memory C)) = false).
      { apply any_named_false.
        rewrite (map_update_nth _ _ new_name) by reflexivity.
        intro H. apply In_update_nth_other in H.
        destruct H as [Heq | (j & Hj & Hx)].
        - apply any_named_false in Hfree. rewrite <- Heq in Hfree.
          contradiction.
        - apply Hj. apply (proj1 (NoDup_nth_error _) Hdistinct).
          + apply nth_error_Some. congruence.
          + rewrite Hx, nth_error_map, Hself. reflexivity. }
      unfold Light.__init__. cbn [Light._global_light_memory]. rewrite Hold.
      eexists. eexists. reflexivity.
Qed.

Lemma X22_light_change_name_witness :
  exists L1 C1 C2,
    Light.__init__ Light.initial "L1" (mkvec 0 0 (-10)) None None = (Ok L1, C1)
    /\ Light.change_name C1 0 "L1" = (Raise TypeError, C1)
    /\ Light.change_name C1 0 "L2" = (Ok tt, C2)
    /\ map Light._name (Light._global_light_memory C2) = ["L2"%string].
Proof.
  eexists. eexists. eexists. split; [reflexivity |].
  match goal with
  | |- Light.change_name ?C1 _ _ = _ /\ _ =>
      destruct (X22_light_change_name C1 0 _ "L2" eq_refl) as (Hown & C' & Hok & _)
  end.
  - repeat constructor. simpl. tauto.
  - reflexivity.
  - split; [exact Hown |]. split; reflexivity.
Defined.

(** X23.  The id counters never advance: [self._next_memory_id += 1] binds
    the attribute on the instance, so two lights constructed one after the
    other receive the same [_id], and so do two objects. *)
Theorem X23_ids_are_not_unique (CL CL1 CL2 : Light.cls) (l1 l2 : Light.t)
    (n1 n2 : string) (p1 p2 : vec3) (c1 c2 : option vec3) (i1 i2 : option R)
    (CO CO1 CO2 : Object.cls) (o1 o2 : Object.t) (m1 m2 : string)
    (va1 va2 : list vec3) (fa1 fa2 : list (list Z)) (q1 q2 r1 r2 : option vec3)
    (s1 s2 : option Object.scale_arg) (mat1 mat2 : option Material.t)
    (vis1 vis2 : option bool)
    (Hl1 : Light.__init__ CL n1 p1 c1 i1 = (Ok l1, CL1))
    (Hl2 : Light.__init__ CL1 n2 p2 c2 i2 = (Ok l2, CL2))
    (Ho1 : Object.__init__ CO m1 va1 fa1 q1 r1 s1 mat1 vis1 = (Ok o1, CO1))
    (Ho2 : Object.__init__ CO1 m2 va2 fa2 q2 r2 s2 mat2 vis2 = (Ok o2, CO2)) :
  Light._id l1 = Light._id l2 /\ Object._id o1 = Object._id o2.
Proof.
  split.
  - unfold Light.__init__ in Hl1, Hl2.
    destruct (any_named _ n1 _); [discriminate |].
    destruct (any_named _ n2 _); [discriminate |].
    injection Hl1 as <- <-. injection Hl2 as <- _. reflexivity.
  - destruct (Object_init_inv _ _ _ _ _ _ _ _ _ _ _ Ho1)
      as (pre1 & -> & _ & _ & _ & Hid1 & -> & _).
    destruct (Object_init_inv _ _ _ _ _ _ _ _ _ _ _ Ho2)
      as (pre2 & -> & _ & _ & _ & Hid2 & _).
    destruct pre1, pre2. simpl in *. congruence.
Qed.

Lemma X23_ids_are_not_unique_witness :
  exists l1 l2 CL1 CL2 o1 o2 CO1 CO2,
    Light.__init__ Light.initial "Blue" (mkvec 0 0 (-20)) None None = (Ok l1, CL1)
    /\ Light.__init__ CL1 "Red" (mkvec 75 0 (-20)) None None = (Ok l2, CL2)
    /\ Object.__init__ Object.initial "a" [mkvec 0 0 5] [] None None None
         (Some sample_material) None = (Ok o1, CO1)
    /\ Object.__init__ CO1 "b" [mkvec 1 1 1] [] None None None
         (Some sample_material) None = (Ok o2, CO2)
    /\ Light._id l1 = Light._id l2 /\ Object._id o1 = Object._id o2.
Proof.
  do 8 eexists.
  split; [reflexivity |]. split; [reflexivity |].
  split; [reflexivity |]. split; [reflexivity |].
  eapply X23_ids_are_not_unique
    with (CL := Light.initial) (n1 := "Blue"%string) (p1 := mkvec 0 0 (-20))
         (c1 := None) (i1 := None) (n2 := "Red"%string) (p2 := mkvec 75 0 (-20))
         (c2 := None) (i2 := None)
         (CO := Object.initial) (m1 := "a"%string) (va1 := [mkvec 0 0 5])
         (fa1 := []) (q1 := None) (r1 := None) (s1 := None)
         (mat1 := Some sample_material) (vis1 := None)
         (m2 := "b"%string) (va2 := [mkvec 1 1 1]) (fa2 := []) (q2 := None)
         (r2 := None) (s2 := None) (mat2 := Some sample_material)
         (vis2 := None);
    reflexivity.
Defined.

(* ================================================================== *)
(** * Scene membership *)

Section MembershipFacts.
Import Membership.

Lemma upd_same {V : Type} (table : ref -> V) (r : ref) (v : V) :
  upd table r v r = v.
Proof. unfold upd. rewrite Nat.eqb_refl. reflexivity. Qed.

Lemma upd_other {V : Type} (table : ref -> V) (r r' : ref) (v : V) :
  r' <> r -> upd table r v r' = table r'.
Proof.
  intro H. unfold upd. destruct (Nat.eqb_spec r' r); [contradiction | reflexivity].
Qed.

Lemma list_remove_absent (x : ref) (l : list ref) :
  ~ In x l -> list_remove x l = Raise ValueError.
Proof.
  induction l as [| y l IH]; simpl; intro H; [reflexivity |].
  destruct (Nat.eqb_spec y x); [tauto |].
  rewrite IH by tauto. reflexivity.
Qed.

Lemma list_remove_present (x : ref) (l : list ref) :
  In x l ->
  exists l',
    list_remove x l = Ok l'
    /\ (NoDup l -> NoDup l' /\ forall y, In y l' <-> In y l /\ y <> x).
Proof.
  induction l as [| y l IH]; simpl; intro H; [contradiction |].
  destruct (Nat.eqb_spec y x) as [-> | Hne].
  - exists l. split; [reflexivity |]. intro Hnd.
    inversion Hnd as [| ? ? Hx Hl]; subst. split; [exact Hl |].
    intro z. split.
    + intro Hz. split; [right; exact Hz | intros ->; contradiction].
    + intros [[-> | Hz] Hzx]; [contradiction | exact Hz].
  - destruct IH as (l' & Hl' & Hprop); [tauto |].
    exists (y :: l'). rewrite Hl'. split; [reflexivity |]. intro Hnd.
    inversion Hnd as [| ? ? Hy Hl]; subst.
    destruct (Hprop Hl) as (Hnd' & Hin). split.
    + constructor; [| exact Hnd']. intro Hy'. apply Hin in Hy'. tauto.
    + intro z. simpl. rewrite Hin. split.
      * intros [<- | [Hz Hzx]]; [split; [left; reflexivity | congruence] | tauto].
      * intros [[<- | Hz] Hzx]; [left; reflexivity | tauto].
Qed.

Lemma list_remove_last (x : ref) (l : list ref) :
  ~ In x l -> list_remove x (l ++ [x]) = Ok l.
Proof.
  induction l as [| y l IH]; simpl; intro H.
  - rewrite Nat.eqb_refl. reflexivity.
  - destruct (Nat.eqb_spec y x); [tauto |].
    rewrite IH by tauto. reflexivity.
Qed.

(** An object in the memory has its own name, so the name test finds it. *)
Lemma name_test_member (h : heap) (scene object : ref) :
  In object (scene_object_memory h scene) ->
  existsb (fun obj => String.eqb (object_name h obj) (object_name h object))
    (scene_object_memory h scene) = true.
Proof.
  intro H. apply existsb_exists. exists object. split; [exact H |].
  apply String.eqb_refl.
Qed.

Lemma add_object_ok (h : heap) (scene object : ref) :
  existsb (fun obj => String.eqb (object_name h obj) (object_name h object))
    (scene_object_memory h scene) = false ->
  Scene.add_object h scene object
  = (Ok tt,
     set_object_scenes
       (set_scene_object_memory h scene (scene_object_memory h scene ++ [object]))
       object (object_scenes h object ++ [scene])).
Proof. intro H. unfold Scene.add_object. rewrite H. reflexivity. Qed.
End MembershipFacts.

(** X24.  [Scene.add_object] on an object none of whose namesakes is in
    the scene appends the object to the memory of the scene and the scene
    to the [_scenes] list of the object; adding the same object again, or
    any object of the same name, then raises ([TypeError], from
    [AlreadyInSceneError()] called without its argument) and changes
    nothing. *)
Theorem X24_add_object_once (h : Membership.heap) (scene object other : nat)
    (Hnew : existsb (fun obj => String.eqb (Membership.object_name h obj)
                                           (Membership.object_name h object))
              (Membership.scene_object_memory h scene) = false)
    (Hname : Membership.object_name h other = Membership.object_name h object) :
  exists h',
    Membership.Scene.add_object h scene object = (Ok tt, h')
    /\ Membership.scene_object_memory h' scene
       = Membership.scene_object_memory h scene ++ [object]
    /\ Membership.object_scenes h' object
       = Membership.object_scenes h object ++ [scene]
    /\ Membership.Scene.add_object h' scene object = (Raise TypeError, h')
    /\ Membership.Scene.add_object h' scene other = (Raise TypeError, h')
    /\ Membership.Object.add_to_scene h' object scene = (Raise TypeError, h').
Proof.
  eexists. split; [apply add_object_ok; exact Hnew |].
  cbn [Membership.scene_object_memory Membership.set_object_scenes
       Membership.set_scene_object_memory Membership.object_scenes
       Membership.object_name].
  rewrite !upd_same.
  assert (Hagain : forall o,
            Membership.object_name h o = Membership.object_name h object ->
            Membership.Scene.add_object
              (Membership.set_object_scenes
                 (Membership.set_scene_object_memory h scene
                    (Membership.scene_object_memory h scene ++ [object]))
                 object (Membership.object_scenes h object ++ [scene]))
              scene o
            = (Raise TypeError,
               Membership.set_object_scenes
                 (Membership.set_scene_object_memory h scene
                    (Membership.scene_object_memory h scene ++ [object]))
                 object (Membership.object_scenes h object ++ [scene]))).
  { intros o Ho. unfold Membership.Scene.add_object.
    cbn [Membership.scene_object_memory Membership.set_object_scenes
         Membership.set_scene_object_memory Membership.object_name].
    rewrite upd_same, existsb_app. simpl. rewrite Ho, String.eqb_refl.
    rewrite !orb_true_r. reflexivity. }
  split; [reflexivity |]. split; [reflexivity |].
  split; [apply Hagain; reflexivity |].
  split; [apply Hagain; exact Hname |].
  apply Hagain. reflexivity.
Qed.

Lemma X24_add_object_once_witness :
  exists h',
    Membership.Scene.add_object sample_heap 7%nat 0%nat = (Ok tt, h')
    /\ Membership.scene_object_memory h' 7%nat = [0%nat]
    /\ Membership.Scene.add_object h' 7%nat 0%nat = (Raise TypeError, h').
Proof.
  destruct (X24_add_object_once sample_heap 7%nat 0%nat 0%nat eq_refl eq_refl)
    as (h' & Hadd & Hmem & _ & Hagain & _).
  exists h'. split; [exact Hadd |]. split; [exact Hmem | exact Hagain].
Defined.

Section MembershipInvariant.
Import Membership.

Lemma remove_object_absent (h : heap) (scene object : ref) :
  ~ In object (scene_object_memory h scene) ->
  Scene.remove_object h scene object
  = (Raise (IDNotFoundError (object_id h object)), h).
Proof.
  intro H. unfold Scene.remove_object.
  rewrite (list_remove_absent _ _ H). reflexivity.
Qed.

Lemma remove_object_present (h : heap) (scene object : ref) :
  linked h -> In object (scene_object_memory h scene) ->
  exists memory scenes,
    list_remove object (scene_object_memory h scene) = Ok memory
    /\ list_remove scene (object_scenes h object) = Ok scenes
    /\ (forall y, In y memory <-> In y (scene_object_memory h scene) /\ y <> object)
    /\ (forall y, In y scenes <-> In y (object_scenes h object) /\ y <> scene)
    /\ NoDup memory /\ NoDup scenes
    /\ Scene.remove_object h scene object
       = (Ok tt,
          set_object_scenes (set_scene_object_memory h scene memory)
            object scenes).
Proof.
  intros (Hm & Hs & Hlink) Hin.
  destruct (list_remove_present _ _ Hin) as (memory & Hrm & Hpm).
  destruct (Hpm (Hm scene)) as (Hndm & Hinm).
  destruct (list_remove_present scene (object_scenes h object)
              (proj1 (Hlink scene object) Hin)) as (scenes & Hrs & Hps).
  destruct (Hps (Hs object)) as (Hnds & Hins).
  exists memory, scenes. repeat split; try assumption;
    try (apply Hinm; assumption); try (apply Hins; assumption);
    try (apply Hinm; tauto); try (apply Hins; tauto).
  unfold Scene.remove_object. rewrite Hrm.
  cbn [object_scenes set_scene_object_memory]. rewrite Hrs. reflexivity.
Qed.
End MembershipInvariant.

(** X25.  [Scene.add_object] and [Scene.remove_object] keep the two sides
    of membership in step: from a heap in which an object is in the memory
    of a scene exactly when the scene is in its [_scenes] list, and nothing
    is listed twice, every outcome of either call, completed or raised, is
    such a heap again. *)
Theorem X25_membership_stays_linked (h : Membership.heap) (scene object : nat)
    (Hlinked : linked h) :
  linked (snd (Membership.Scene.add_object h scene object))
  /\ linked (snd (Membership.Scene.remove_object h scene object)).
Proof.
  pose proof Hlinked as (Hm & Hs & Hlink).
  split.
  - unfold Membership.Scene.add_object.
    destruct (existsb _ _) eqn:Hname; [exact Hlinked |].
    assert (Ho : ~ In object (Membership.scene_object_memory h scene)).
    { intro H. rewrite (name_test_member _ _ _ H) in Hname. discriminate. }
    assert (Hsc : ~ In scene (Membership.object_scenes h object))
      by (rewrite <- Hlink; exact Ho).
    cbn [snd]. unfold linked.
    cbn [Membership.scene_object_memory Membership.object_scenes
         Membership.set_object_scenes Membership.set_scene_object_memory].
    split; [| split].
    + intro s0. destruct (Nat.eq_dec s0 scene) as [-> | Hne].
      * rewrite upd_same. apply NoDup_snoc; [apply Hm | exact Ho].
      * rewrite upd_other by exact Hne. apply Hm.
    + intro o0. destruct (Nat.eq_dec o0 object) as [-> | Hne].
      * rewrite upd_same. apply NoDup_snoc; [apply Hs | exact Hsc].
      * rewrite upd_other by exact Hne. apply Hs.
    + intros s0 o0. pose proof (Hlink s0 o0) as Hl.
      destruct (Nat.eq_dec s0 scene) as [Hes | Hns];
        destruct (Nat.eq_dec o0 object) as [Heo | Hno];
        subst;
        rewrite ?upd_same, ?upd_other by assumption;
        rewrite ?in_app_iff; simpl; intuition congruence.
  - destruct (in_dec Nat.eq_dec object (Membership.scene_object_memory h scene))
      as [Hin | Hout].
    + destruct (remove_object_present h scene object Hlinked Hin)
        as (memory & scenes & _ & _ & Hinm & Hins & Hndm & Hnds & ->).
      cbn [snd]. unfold linked.
      cbn [Membership.scene_object_memory Membership.object_scenes
           Membership.set_object_scenes Membership.set_scene_object_memory].
      split; [| split].
      * intro s0. destruct (Nat.eq_dec s0 scene) as [-> | Hne].
        -- rewrite upd_same. exact Hndm.
        -- rewrite upd_other by exact Hne. apply Hm.
      * intro o0. destruct (Nat.eq_dec o0 object) as [-> | Hne].
        -- rewrite upd_same. exact Hnds.
        -- rewrite upd_other by exact Hne. apply Hs.
      * intros s0 o0. pose proof (Hlink s0 o0) as Hl.
        destruct (Nat.eq_dec s0 scene) as [Hes | Hns];
          destruct (Nat.eq_dec o0 object) as [Heo | Hno];
          subst;
          rewrite ?upd_same, ?upd_other by assumption;
          rewrite ?Hinm, ?Hins; intuition congruence.
    + rewrite (remove_object_absent _ _ _ Hout). exact Hlinked.
Qed.

Lemma sample_heap_linked : linked sample_heap.
Proof.
  repeat split; simpl; try constructor; tauto.
Qed.

Lemma X25_membership_stays_linked_witness :
  linked (snd (Membership.Scene.add_object sample_heap 7%nat 0%nat)).
Proof.
  exact (proj1 (X25_membership_stays_linked sample_heap 7%nat 0%nat
                  sample_heap_linked)).
Defined.

Section MembershipRoundTrip.
Import Membership.

Lemma upd_restore {V : Type} (table : ref -> V) (r : ref) (v : V) (r' : ref) :
  upd (upd table r v) r (table r) r' = table r'.
Proof.
  unfold upd. destruct (Nat.eqb_spec r' r) as [-> | _]; reflexivity.
Qed.

Lemma add_object_completed (h h1 : heap) (scene object : ref) :
  Scene.add_object h scene object = (Ok tt, h1) ->
  existsb (fun obj => String.eqb (object_name h obj) (object_name h object))
    (scene_object_memory h scene) = false.
Proof.
  unfold Scene.add_object. destruct (existsb _ _); [| reflexivity].
  intro H. apply (f_equal fst) in H. discriminate H.
Qed.

Lemma find_first {A : Type} (f : A -> bool) (l : list A) (x : A) :
  find f l = Some x
  <-> exists before after,
        l = before ++ x :: after /\ f x = true
        /\ forall y, In y before -> f y = false.
Proof.
  induction l as [| a l IH]; simpl.
  - split; [discriminate |].
    intros (before & after & H & _). destruct before; discriminate H.
  - destruct (f a) eqn:Ha.
    + split.
      * intro H. injection H as <-. exists [], l.
        split; [reflexivity |]. split; [exact Ha |]. intros y [].
      * intros (before & after & H & Hx & Hb). destruct before as [| b before].
        -- simpl in H. injection H as ->. reflexivity.
        -- simpl in H. injection H as <- _.
           rewrite (Hb a (or_introl eq_refl)) in Ha. discriminate Ha.
    + rewrite IH. split.
      * intros (before & after & -> & Hx & Hb). exists (a :: before), after.
        split; [reflexivity |]. split; [exact Hx |].
        intros y [<- | Hy]; [exact Ha | apply Hb; exact Hy].
      * intros (before & after & H & Hx & Hb). destruct before as [| b before].
        -- simpl in H. injection H as -> _. rewrite Hx in Ha. discriminate Ha.
        -- simpl in H. injection H as <- ->. exists before, after.
           split; [reflexivity |]. split; [exact Hx |].
           intros y Hy. apply Hb. right. exact Hy.
Qed.
End MembershipRoundTrip.

(** X26.  Removing an object from a scene undoes adding it: when
    [Scene.add_object] completes on a heap whose memories and [_scenes]
    lists agree, [Scene.remove_object] of the same object from the same
    scene completes too and every memory and every [_scenes] list is as it
    was before the object was added. *)
Theorem X26_remove_object_undoes_add_object
    (h h1 : Membership.heap) (scene object : nat)
    (Hlinked : linked h)
    (Hadd : Membership.Scene.add_object h scene object = (Ok tt, h1)) :
  exists h2,
    Membership.Scene.remove_object h1 scene object = (Ok tt, h2)
    /\ same_membership h h2.
Proof.
  pose proof (add_object_completed _ _ _ _ Hadd) as Hnew.
  rewrite (add_object_ok _ _ _ Hnew) in Hadd. injection Hadd as <-.
  destruct Hlinked as (_ & _ & Hlink).
  assert (Ho : ~ In object (Membership.scene_object_memory h scene)).
  { intro H. rewrite (name_test_member _ _ _ H) in Hnew. discriminate. }
  assert (Hsc : ~ In scene (Membership.object_scenes h object))
    by (rewrite <- Hlink; exact Ho).
  eexists. split.
  - unfold Membership.Scene.remove_object.
    cbn [Membership.scene_object_memory Membership.set_object_scenes
         Membership.set_scene_object_memory Membership.object_scenes
         Membership.object_id].
    rewrite upd_same, (list_remove_last _ _ Ho).
    rewrite upd_same, (list_remove_last _ _ Hsc). reflexivity.
  - unfold same_membership.
    cbn [Membership.scene_object_memory Membership.set_object_scenes
         Membership.set_scene_object_memory Membership.object_scenes
         Membership.scene_light_memory Membership.light_scenes
         Membership.scene_active_camera].
    repeat split; intro r; try reflexivity.
    + unfold Membership.upd.
      destruct (Nat.eqb_spec r scene) as [-> | _]; reflexivity.
    + unfold Membership.upd.
      destruct (Nat.eqb_spec r object) as [-> | _]; reflexivity.
Qed.

Lemma X26_remove_object_undoes_add_object_witness :
  exists h2,
    Membership.Scene.remove_object
      (snd (Membership.Scene.add_object sample_heap 7%nat 0%nat)) 7%nat 0%nat
    = (Ok tt, h2)
    /\ same_membership sample_heap h2.
Proof.
  exact (X26_remove_object_undoes_add_object sample_heap _ 7%nat 0%nat
           sample_heap_linked eq_refl).
Defined.

(** X27.  On a heap whose memories and [_scenes] lists agree,
    [Object.remove_from_scene] is all or nothing.  Either the object is in
    the scene: the call completes, the object is out of the memory of the
    scene, the scene is out of its [_scenes] list, and the other members and
    the other scenes of the object stay.  Or the object is not in the
    scene: the call raises [IDNotFoundError] with the id of the object and
    the heap is unchanged. *)
Theorem X27_remove_from_scene_all_or_nothing
    (h : Membership.heap) (object scene : nat) (Hlinked : linked h) :
  (In object (Membership.scene_object_memory h scene)
   /\ exists h',
        Membership.Object.remove_from_scene h object scene = (Ok tt, h')
        /\ (forall y, In y (Membership.scene_object_memory h' scene)
                      <-> In y (Membership.scene_object_memory h scene)
                          /\ y <> object)
        /\ (forall s, In s (Membership.object_scenes h' object)
                      <-> In s (Membership.object_scenes h object)
                          /\ s <> scene))
  \/ (~ In object (Membership.scene_object_memory h scene)
      /\ Membership.Object.remove_from_scene h object scene
         = (Raise (IDNotFoundError (Membership.object_id h object)), h)).
Proof.
  unfold Membership.Object.remove_from_scene.
  destruct (in_dec Nat.eq_dec object (Membership.scene_object_memory h scene))
    as [Hin | Hout].
  - left. split; [exact Hin |].
    destruct (remove_object_present h scene object Hlinked Hin)
      as (memory & scenes & _ & _ & Hinm & Hins & _ & _ & ->).
    eexists. split; [reflexivity |].
    cbn [Membership.scene_object_memory Membership.object_scenes
         Membership.set_object_scenes Membership.set_scene_object_memory].
    rewrite !upd_same. split; assumption.
  - right. split; [exact Hout |].
    rewrite (remove_object_absent _ _ _ Hout). reflexivity.
Qed.

Lemma X27_remove_from_scene_all_or_nothing_witness :
  Membership.Object.remove_from_scene sample_heap 0%nat 7%nat
  = (Raise (IDNotFoundError 1), sample_heap).
Proof.
  destruct (X27_remove_from_scene_all_or_nothing sample_heap 0%nat 7%nat
              sample_heap_linked) as [[Hin _] | [_ H]].
  - destruct Hin.
  - exact H.
Defined.

(** X28.  [Scene.get_object_from_memory] returns an object exactly when it
    is the first member of the scene, in the order of adding, whose id is
    the one asked for, and raises [IDNotFoundError] with that id exactly
    when no member has it: of two members with one id, the later one is
    never returned. *)
Theorem X28_get_object_from_memory_first_match
    (h : Membership.heap) (scene : nat) (object_id : Z) :
  (forall object,
     Membership.Scene.get_object_from_memory h scene object_id = Ok object
     <-> exists before after,
           Membership.scene_object_memory h scene = before ++ object :: after
           /\ Membership.object_id h object = object_id
           /\ forall other, In other before ->
                            Membership.object_id h other <> object_id)
  /\ (Membership.Scene.get_object_from_memory h scene object_id
      = Raise (IDNotFoundError object_id)
      <-> forall other, In other (Membership.scene_object_memory h scene) ->
                        Membership.object_id h other <> object_id).
Proof.
  unfold Membership.Scene.get_object_from_memory. split.
  - intro object.
    destruct (find _ _) as [found |] eqn:Hfind.
    + split.
      * intro H. injection H as ->. apply find_first in Hfind.
        destruct Hfind as (before & after & Hmem & Hid & Hb).
        exists before, after. split; [exact Hmem |].
        split; [apply Z.eqb_eq; exact Hid |].
        intros other Ho. apply Z.eqb_neq. apply Hb. exact Ho.
      * intros (before & after & Hmem & Hid & Hb).
        assert (Hfind' : find (fun obj => Z.eqb (Membership.object_id h obj)
                                            object_id)
                           (Membership.scene_object_memory h scene)
                         = Some object).
        { apply find_first. exists before, after. split; [exact Hmem |].
          split; [apply Z.eqb_eq; exact Hid |].
          intros other Ho. apply Z.eqb_neq. apply Hb. exact Ho. }
        rewrite Hfind in Hfind'. injection Hfind' as ->. reflexivity.
    + split; [discriminate |].
      intros (before & after & Hmem & Hid & _).
      assert (Hin : In object (Membership.scene_object_memory h scene)).
      { rewrite Hmem, in_app_iff. right. left. reflexivity. }
      pose proof (find_none _ _ Hfind object Hin) as Hnone.
      apply Z.eqb_neq in Hnone. contradiction.
  - destruct (find _ _) as [found |] eqn:Hfind.
    + split; [discriminate |]. intro Hall.
      apply find_some in Hfind. destruct Hfind as (Hin & Hid).
      apply Z.eqb_eq in Hid. elim (Hall found Hin Hid).
    + split; [| reflexivity]. intros _ other Hin.
      apply Z.eqb_neq. exact (find_none _ _ Hfind other Hin).
Qed.

(** X29.  A scene has one camera slot, compared by reference.
    [Camera.add_to_scene] overwrites whatever camera the scene had, without
    an error; after that [Camera.remove_from_scene] by the overwritten
    camera raises [NoScenePermission] and leaves the slot alone, by the
    camera in the slot it empties the slot, and on the emptied slot it
    raises [NoScenePermission] again. *)
Theorem X29_camera_slot_last_one_wins
    (h : Membership.heap) (scene first second : nat)
    (Hdistinct : first <> second) :
  let h1 := Membership.Camera.add_to_scene
              (Membership.Camera.add_to_scene h first scene) second scene in
  Membership.scene_active_camera h1 scene = Some second
  /\ Membership.Camera.remove_from_scene h1 first scene
     = (Raise (NoScenePermission (Membership.scene_name h scene)
                 "_active_camera"), h1)
  /\ exists h2,
       Membership.Camera.remove_from_scene h1 second scene = (Ok tt, h2)
       /\ Membership.scene_active_camera h2 scene = None
       /\ Membership.Camera.remove_from_scene h2 second scene
          = (Raise (NoScenePermission (Membership.scene_name h scene)
                      "_active_camera"), h2).
Proof.
  intro h1. subst h1.
  unfold Membership.Camera.add_to_scene, Membership.Camera.remove_from_scene,
    Membership.Scene.set_active_camera, Membership.Scene.remove_active_camera.
  cbn [Membership.scene_active_camera Membership.set_scene_active_camera
       Membership.scene_name].
  rewrite !upd_same. split; [reflexivity |].
  destruct (Nat.eqb_spec second first) as [E | _]; [congruence |].
  split; [reflexivity |].
  rewrite Nat.eqb_refl. eexists. split; [reflexivity |].
  cbn [Membership.scene_active_camera Membership.set_scene_active_camera
       Membership.scene_name].
  rewrite !upd_same. split; reflexivity.
Qed.

Lemma X29_camera_slot_last_one_wins_witness :
  Membership.scene_active_camera
    (Membership.Camera.add_to_scene
       (Membership.Camera.add_to_scene sample_heap 3%nat 7%nat) 4%nat 7%nat)
    7%nat
  = Some 4%nat.
Proof.
  assert (H : 3%nat <> 4%nat) by discriminate.
  exact (proj1 (X29_camera_slot_last_one_wins sample_heap 7%nat 3%nat 4%nat H)).
Defined.
